(** * The remote job client and the persistence store of child-demo

    A shallow embedding of [src/js/api.js] (class [ImageGenerator]) and of
    [src/js/storage.js] (class [StorageManager]), with the properties the
    specification states about them.

    JavaScript data is embedded as a tree of JSON-like values; objects used
    as maps are finite maps.  Code that can throw lives in a small
    state-and-exception monad; the [while (true)] polling loop and the
    recursion between [setItem] and the quota recovery take fuel, and a
    run that is out of fuel is [Pending]. *)

From Stdlib Require Import ZArith Lia Bool Ascii String.
From stdpp Require Import gmap strings list fin_maps pretty.

Set Warnings "-register-all".

Local Open Scope Z_scope.

(** ** JavaScript values *)

Module Js.

(** Numbers are integers: the timestamps, counts, sizes and HTTP statuses
    of this program.  Values are trees: two composite values obtained from
    different places are different references. *)
Inductive value : Type :=
| VUndefined
| VNull
| VBool (b : bool)
| VNum (n : Z)
| VStr (s : string)
| VArr (l : list value)
| VObj (m : gmap string value).

(** An object literal [{k1: v1, ...}] (the keys of a literal are distinct). *)
Definition obj (fields : list (string * value)) : value :=
  VObj (list_to_map fields).

(** ToBoolean *)
Definition truthy (v : value) : bool :=
  match v with
  | VUndefined | VNull => false
  | VBool b => b
  | VNum n => negb (n =? 0)%Z
  | VStr s => negb (String.eqb s EmptyString)
  | VArr _ | VObj _ => true
  end.

(** [a || b] *)
Definition js_or (a b : value) : value := if truthy a then a else b.

(** [typeof v === 'object'] *)
Definition typeof_object (v : value) : bool :=
  match v with
  | VNull | VArr _ | VObj _ => true
  | _ => false
  end.

Definition is_array (v : value) : bool :=
  match v with VArr _ => true | _ => false end.

Definition nullish (v : value) : bool :=
  match v with VUndefined | VNull => true | _ => false end.

(** ToString, as template literals and [+] on a string apply it. *)
Fixpoint to_js_string (v : value) : string :=
  match v with
  | VUndefined => "undefined"
  | VNull => "null"
  | VBool true => "true"
  | VBool false => "false"
  | VNum n => pretty n
  | VStr s => s
  | VArr l =>
      String.concat ","
        (map (fun x => match x with
                       | VUndefined | VNull => EmptyString
                       | _ => to_js_string x
                       end) l)
  | VObj _ => "[object Object]"
  end.

(** [a === b].  Composite operands of [===] in this program always come
    from two different parses or positions, hence are different
    references. *)
Definition strict_equal (a b : value) : bool :=
  match a, b with
  | VUndefined, VUndefined => true
  | VNull, VNull => true
  | VBool x, VBool y => Bool.eqb x y
  | VNum x, VNum y => x =? y
  | VStr x, VStr y => String.eqb x y
  | _, _ => false
  end.

(** Structural comparison, used for the keys of a [Map]: SameValueZero on
    primitive keys. *)
Fixpoint same_value (a b : value) : bool :=
  match a, b with
  | VArr l1, VArr l2 =>
      (fix go (l1 l2 : list value) : bool :=
         match l1, l2 with
         | [], [] => true
         | x :: r1, y :: r2 => same_value x y && go r1 r2
         | _, _ => false
         end) l1 l2
  | VObj m1, VObj m2 =>
      (size m1 =? size m2)%nat
      && map_fold (fun k v acc =>
                     acc && match m2 !! k with
                            | Some w => same_value v w
                            | None => false
                            end) true m1
  | _, _ => strict_equal a b
  end.

(** *** Completions *)

(** How a piece of code ends: it returns, it throws a value, or (for the
    fuelled loops only) it is still running. *)
Inductive outcome (A : Type) : Type :=
| Returns (a : A)
| Throws (e : value)
| Pending.
Arguments Returns {A} a.
Arguments Throws {A} e.
Arguments Pending {A}.

(** [new Error(message)], and the errors of the engine and of the host. *)
Definition new_error (name message : string) : value :=
  obj [("name", VStr name); ("message", VStr message)].
Definition Error (message : string) : value := new_error "Error" message.
Definition TypeError (message : string) : value := new_error "TypeError" message.

(** [v.k] for a named property.  Inherited members are not represented
    apart from [length]. *)
Definition get_prop (v : value) (k : string) : outcome value :=
  match v with
  | VUndefined | VNull =>
      Throws (TypeError ("Cannot read properties of " +:+ to_js_string v
                           +:+ " (reading '" +:+ k +:+ "')"))
  | VObj m => Returns (default VUndefined (m !! k))
  | VArr l =>
      if String.eqb k "length" then Returns (VNum (Z.of_nat (length l)))
      else Returns VUndefined
  | VStr s =>
      if String.eqb k "length" then Returns (VNum (Z.of_nat (String.length s)))
      else Returns VUndefined
  | _ => Returns VUndefined
  end.

(** [v[i]] for an index. *)
Definition get_index (v : value) (i : nat) : outcome value :=
  match v with
  | VUndefined | VNull =>
      Throws (TypeError ("Cannot read properties of " +:+ to_js_string v
                           +:+ " (reading '" +:+ pretty i +:+ "')"))
  | VArr l => Returns (default VUndefined (l !! i))
  | VObj m => Returns (default VUndefined (m !! pretty i))
  | VStr s =>
      Returns (match String.get i s with
               | Some c => VStr (String c EmptyString)
               | None => VUndefined
               end)
  | _ => Returns VUndefined
  end.

Fixpoint is_substring (needle s : string) : bool :=
  String.prefix needle s
  || match s with
     | EmptyString => false
     | String _ rest => is_substring needle rest
     end.

(** [v.includes(needle)] for a string needle. *)
Definition includes (v : value) (needle : string) : outcome bool :=
  match v with
  | VStr s => Returns (is_substring needle s)
  | VArr l => Returns (existsb (strict_equal (VStr needle)) l)
  | VUndefined | VNull =>
      Throws (TypeError ("Cannot read properties of " +:+ to_js_string v
                           +:+ " (reading 'includes')"))
  | _ => Throws (TypeError "includes is not a function")
  end.

(** The own enumerable properties that [{...v}] copies. *)
Definition spread (v : value) : gmap string value :=
  match v with
  | VObj m => m
  | VArr l => list_to_map (imap (fun i x => (pretty i, x)) l)
  | VStr s =>
      list_to_map
        (imap (fun i c => (pretty i, VStr (String c EmptyString)))
              (String.list_ascii_of_string s))
  | _ => ∅
  end.

(** Sequencing of code that can throw but has no state. *)
Global Instance outcome_ret : MRet outcome := fun A a => Returns a.
Global Instance outcome_bind : MBind outcome := fun A B f c =>
  match c with
  | Returns a => f a
  | Throws e => Throws e
  | Pending => Pending
  end.

(** [v.k] where [v] is known not to be null or undefined. *)
Definition field (v : value) (k : string) : value :=
  match get_prop v k with
  | Returns x => x
  | _ => VUndefined
  end.

(** *** The state and exception monad *)

Definition M (S A : Type) : Type := S -> outcome A * S.

Global Instance M_ret {S} : MRet (M S) := fun A a s => (Returns a, s).

Global Instance M_bind {S} : MBind (M S) := fun A B f m s =>
  match m s with
  | (Returns a, s') => f a s'
  | (Throws e, s') => (Throws e, s')
  | (Pending, s') => (Pending, s')
  end.

Definition throw {S A} (e : value) : M S A := fun s => (Throws e, s).
Definition pending {S A} : M S A := fun s => (Pending, s).
Definition lift {S A} (c : outcome A) : M S A := fun s => (c, s).
Definition gets {S A} (f : S -> A) : M S A := fun s => (Returns (f s), s).
Definition modify {S} (f : S -> S) : M S unit := fun s => (Returns tt, f s).

(** [try { body } catch (error) { handler }] *)
Definition try_catch {S A} (body : M S A) (handler : value -> M S A) : M S A :=
  fun s =>
    match body s with
    | (Throws e, s') => handler e s'
    | r => r
    end.

(** [try { body } finally { cleanup }]: the cleanup runs once the body has
    returned or thrown, and the body's completion stands unless the
    cleanup throws. *)
Definition try_finally {S A} (body : M S A) (cleanup : M S unit) : M S A :=
  fun s =>
    match body s with
    | (Pending, s') => (Pending, s')
    | (r, s') =>
        match cleanup s' with
        | (Returns _, s'') => (r, s'')
        | (Throws e, s'') => (Throws e, s'')
        | (Pending, s'') => (Pending, s'')
        end
    end.

(** A function-local [let] variable of type [L] next to the state [S]. *)
Definition with_local {S L A} (init : L) (m : M (S * L) A) : M S A :=
  fun s => let '(r, (s', _)) := m (s, init) in (r, s').
Definition outer {S L A} (m : M S A) : M (S * L) A :=
  fun '(s, l) => let '(r, s') := m s in (r, (s', l)).
Definition get_local {S L} : M (S * L) L := fun '(s, l) => (Returns l, (s, l)).
Definition set_local {S L} (l : L) : M (S * L) unit :=
  fun '(s, _) => (Returns tt, (s, l)).
Definition update_local {S L} (f : L -> L) : M (S * L) unit :=
  fun '(s, l) => (Returns tt, (s, f l)).

(** *** Judgements on monadic code *)

(** [ensures R E Q m]: running [m] relates the states by [R], throws only
    values in [E] and returns only values in [Q]. *)
Definition ensures {S A} (R : S -> S -> Prop) (E : value -> Prop)
    (Q : A -> Prop) (m : M S A) : Prop :=
  forall s, R s (m s).2
            /\ (forall e, (m s).1 = Throws e -> E e)
            /\ (forall a, (m s).1 = Returns a -> Q a).

(** [settles m]: [m] returns or throws. *)
Definition settles {S A} (m : M S A) : Prop := forall s, (m s).1 <> Pending.

Definition anything {A} (_ : A) : Prop := True.

(** A thrown value whose [message] can be read, under the assumption [P]. *)
Definition thrown_if (P : Prop) (e : value) : Prop := P -> nullish e = false.

(** The nesting depth of a value. *)
Fixpoint depth (v : value) : nat :=
  match v with
  | VArr l => Datatypes.S (foldr (fun x acc => Nat.max (depth x) acc) 0%nat l)
  | VObj m =>
      Datatypes.S (map_fold (fun _ x acc => Nat.max (depth x) acc) 0%nat m)
  | _ => 0%nat
  end.

End Js.

(** ** The remote job client: [src/js/api.js] *)

Module Api.
Import Js.

(** The fields the constructor sets; [activeTasks] is in the state. *)
Definition apiBaseUrl : string := "https://api.kie.ai/api/v1".
Definition modelName : string := "nano-banana-pro".
Definition pollingInterval : Z := 2000.
Definition maxPollingTime : Z := 300000.

(** What [fetch] is called with; the body is the document that is
    serialised into the request. *)
Record Request : Type := mkRequest {
  req_method : string;
  req_url : string;
  req_headers : list (string * string);
  req_body : option value
}.

(** What [fetch] and then [response.json()] give: a rejection (an error
    object of the host, with its name and message), or a response with its
    status and either the parsed body or the message of the SyntaxError. *)
Inductive FetchResult : Type :=
| FetchRejects (name message : string)
| FetchResponds (status : Z) (json : value + string).

(** The environment of one run: the server's answer to the n-th request,
    the n-th reading of [Date.now()], [JSON.parse] (the parsed value or the
    message of its SyntaxError), and the values that stand for the members
    of [Object.prototype], which are functions and an object of the host. *)
Record World : Type := mkWorld {
  server : nat -> Request -> FetchResult;
  clock : nat -> Z;
  JSON_parse : string -> value + string;
  native : string -> value
}.

(** The names under which an object literal inherits a member. *)
Definition Object_prototype : list string :=
  ["constructor"; "hasOwnProperty"; "isPrototypeOf"; "propertyIsEnumerable";
   "toLocaleString"; "toString"; "valueOf"; "__proto__"; "__defineGetter__";
   "__defineSetter__"; "__lookupGetter__"; "__lookupSetter__"].

(** A caller's callback with its private state [U]: it returns ([None])
    or throws a value. *)
Definition Callback (U : Type) : Type := value -> U -> option value * U.

(** The generator object and its surroundings. *)
Record State (U : Type) : Type := mkState {
  activeTasks : list (value * value);  (* the Map, in insertion order *)
  sent : list Request;                 (* requests issued so far *)
  ticks : nat;                         (* readings of Date.now() so far *)
  waits : list Z;                      (* delays slept so far *)
  updates : list value;                (* arguments onUpdate was called with *)
  user : U                             (* the callbacks' own state *)
}.
Arguments mkState {U}.
Arguments activeTasks {U}.
Arguments sent {U}.
Arguments ticks {U}.
Arguments waits {U}.
Arguments updates {U}.
Arguments user {U}.

(** [Map.prototype.set], [delete], [has] *)
Definition Map_has (k : value) (m : list (value * value)) : bool :=
  existsb (fun e => same_value k (fst e)) m.
Definition Map_set (k v : value) (m : list (value * value))
  : list (value * value) :=
  if Map_has k m
  then map (fun e => if same_value k (fst e) then (fst e, v) else e) m
  else m ++ [(k, v)].
Definition Map_delete (k : value) (m : list (value * value))
  : list (value * value) :=
  List.filter (fun e => negb (same_value k (fst e))) m.

Section Generator.
Context {U : Type}.
Variable W : World.

Abbreviation St := (State U).

Definition set_activeTasks (f : list (value * value) -> list (value * value))
  : M St unit :=
  modify (fun s => mkState (f (activeTasks s)) (sent s) (ticks s) (waits s)
                           (updates s) (user s)).

(** [await fetch(...)] followed by [await response.json()] *)
Definition fetch (r : Request) : M St (Z * value) := fun s =>
  let s' := mkState (activeTasks s) (sent s ++ [r]) (ticks s) (waits s)
                    (updates s) (user s) in
  match server W (length (sent s)) r with
  | FetchRejects name message => (Throws (new_error name message), s')
  | FetchResponds status (inl data) => (Returns (status, data), s')
  | FetchResponds status (inr message) =>
      (Throws (new_error "SyntaxError" message), s')
  end.

(** [response.ok] *)
Definition response_ok (status : Z) : bool :=
  (200 <=? status) && (status <=? 299).

(** [Date.now()] *)
Definition Date_now : M St Z := fun s =>
  (Returns (clock W (ticks s)),
   mkState (activeTasks s) (sent s) (Datatypes.S (ticks s)) (waits s)
           (updates s) (user s)).

(** [await new Promise(resolve => setTimeout(resolve, ms))] *)
Definition sleep (ms : Z) : M St unit :=
  modify (fun s => mkState (activeTasks s) (sent s) (ticks s)
                           (waits s ++ [ms]) (updates s) (user s)).

(** Calling a callback of the caller. *)
Definition call (f : Callback U) (arg : value) : M St unit := fun s =>
  let '(r, u) := f arg (user s) in
  let s' := mkState (activeTasks s) (sent s) (ticks s) (waits s)
                    (updates s) u in
  match r with
  | None => (Returns tt, s')
  | Some e => (Throws e, s')
  end.

Definition errorMessages (status : Z) : value :=
  if status =? 400 then VStr "请求参数格式错误，请检查输入内容"
  else if status =? 401 then VStr "API密钥无效或已过期，请检查密钥是否正确"
  else if status =? 402 then VStr "账户余额不足，请充值后重试"
  else if status =? 404 then VStr "请求的资源不存在或已被删除"
  else if status =? 422 then VStr "请求参数验证失败，请检查输入内容是否符合要求"
  else if status =? 429 then VStr "请求频率过高，请稍后再试"
  else if status =? 500 then VStr "服务器内部错误，请稍后重试"
  else if status =? 502 then VStr "网关错误，请稍后重试"
  else if status =? 503 then VStr "服务暂时不可用，请稍后重试"
  else if status =? 504 then VStr "网关超时，请稍后重试"
  else VUndefined.

Definition handleApiError (status : Z) (data : value) : outcome value :=
  msg ← get_prop data "msg";
  let message :=
    js_or msg
      (js_or (field data "message")
         (js_or (errorMessages status)
            (VStr ("未知错误 (" +:+ pretty status +:+ ")")))) in
  let failMsg := field data "failMsg" in
  let message :=
    if truthy failMsg
    then VStr (to_js_string message +:+ " (" +:+ to_js_string failMsg +:+ ")")
    else message in
  let failCode := field data "failCode" in
  let message :=
    if truthy failCode
    then VStr (to_js_string message +:+ " [错误代码: "
                 +:+ to_js_string failCode +:+ "]")
    else message in
  mret (VObj (<["data" := data]>
               (<["code" := js_or (field data "code") failCode]>
                  (<["status" := VNum status]>
                     (spread (Error (to_js_string message))))))).

Definition defaultOptions : gmap string value :=
  list_to_map [("aspect_ratio", VStr "3:4"); ("resolution", VStr "2K");
               ("output_format", VStr "png"); ("image_input", VArr [])].

Definition createTask_request (apiKey prompt options : value) : Request :=
  let options := match options with VUndefined => VObj ∅ | o => o end in
  let requestBody :=
    obj [("model", VStr modelName);
         ("input", VObj (<["prompt" := prompt]>
                           (spread options ∪ defaultOptions)));
         ("callBackUrl", VNull)] in
  mkRequest "POST" (apiBaseUrl +:+ "/jobs/createTask")
            [("Authorization", "Bearer " +:+ to_js_string apiKey);
             ("Content-Type", "application/json")]
            (Some requestBody).

Definition createTask (apiKey prompt options : value) : M St value :=
  try_catch
    ('(status, data) ← fetch (createTask_request apiKey prompt options);
     if negb (response_ok status)
     then error ← lift (handleApiError status data); throw error
     else
       d ← lift (get_prop data "data");
       if negb (truthy d) || negb (truthy (field d "taskId"))
       then throw (Error "API响应格式错误：缺少taskId")
       else mret data)
    (fun error =>
       name ← lift (get_prop error "name");
       if strict_equal name (VStr "TypeError")
       then
         found ← lift (includes (field error "message") "fetch");
         if found : bool
         then throw (Error "网络连接失败，请检查网络连接或API地址是否正确")
         else throw error
       else throw error).

Definition queryTaskStatus_request (taskId : value) : Request :=
  mkRequest "GET"
            (apiBaseUrl +:+ "/jobs/recordInfo?taskId=" +:+ to_js_string taskId)
            [] None.

Definition queryTaskStatus (taskId : value) : M St value :=
  try_catch
    ('(status, data) ← fetch (queryTaskStatus_request taskId);
     if negb (response_ok status)
     then error ← lift (handleApiError status data); throw error
     else mret data)
    (fun error => throw error).

(** One turn of the [while (true)] loop: [inl result] when the loop is left
    by [return result], [inr lastStatus] when it goes round again. *)
Definition pollIteration (taskId : value) (onUpdate : option (Callback U))
    (startTime : Z) (lastStatus : value) : M St (value + value) :=
  try_catch
    (result ← queryTaskStatus taskId;
     data ← lift (get_prop result "data");
     currentStatus ← lift (get_prop data "state");
     lastStatus ←
       match onUpdate with
       | Some f =>
           if negb (strict_equal currentStatus lastStatus)
           then
             modify (fun s => mkState (activeTasks s) (sent s) (ticks s)
                                (waits s) (updates s ++ [data]) (user s));;
             call f data;;
             mret currentStatus
           else mret lastStatus
       | None => mret lastStatus
       end;
     if strict_equal currentStatus (VStr "success")
     then mret (inl result)
     else if strict_equal currentStatus (VStr "fail")
     then throw (Error ("Task failed: "
                          +:+ to_js_string (js_or (field data "failMsg")
                                                  (VStr "Unknown error"))))
     else
       now ← Date_now;
       if now - startTime >? maxPollingTime
       then throw (Error "Task polling timeout")
       else sleep pollingInterval;; mret (inr lastStatus))
    (fun error => throw error).

Fixpoint pollLoop (fuel : nat) (taskId : value) (onUpdate : option (Callback U))
    (startTime : Z) (lastStatus : value) : M St value :=
  match fuel with
  | O => pending
  | Datatypes.S fuel' =>
      r ← pollIteration taskId onUpdate startTime lastStatus;
      match r with
      | inl result => mret result
      | inr lastStatus' => pollLoop fuel' taskId onUpdate startTime lastStatus'
      end
  end.

Definition pollTaskUntilComplete (fuel : nat) (taskId : value)
    (onUpdate : option (Callback U)) : M St value :=
  startTime ← Date_now;
  pollLoop fuel taskId onUpdate startTime VNull.

(** [messages[status]] finds the five members of the literal and the
    members that the literal inherits, which are all truthy. *)
Definition getStatusMessage (status : value) : value :=
  let key := to_js_string status in
  let messages : value :=
    if String.eqb key "waiting" then VStr "任务排队中，请稍候..."
    else if String.eqb key "running" then VStr "AI正在绘制图片，这需要一些时间..."
    else if String.eqb key "processing" then VStr "正在处理生成的图片..."
    else if String.eqb key "success" then VStr "图片生成成功！"
    else if String.eqb key "fail" then VStr "生成失败，请重试"
    else VUndefined in
  if bool_decide (key ∈ Object_prototype) then native W key
  else js_or messages (VStr ("任务状态: " +:+ key)).

(** The arrow function that [generateImage] hands to the polling loop. *)
Definition progress_update (onProgress : option (Callback U)) : Callback U :=
  fun data u =>
    match onProgress with
    | None => (None, u)
    | Some f =>
        match get_prop data "state" with
        | Throws e => (Some e, u)
        | _ =>
            f (obj [("status", field data "state");
                    ("message", getStatusMessage (field data "state"));
                    ("taskId", field data "taskId");
                    ("createTime", field data "createTime");
                    ("costTime", field data "costTime")]) u
        end
    end.

Definition notify (onProgress : option (Callback U)) (event : value)
  : M St unit :=
  match onProgress with
  | Some f => call f event
  | None => mret tt
  end.

(** The [try] block of [generateImage]; the function's local variable
    [taskId] sits next to the state. *)
Definition generateImage_try (fuel : nat) (apiKey prompt options : value)
    (onProgress : option (Callback U)) : M (St * value) value :=
  outer (notify onProgress
           (obj [("status", VStr "creating");
                 ("message", VStr "正在创建生成任务...")]));;
  createResult ← outer (createTask apiKey prompt options);
  d ← lift (get_prop createResult "data");
  taskId ← lift (get_prop d "taskId");
  set_local taskId;;
  now ← outer Date_now;
  outer (set_activeTasks
           (Map_set taskId (obj [("startTime", VNum now);
                                 ("prompt", prompt)])));;
  outer (notify onProgress
           (obj [("status", VStr "waiting");
                 ("message", VStr "任务已创建，等待处理...")]));;
  result ← outer (pollTaskUntilComplete fuel taskId
                    (Some (progress_update onProgress)));
  rd ← lift (get_prop result "data");
  resultJson ← lift (get_prop rd "resultJson");
  imageData ←
    match JSON_parse W (to_js_string resultJson) with
    | inl v => mret v
    | inr message => throw (new_error "SyntaxError" message)
    end;
  resultUrls ← lift (get_prop imageData "resultUrls");
  imageUrl ← lift (get_index resultUrls 0);
  timestamp ← outer Date_now;
  mret (obj [("success", VBool true);
             ("taskId", taskId);
             ("imageUrl", imageUrl);
             ("generationTime", field rd "costTime");
             ("timestamp", VNum timestamp)]).

(** The [catch] block. *)
Definition generateImage_catch (error : value) : M (St * value) value :=
  message ← lift (get_prop error "message");
  taskId ← get_local;
  mret (obj [("success", VBool false);
             ("error", message);
             ("taskId", taskId)]).

(** The [finally] block. *)
Definition generateImage_finally : M (St * value) unit :=
  taskId ← get_local;
  if truthy taskId
  then outer (set_activeTasks (Map_delete taskId))
  else mret tt.

Definition generateImage (fuel : nat) (apiKey prompt options : value)
    (onProgress : option (Callback U)) : M St value :=
  with_local VNull
    (try_finally
       (try_catch (generateImage_try fuel apiKey prompt options onProgress)
                  generateImage_catch)
       generateImage_finally).

(** [cancelTask] and [getActiveTasksCount] *)
Definition cancelTask (taskId : value) : M St unit :=
  set_activeTasks (Map_delete taskId).

Definition getActiveTasksCount : M St Z :=
  gets (fun s => Z.of_nat (length (activeTasks s))).

End Generator.

(** *** What the properties below speak about *)

Section Specification.
Context {U : Type}.
Variable W : World.

(** The answer to the status query sent as the n-th request. *)
Definition reply (taskId : value) (n : nat) : FetchResult :=
  server W n (queryTaskStatus_request taskId).

(** What one poll observes in an answer: the response, its [data] and the
    state, when the answer is a successful response that has them. *)
Definition observation (fr : FetchResult) : option (value * value * value) :=
  match fr with
  | FetchResponds status (inl result) =>
      if response_ok status
      then match get_prop result "data" with
           | Returns data =>
               match get_prop data "state" with
               | Returns st => Some (result, data, st)
               | _ => None
               end
           | _ => None
           end
      else None
  | _ => None
  end.

(** An answer that carries a state other than [success] and [fail]. *)
Definition nonterminal (fr : FetchResult) : Prop :=
  exists result data cur,
    observation fr = Some (result, data, cur)
    /\ strict_equal cur (VStr "success") = false
    /\ strict_equal cur (VStr "fail") = false.

(** The [data] objects observed by [count] polls from request [from] on. *)
Definition observed (taskId : value) (from count : nat) : list value :=
  omap (fun k => match observation (reply taskId k) with
                 | Some (_, data, _) => Some data
                 | None => None
                 end) (seq from count).

Definition state_name (data : value) : string :=
  match field data "state" with VStr st => st | _ => EmptyString end.

Definition has_state_name (data : value) : Prop :=
  exists st, field data "state" = VStr st.

(** The first element of every maximal run of elements with the same key;
    [prev] is the key of the element before the list, if any. *)
Fixpoint first_of_runs {A} (key : A -> string) (prev : option string)
    (l : list A) : list A :=
  match l with
  | [] => []
  | x :: rest =>
      if decide (prev = Some (key x))
      then first_of_runs key prev rest
      else x :: first_of_runs key (Some (key x)) rest
  end.

(** [lastStatus] holds the state seen last, [null] before the first poll. *)
Definition agrees (last : value) (prev : option string) : Prop :=
  match prev with
  | None => last = VNull
  | Some p => last = VStr p
  end.

(** Whether [onUpdate] is called for the state [cur]. *)
Definition fires (onUpdate : option (Callback U)) (cur last : value) : bool :=
  match onUpdate with
  | Some _ => negb (strict_equal cur last)
  | None => false
  end.

(** A callback that never throws. *)
Definition quiet_callback (o : option (Callback U)) : Prop :=
  forall f, o = Some f -> forall v u, (f v u).1 = None.

(** A callback that never throws [null] or [undefined]. *)
Definition polite (f : Callback U) : Prop :=
  forall v u e, (f v u).1 = Some e -> nullish e = false.

Definition polite_opt (o : option (Callback U)) : Prop :=
  forall f, o = Some f -> polite f.

(** The task map and the clock are as before. *)
Definition same_tasks (s s' : State U) : Prop :=
  activeTasks s' = activeTasks s /\ ticks s' = ticks s.

(** The task map is as before. *)
Definition same_map (s s' : State U) : Prop := activeTasks s' = activeTasks s.

(** The two shapes of what [generateImage] returns. *)
Definition success_result (taskId imageUrl generationTime : value)
    (timestamp : Z) : value :=
  obj [("success", VBool true); ("taskId", taskId); ("imageUrl", imageUrl);
       ("generationTime", generationTime); ("timestamp", VNum timestamp)].

Definition failure_result (message taskId : value) : value :=
  obj [("success", VBool false); ("error", message); ("taskId", taskId)].

Definition is_success (taskId v : value) : Prop :=
  exists imageUrl generationTime timestamp,
    v = success_result taskId imageUrl generationTime timestamp.

(** Within [fuel] polls a reading of the clock is past the ceiling, counted
    from the start of a [generateImage] call in state [s]. *)
Definition late (s : State U) (fuel : nat) : Prop :=
  exists j, (j < fuel)%nat
            /\ clock W (ticks s + 2 + j) - clock W (ticks s + 1)
               > maxPollingTime.

(** What a callback has done to its state once it has been called with
    the values [calls], one after the other. *)
Definition run_callback (f : Callback U) (calls : list value) (u : U) : U :=
  foldl (fun u v => (f v u).2) u calls.

(** The two events that [generateImage] reports itself. *)
Definition creating_event : value :=
  obj [("status", VStr "creating"); ("message", VStr "正在创建生成任务...")].

Definition waiting_event : value :=
  obj [("status", VStr "waiting"); ("message", VStr "任务已创建，等待处理...")].

(** The state once [generateImage] has read the clock and entered the job
    [taskId] into the task map. *)
Definition tracked (s : State U) (taskId prompt : value) : State U :=
  mkState (Map_set taskId (obj [("startTime", VNum (clock W (ticks s)));
                                ("prompt", prompt)])
                   (activeTasks s))
          (sent s) (Datatypes.S (ticks s)) (waits s) (updates s) (user s).

(** What the [try] block of [generateImage] leaves behind: either no job
    was created, or the local [taskId] is tracked. *)
Definition try_post (onProgress : option (Callback U)) (fuel : nat)
    (s : State U) (r : outcome value) (x : State U * value) : Prop :=
  ((x.2 = VNull /\ activeTasks x.1 = activeTasks s
    /\ (forall v, r <> Returns v) /\ r <> Pending)
   \/ (truthy x.2 = true
       /\ (exists info, activeTasks x.1 = Map_set x.2 info (activeTasks s))
       /\ (forall v, r = Returns v -> is_success x.2 v)
       /\ (late s fuel -> r <> Pending)))
  /\ (forall e, r = Throws e -> polite_opt onProgress -> nullish e = false).

End Specification.

(** *** Some servers and callers *)

Definition initial {U} (u : U) : State U := mkState [] [] 0 [] [] u.

Definition status_body (state : string) : value :=
  obj [("code", VNum 200);
       ("data", obj [("taskId", VStr "task-1"); ("state", VStr state)])].

Definition quote : string := String (ascii_of_nat 34) EmptyString.

(** The text [{"resultUrls":["https://x/y.png"]}]. *)
Definition result_text : string :=
  "{" +:+ quote +:+ "resultUrls" +:+ quote +:+ ":[" +:+ quote
      +:+ "https://x/y.png" +:+ quote +:+ "]}".

Definition success_body : value :=
  obj [("code", VNum 200);
       ("data", obj [("taskId", VStr "task-1"); ("state", VStr "success");
                     ("resultJson", VStr result_text);
                     ("costTime", VNum 4200)])].

Definition created_body : value :=
  obj [("code", VNum 200); ("data", obj [("taskId", VStr "task-1")])].

(** [JSON.parse] on the one text these servers send. *)
Definition parse_result_text (text : string) : value + string :=
  if String.eqb text result_text
  then inl (obj [("resultUrls", VArr [VStr "https://x/y.png"])])
  else inr "Unexpected token".

(** What stands for a member of [Object.prototype] in these runs: the
    text of a function of the host, and under [__proto__] the prototype
    itself, an object without an enumerable member. *)
Definition host_member (name : string) : value :=
  if String.eqb name "__proto__" then VObj ∅
  else VStr ("function " +:+ name +:+ "() { [native code] }").

(** No network. *)
Definition idle_world : World :=
  mkWorld (fun _ _ => FetchRejects "TypeError" "Failed to fetch")
          (fun _ => 0) parse_result_text host_member.

(** The job is created, then reported [waiting], [running], [success];
    the clock advances by two seconds per reading. *)
Definition happy_world : World :=
  mkWorld (fun n _ => FetchResponds 200
                        (inl (match n with
                              | 0%nat => created_body
                              | 1%nat => status_body "waiting"
                              | 2%nat => status_body "running"
                              | _ => success_body
                              end)))
          (fun n => 2000 * Z.of_nat n) parse_result_text host_member.

(** The server reports [succeeded] and then [success]. *)
Definition renamed_world : World :=
  mkWorld (fun n _ => FetchResponds 200
                        (inl (match n with
                              | 0%nat => status_body "succeeded"
                              | _ => success_body
                              end)))
          (fun _ => 0) parse_result_text host_member.

(** The job stays [running]; the clock advances by 140 seconds per
    reading. *)
Definition slow_world : World :=
  mkWorld (fun _ _ => FetchResponds 200 (inl (status_body "running")))
          (fun n => 140000 * Z.of_nat n) parse_result_text host_member.

(** The job is [running] at the first poll and done at the second.  The
    clock stands at 299999 ms when it is read after the first poll, and at
    301999 ms, one polling interval later, from then on. *)
Definition late_world : World :=
  mkWorld (fun n _ => FetchResponds 200
                        (inl (match n with
                              | 0%nat => status_body "running"
                              | _ => success_body
                              end)))
          (fun n => match n with
                    | 0%nat => 0
                    | 1%nat => 299999
                    | _ => 301999
                    end)
          parse_result_text host_member.

(** The states of the specification's example, one per poll. *)
Definition example_states : list string :=
  ["queued"; "queued"; "running"; "running"; "processing"; "succeeded"].

Definition example_world : World :=
  mkWorld (fun n _ => FetchResponds 200
                        (inl (status_body (nth n example_states "succeeded"))))
          (fun _ => 0) parse_result_text host_member.

(** A callback that throws [null], and one that records its arguments. *)
Definition throws_null : Callback unit := fun _ u => (Some VNull, u).
Definition recorder : Callback (list value) := fun v u => (None, u ++ [v]).

(** *** The rest of the client *)

Section More.
Context {U : Type}.
Variable W : World.

(** [testConnection(apiKey)] *)
Definition testConnection (apiKey : value) : M (State U) value :=
  try_catch
    (result ← createTask W apiKey (VStr "Test connection") VUndefined;
     d ← lift (get_prop result "data");
     if truthy d then lift (get_prop d "taskId") else mret d)
    (fun _ => mret (VBool false)).

(** The state after the request [r] has been issued. *)
Definition requested (s : State U) (r : Request) : State U :=
  mkState (activeTasks s) (sent s ++ [r]) (ticks s) (waits s) (updates s)
          (user s).

(** A callback that does not throw when it is given an object. *)
Definition calm (o : option (Callback U)) : Prop :=
  forall f, o = Some f -> forall v u, nullish v = false -> (f v u).1 = None.

(** What the [try] block of [generateImage] does with the result of the
    polling. *)
Definition generateImage_finish (taskId result : value)
  : M (State U * value) value :=
  rd ← lift (get_prop result "data");
  resultJson ← lift (get_prop rd "resultJson");
  imageData ←
    match JSON_parse W (to_js_string resultJson) with
    | inl v => mret v
    | inr message => throw (new_error "SyntaxError" message)
    end;
  resultUrls ← lift (get_prop imageData "resultUrls");
  imageUrl ← lift (get_index resultUrls 0);
  timestamp ← outer (Date_now W);
  mret (obj [("success", VBool true);
             ("taskId", taskId);
             ("imageUrl", imageUrl);
             ("generationTime", field rd "costTime");
             ("timestamp", VNum timestamp)]).

End More.

(** *** [buildPrompt] *)

Definition newline : string := String (ascii_of_nat 10) EmptyString.

Definition ReferenceError (message : string) : value :=
  new_error "ReferenceError" message.

(** [array.map(render)], where [array] is written [expr] in the source. *)
Definition map_items (expr : string) (array : value)
    (render : value -> outcome string) : outcome (list string) :=
  match array with
  | VArr l => mapM render l
  | VUndefined | VNull =>
      Throws (TypeError ("Cannot read properties of " +:+ to_js_string array
                           +:+ " (reading 'map')"))
  | _ => Throws (TypeError (expr +:+ ".map is not a function"))
  end.

(** [array.slice(0, 5).map(render)] *)
Definition map_first_five (expr : string) (array : value)
    (render : value -> outcome string) : outcome (list string) :=
  match array with
  | VArr l => mapM render (take 5 l)
  | VUndefined | VNull =>
      Throws (TypeError ("Cannot read properties of " +:+ to_js_string array
                           +:+ " (reading 'slice')"))
  | VStr _ => Throws (TypeError (expr +:+ ".slice(...).map is not a function"))
  | _ => Throws (TypeError (expr +:+ ".slice is not a function"))
  end.

(** [item => `${item.pinyin} ${item.chinese}`] *)
Definition pinyin_chinese (item : value) : outcome string :=
  pinyin ← get_prop item "pinyin";
  chinese ← get_prop item "chinese";
  mret (to_js_string pinyin +:+ " " +:+ to_js_string chinese).

(** [item => `${item.chinese}(${item.pinyin})`] *)
Definition chinese_pinyin (item : value) : outcome string :=
  chinese ← get_prop item "chinese";
  pinyin ← get_prop item "pinyin";
  mret (to_js_string chinese +:+ "(" +:+ to_js_string pinyin +:+ ")").

(** The local variable [prompt] of [buildPrompt]. *)
Definition buildPrompt_prompt (theme title vocabulary themeInfo : value)
  : outcome string :=
  name ← (if nullish themeInfo then Returns VUndefined
          else get_prop themeInfo "name");
  let themeName := js_or name theme in
  core ← get_prop vocabulary "core";
  coreVocabulary ← map_items "vocabulary.core" core pinyin_chinese;
  items ← get_prop vocabulary "items";
  itemsVocabulary ← map_items "vocabulary.items" items pinyin_chinese;
  environment ← get_prop vocabulary "environment";
  environmentVocabulary ←
    map_items "vocabulary.environment" environment pinyin_chinese;
  coreLabels ← map_first_five "vocabulary.core" core chinese_pinyin;
  itemLabels ← map_first_five "vocabulary.items" items chinese_pinyin;
  mret ("一张中国儿童识字海报：标题《" +:+ to_js_string title
        +:+ "》，主题：" +:+ to_js_string themeName +:+ newline
        +:+ newline
        +:+ "适合5-9岁儿童学习中文汉字的教育插图。" +:+ newline
        +:+ newline
        +:+ "要求：" +:+ newline
        +:+ "- 风格：简洁明快的卡通插画，儿童绘本风格" +:+ newline
        +:+ "- 格式：竖版海报" +:+ newline
        +:+ "- 语言：纯中文，包含拼音标注" +:+ newline
        +:+ newline
        +:+ "必须包含的词汇：" +:+ newline
        +:+ String.concat "、" coreLabels +:+ newline
        +:+ String.concat "、" itemLabels +:+ newline
        +:+ newline
        +:+ "每个物品都要有中文标签：" +:+ newline
        +:+ "第一行：拼音" +:+ newline
        +:+ "第二行：汉字" +:+ newline
        +:+ newline
        +:+ "色彩明亮，教育风格，清晰标注，适合教室使用。").

(** [buildPrompt(theme, title, vocabulary, themeInfo)].  After the prompt is
    built, the third [console.log] reads [selectedCore], a name that no
    script of the repository declares. *)
Definition buildPrompt (theme title vocabulary themeInfo : value)
  : outcome string :=
  prompt ← buildPrompt_prompt theme title vocabulary themeInfo;
  Throws (ReferenceError "selectedCore is not defined").

(** A vocabulary with its three lists of entries. *)
Definition well_formed_vocabulary (vocabulary : value) : Prop :=
  exists core items environment,
    field vocabulary "core" = VArr core
    /\ field vocabulary "items" = VArr items
    /\ field vocabulary "environment" = VArr environment
    /\ Forall (fun x => nullish x = false) (core ++ items ++ environment).

(** *** More servers *)

(** Every request is answered 401. *)
Definition denied_world : World :=
  mkWorld (fun _ _ => FetchResponds 401
                        (inl (obj [("code", VNum 401);
                                   ("msg", VStr "Unauthorized")])))
          (fun _ => 0) parse_result_text host_member.

(** Every request is answered 200, without a task identifier. *)
Definition bare_world : World :=
  mkWorld (fun _ _ => FetchResponds 200
                        (inl (obj [("code", VNum 200); ("msg", VStr "success")])))
          (fun _ => 0) parse_result_text host_member.

(** The first request is answered [running], then the network is gone. *)
Definition dropping_world : World :=
  mkWorld (fun n _ => match n with
                      | 0%nat => FetchResponds 200 (inl (status_body "running"))
                      | _ => FetchRejects "TypeError" "Failed to fetch"
                      end)
          (fun _ => 0) parse_result_text host_member.

(** The job is created, then reported [running], then [fail]. *)
Definition failing_world : World :=
  mkWorld (fun n _ =>
             FetchResponds 200
               (inl (match n with
                     | 0%nat => created_body
                     | 1%nat => status_body "running"
                     | _ => obj [("code", VNum 200);
                                 ("data", obj [("taskId", VStr "task-1");
                                               ("state", VStr "fail");
                                               ("failMsg", VStr "blocked")])]
                     end)))
          (fun _ => 0) parse_result_text host_member.

(** A vocabulary of one word per list. *)
Definition word (pinyin chinese : string) : value :=
  obj [("pinyin", VStr pinyin); ("chinese", VStr chinese)].

Definition small_vocabulary : value :=
  obj [("core", VArr [word "mao" "cat"]);
       ("items", VArr [word "gou" "dog"]);
       ("environment", VArr [word "shu" "tree"])].

End Api.

(** ** [btoa] and [atob] *)

Module Base64.
Import Js.
Local Close Scope Z_scope.

(** Six bits, the most significant first. *)
Definition sextet : Type := (bool * bool * bool * bool * bool * bool)%type.

Definition index (s : sextet) : nat :=
  let '(b5, b4, b3, b2, b1, b0) := s in
  (if b5 : bool then 32 else 0) + (if b4 : bool then 16 else 0)
  + (if b3 : bool then 8 else 0) + (if b2 : bool then 4 else 0)
  + (if b1 : bool then 2 else 0) + (if b0 : bool then 1 else 0).

Definition of_index (n : nat) : sextet :=
  (Nat.testbit n 5, Nat.testbit n 4, Nat.testbit n 3, Nat.testbit n 2,
   Nat.testbit n 1, Nat.testbit n 0).

(** The alphabet: [A-Z], [a-z], [0-9], [+], [/]. *)
Definition char_of (s : sextet) : ascii :=
  let n := index s in
  ascii_of_nat (if n <? 26 then 65 + n
                else if n <? 52 then 71 + n
                else if n <? 62 then n - 4
                else if n =? 62 then 43 else 47).

Definition sextet_of (c : ascii) : option sextet :=
  let n := nat_of_ascii c in
  if (65 <=? n) && (n <=? 90) then Some (of_index (n - 65))
  else if (97 <=? n) && (n <=? 122) then Some (of_index (n - 71))
  else if (48 <=? n) && (n <=? 57) then Some (of_index (n + 4))
  else if n =? 43 then Some (of_index 62)
  else if n =? 47 then Some (of_index 63)
  else None.

Definition equals_sign : ascii := ascii_of_nat 61.

(** Three bytes are four sextets; one byte and two bytes are padded with
    zero bits. *)
Definition split3 (a b c : ascii) : sextet * sextet * sextet * sextet :=
  let '(Ascii a0 a1 a2 a3 a4 a5 a6 a7) := a in
  let '(Ascii b0 b1 b2 b3 b4 b5 b6 b7) := b in
  let '(Ascii c0 c1 c2 c3 c4 c5 c6 c7) := c in
  ((a7, a6, a5, a4, a3, a2), (a1, a0, b7, b6, b5, b4),
   (b3, b2, b1, b0, c7, c6), (c5, c4, c3, c2, c1, c0)).

Definition zero : ascii := Ascii false false false false false false false false.

(** The sextets of a sequence of bytes, without padding. *)
Fixpoint sextets (l : list ascii) : list sextet :=
  match l with
  | a :: b :: c :: rest =>
      let '(s1, s2, s3, s4) := split3 a b c in
      s1 :: s2 :: s3 :: s4 :: sextets rest
  | [a; b] => let '(s1, s2, s3, _) := split3 a b zero in [s1; s2; s3]
  | [a] => let '(s1, s2, _, _) := split3 a zero zero in [s1; s2]
  | [] => []
  end.

Definition padding (l : list ascii) : list ascii :=
  match (length l) mod 3 with
  | 1 => [equals_sign; equals_sign]
  | 2 => [equals_sign]
  | _ => []
  end.

Definition encode (l : list ascii) : list ascii :=
  map char_of (sextets l) ++ padding l.

(** Four sextets are three bytes; of three sextets the last two bits are
    dropped, of two sextets the last four. *)
Definition join (s1 s2 s3 s4 : sextet) : ascii * ascii * ascii :=
  let '(a7, a6, a5, a4, a3, a2) := s1 in
  let '(a1, a0, b7, b6, b5, b4) := s2 in
  let '(b3, b2, b1, b0, c7, c6) := s3 in
  let '(c5, c4, c3, c2, c1, c0) := s4 in
  (Ascii a0 a1 a2 a3 a4 a5 a6 a7, Ascii b0 b1 b2 b3 b4 b5 b6 b7,
   Ascii c0 c1 c2 c3 c4 c5 c6 c7).

Definition none : sextet := (false, false, false, false, false, false).

Fixpoint bytes (l : list sextet) : list ascii :=
  match l with
  | s1 :: s2 :: s3 :: s4 :: rest =>
      let '(a, b, c) := join s1 s2 s3 s4 in a :: b :: c :: bytes rest
  | [s1; s2; s3] => let '(a, b, _) := join s1 s2 s3 none in [a; b]
  | [s1; s2] => let '(a, _, _) := join s1 s2 none none in [a]
  | _ => []
  end.

(** TAB, LF, FF, CR and SPACE. *)
Definition is_ascii_whitespace (c : ascii) : bool :=
  let n := nat_of_ascii c in
  (n =? 9) || (n =? 10) || (n =? 12) || (n =? 13) || (n =? 32).

Definition is_equals (c : ascii) : bool := nat_of_ascii c =? 61.

(** Without one or two [=] at the end. *)
Definition strip_padding (data : list ascii) : list ascii :=
  match rev data with
  | c1 :: c2 :: r =>
      if is_equals c1 then if is_equals c2 then rev r else rev (c2 :: r)
      else data
  | [c1] => if is_equals c1 then [] else data
  | [] => data
  end.

(** The forgiving decoding of the HTML standard. *)
Definition decode (input : list ascii) : option (list ascii) :=
  let data := List.filter (fun c => negb (is_ascii_whitespace c)) input in
  let data := if (length data) mod 4 =? 0 then strip_padding data else data in
  if (length data) mod 4 =? 1 then None
  else bytes <$> mapM sextet_of data.

(** A string of the model is the UTF-8 text of a JavaScript string.  The
    characters up to U+00FF of such a text, one byte each, when it has no
    other character. *)
Fixpoint latin1_of_utf8 (s : list ascii) : option (list ascii) :=
  match s with
  | [] => Some []
  | Ascii b0 b1 b2 b3 b4 b5 b6 false :: rest =>
      (Ascii b0 b1 b2 b3 b4 b5 b6 false ::.) <$> latin1_of_utf8 rest
  | Ascii x true false false false false true true
      :: Ascii y0 y1 y2 y3 y4 y5 false true :: rest =>
      (Ascii y0 y1 y2 y3 y4 y5 x true ::.) <$> latin1_of_utf8 rest
  | _ => None
  end.

Fixpoint utf8_of_latin1 (l : list ascii) : list ascii :=
  match l with
  | [] => []
  | Ascii y0 y1 y2 y3 y4 y5 x true :: rest =>
      Ascii x true false false false false true true
        :: Ascii y0 y1 y2 y3 y4 y5 false true :: utf8_of_latin1 rest
  | c :: rest => c :: utf8_of_latin1 rest
  end.

(** [btoa(s)]: a DOMException when [s] has a character above U+00FF. *)
Definition btoa (s : string) : outcome string :=
  match latin1_of_utf8 (String.list_ascii_of_string s) with
  | Some l => Returns (String.string_of_list_ascii (encode l))
  | None =>
      Throws (new_error "InvalidCharacterError"
                "The string to be encoded contains characters outside of the Latin1 range.")
  end.

(** [atob(s)], [None] when it throws. *)
Definition atob (s : string) : option string :=
  (fun l => String.string_of_list_ascii (utf8_of_latin1 l))
    <$> decode (String.list_ascii_of_string s).

End Base64.


(** ** The persistence store: [src/js/storage.js] *)

Module Storage.
Import Js.

(** *** JSON text *)

(** [JSON.parse(JSON.stringify(v))] for a [v] other than [undefined]:
    properties holding [undefined] are dropped and [undefined] elements of
    arrays become [null]. *)
Fixpoint json_clean (v : value) : value :=
  match v with
  | VArr l =>
      VArr (map (fun x => match x with
                          | VUndefined => VNull
                          | _ => json_clean x
                          end) l)
  | VObj m =>
      VObj (omap (fun x => match x with
                           | VUndefined => None
                           | _ => Some (json_clean x)
                           end) m)
  | _ => v
  end.

(** A value that is a JSON document. *)
Definition is_json (v : value) : Prop := json_clean v = v.

Definition dquote : ascii := ascii_of_nat 34.
Definition backslash : ascii := ascii_of_nat 92.

Definition hex_digit (n : nat) : ascii :=
  ascii_of_nat (if (n <? 10)%nat then 48 + n else 87 + n).

(** The escape of one character inside a JSON string. *)
Definition json_escape (c : ascii) : string :=
  let n := nat_of_ascii c in
  if (n =? 34)%nat then String backslash (String dquote EmptyString)
  else if (n =? 92)%nat then String backslash (String backslash EmptyString)
  else if (n =? 8)%nat then String backslash "b"
  else if (n =? 12)%nat then String backslash "f"
  else if (n =? 10)%nat then String backslash "n"
  else if (n =? 13)%nat then String backslash "r"
  else if (n =? 9)%nat then String backslash "t"
  else if (n <? 32)%nat
  then String backslash
         ("u00" +:+ String (hex_digit (n / 16))
                      (String (hex_digit (n mod 16)) EmptyString))
  else String c EmptyString.

Fixpoint json_escape_all (s : string) : string :=
  match s with
  | EmptyString => EmptyString
  | String c rest => json_escape c +:+ json_escape_all rest
  end.

Definition json_quote (s : string) : string :=
  String dquote (json_escape_all s +:+ String dquote EmptyString).

(** The text of a document.  The members of an object are written in the
    order of the finite map, not in insertion order: only the length of
    the text is ever used. *)
Fixpoint JSON_text (v : value) : string :=
  match v with
  | VUndefined | VNull => "null"
  | VBool true => "true"
  | VBool false => "false"
  | VNum n => pretty n
  | VStr s => json_quote s
  | VArr l => "[" +:+ String.concat "," (map JSON_text l) +:+ "]"
  | VObj m =>
      "{" +:+ String.concat ","
                (map_fold (fun k x acc =>
                             (json_quote k +:+ ":" +:+ JSON_text x) :: acc)
                          [] m)
          +:+ "}"
  end.

(** [JSON.stringify(v)] for a [v] other than [undefined]. *)
Definition JSON_stringify (v : value) : string := JSON_text (json_clean v).

(** *** Numbers *)

Definition digit_of (c : ascii) : option Z :=
  let n := nat_of_ascii c in
  if ((48 <=? n) && (n <=? 57))%nat then Some (Z.of_nat n - 48) else None.

Fixpoint parse_digits (acc : Z) (s : string) : option Z :=
  match s with
  | EmptyString => Some acc
  | String c rest =>
      match digit_of c with
      | Some d => parse_digits (10 * acc + d) rest
      | None => None
      end
  end.

(** ToNumber on a string: the empty string is 0, and a string of decimal
    digits, with a minus sign or without, is the integer it spells.  For
    every other string the result is [None], that is [NaN]: the numerals of
    another form (with blanks around, a sign [+], a fraction, an exponent
    or a base prefix, and [Infinity]) are outside the integers of this
    model, and the properties below only speak of timestamps and limits
    that are numbers. *)
Definition string_to_number (s : string) : option Z :=
  match s with
  | EmptyString => Some 0
  | String c rest =>
      if (nat_of_ascii c =? 45)%nat
      then match rest with
           | EmptyString => None
           | _ => Z.opp <$> parse_digits 0 rest
           end
      else parse_digits 0 s
  end.

(** ToNumber ([None] is [NaN]). *)
Definition to_number (v : value) : option Z :=
  match v with
  | VUndefined => None
  | VNull => Some 0
  | VBool b => Some (if b then 1 else 0)
  | VNum n => Some n
  | VStr s => string_to_number s
  | VArr _ | VObj _ => string_to_number (to_js_string v)
  end.

(** [a > n] for a number [n] *)
Definition js_gt (a : value) (n : Z) : bool :=
  match to_number a with
  | Some x => x >? n
  | None => false
  end.

(** [l.slice(start)] *)
Definition slice_from (l : list value) (start : option Z) : list value :=
  let len := Z.of_nat (length l) in
  let k := match start with
           | None => 0
           | Some n => if n <? 0 then Z.max (len + n) 0 else Z.min n len
           end in
  drop (Z.to_nat k) l.

(** *** The browser *)

(** What a key of [localStorage] holds: a text that [JSON.parse] accepts,
    kept as the document it parses to, or any other text. *)
Inductive cell : Type :=
| Json (v : value)
| Raw (text : string).

(** The environment: the n-th reading of the clock, the n-th value of
    [Math.random() * 16 | 0], whether [localStorage.setItem] refuses a
    write (the name and message of what it throws), and the text of a
    date. *)
Record World : Type := mkWorld {
  clock : nat -> Z;
  random16 : nat -> Z;
  refuses : gmap string cell -> string -> cell -> option (string * string);
  toISOString : Z -> string
}.

Record Store : Type := mkStore {
  accessible : bool;            (* window.localStorage can be read *)
  cells : gmap string cell;
  writes : list (string * cell); (* accepted localStorage.setItem calls *)
  ticks : nat;                  (* readings of the clock so far *)
  draws : nat                   (* random values drawn so far *)
}.

(** The fields the constructor sets. *)
Definition HISTORY : string := "literacy_generation_history".
Definition PREFERENCES : string := "literacy_user_preferences".
Definition API_KEY : string := "literacy_api_key".
Definition CACHE : string := "literacy_image_cache".

Definition defaultPreferences : value :=
  obj [("language", VStr "zh-CN"); ("autoSave", VBool true);
       ("maxHistory", VNum 50); ("theme", VStr "auto");
       ("soundEnabled", VBool true); ("autoDownload", VBool false)].

Definition maxCacheSize : Z := 50 * 1024 * 1024.

Section Manager.
Variable W : World.

Definition Date_now : M Store Z := fun s =>
  (Returns (clock W (ticks s)),
   mkStore (accessible s) (cells s) (writes s)
           (Datatypes.S (ticks s)) (draws s)).

(** [Utils.generateUUID] of [src/js/utils.js] *)
Definition uuid_template : string := "xxxxxxxx-xxxx-4xxx-yxxx-xxxxxxxxxxxx".

Fixpoint fill_template (template : string) (n : nat) : string * nat :=
  match template with
  | EmptyString => (EmptyString, n)
  | String c rest =>
      if (nat_of_ascii c =? 120)%nat || (nat_of_ascii c =? 121)%nat
      then
        let r := random16 W n mod 16 in
        let v := if (nat_of_ascii c =? 120)%nat
                 then r else Z.lor (Z.land r 3) 8 in
        let '(out, n') := fill_template rest (Datatypes.S n) in
        (String (hex_digit (Z.to_nat v)) out, n')
      else
        let '(out, n') := fill_template rest n in
        (String c out, n')
  end.

Definition generateUUID : M Store string := fun s =>
  let '(id, n) := fill_template uuid_template (draws s) in
  (Returns id,
   mkStore (accessible s) (cells s) (writes s) (ticks s) n).

(** [getItem(key, defaultValue)] *)
Definition getItem (key : string) (defaultValue : value) : M Store value :=
  fun s =>
    if negb (accessible s) then (Returns defaultValue, s)
    else match cells s !! key with
         | Some (Json v) => (Returns v, s)
         | _ => (Returns defaultValue, s)
         end.

Definition getHistory : M Store value := getItem HISTORY (VArr []).
Definition getPreferences : M Store value := getItem PREFERENCES defaultPreferences.

(** The methods that write, over the [setItem] they call. *)
Section Writers.
Variable setItem : string -> value -> M Store bool.

Definition saveHistory_with (history : value) : M Store bool :=
  match history with
  | VArr l =>
      preferences ← getPreferences;
      stored ← lift (get_prop preferences "maxHistory");
      let maxHistory := js_or stored (field defaultPreferences "maxHistory") in
      setItem HISTORY (VArr (slice_from l (Z.opp <$> to_number maxHistory)))
  | _ => mret false
  end.

(** Whether an entry of the cache is older than [maxAge]. *)
Definition expired (now maxAge : Z) (timestamp : value) : bool :=
  match to_number timestamp with
  | Some t => now - t >? maxAge
  | None => false
  end.

(** The [forEach] of [cleanImageCache]. *)
Definition purge (now : Z) (cache : value) : outcome value :=
  let maxAge := 7 * 24 * 60 * 60 * 1000 in
  match cache with
  | VUndefined | VNull =>
      Throws (TypeError "Cannot convert undefined or null to object")
  | VObj m =>
      kept ← map_fold (fun url entry (acc : outcome (gmap string value)) =>
                         c ← acc;
                         timestamp ← get_prop entry "timestamp";
                         mret (if expired now maxAge timestamp
                               then delete url c else c))
                      (Returns m) m;
      mret (VObj kept)
  | VArr l =>
      kept ← foldr (fun entry (acc : outcome (list value)) =>
                      rest ← acc;
                      timestamp ← get_prop entry "timestamp";
                      mret ((if expired now maxAge timestamp
                             then VUndefined else entry) :: rest))
                   (Returns []) l;
      mret (VArr kept)
  | _ => Returns cache
  end.

Definition cleanImageCache_with : M Store unit :=
  cache ← getItem CACHE (VObj ∅);
  now ← Date_now;
  cache ← lift (purge now cache);
  setItem CACHE cache;;
  mret tt.

Definition cleanupOldData_with : M Store unit := fun s =>
  if negb (accessible s) then (Returns tt, s)
  else
    try_catch
      (history ← getHistory;
       len ← lift (get_prop history "length");
       (if js_gt len 20
        then match history with
             | VArr l =>
                 saveHistory_with (VArr (slice_from l (Some (-20))));; mret tt
             | VStr _ => mret tt
             | _ => throw (TypeError "history.slice is not a function")
             end
        else mret tt);;
       cleanImageCache_with)
      (fun _ => mret tt) s.

(** [handleStorageError(error)].  The object [Utils] that
    [src/js/utils.js] exports has no member [showToast]: the call after the
    cleanup throws. *)
Definition handleStorageError_with (error : value) : M Store unit :=
  name ← lift (get_prop error "name");
  if strict_equal name (VStr "QuotaExceededError")
  then cleanupOldData_with;;
       throw (TypeError "Utils.showToast is not a function")
  else mret tt.

Definition savePreferences_with (preferences : value) : M Store bool :=
  setItem PREFERENCES (VObj (spread preferences ∪ spread defaultPreferences)).

End Writers.

(** [setItem(key, data)].  Fuel is spent only when the write is refused,
    where the recovery writes again; what [handleStorageError] throws
    leaves [setItem] through its [catch] block. *)
Fixpoint setItem (fuel : nat) (key : string) (data : value) : M Store bool :=
  fun s =>
    if negb (accessible s) then (Returns false, s)
    else
      let c := match data with
               | VUndefined => Raw "undefined"
               | _ => Json (json_clean data)
               end in
      match refuses W (cells s) key c with
      | None =>
          (Returns true,
           mkStore (accessible s) (<[key := c]> (cells s))
                   (writes s ++ [(key, c)]) (ticks s) (draws s))
      | Some (name, message) =>
          match fuel with
          | O => (Pending, s)
          | Datatypes.S fuel' =>
              (handleStorageError_with (setItem fuel') (new_error name message);;
               mret false) s
          end
      end.

Definition saveHistory (fuel : nat) : value -> M Store bool :=
  saveHistory_with (setItem fuel).
Definition cleanImageCache (fuel : nat) : M Store unit :=
  cleanImageCache_with (setItem fuel).
Definition cleanupOldData (fuel : nat) : M Store unit :=
  cleanupOldData_with (setItem fuel).
Definition savePreferences (fuel : nat) : value -> M Store bool :=
  savePreferences_with (setItem fuel).

Definition clearHistory (fuel : nat) : M Store bool :=
  setItem fuel HISTORY (VArr []).

Definition addToHistory (fuel : nat) (item : value) : M Store bool :=
  if negb (truthy item) || negb (typeof_object item) then mret false
  else
    history ← getHistory;
    id ← generateUUID;
    timestamp ← Date_now;
    let newItem :=
      VObj (spread item
              ∪ list_to_map [("id", VStr id); ("timestamp", VNum timestamp)]) in
    match history with
    | VArr l =>
        let history := VArr (l ++ [newItem]) in
        preferences ← getPreferences;
        autoSave ← lift (get_prop preferences "autoSave");
        if truthy autoSave then saveHistory fuel history else mret true
    | VUndefined | VNull =>
        throw (TypeError ("Cannot read properties of " +:+ to_js_string history
                            +:+ " (reading 'push')"))
    | _ => throw (TypeError "history.push is not a function")
    end.

(** An element stored at an index, with holes when the index is past the
    end. *)
Definition array_set (l : list value) (i : nat) (x : value) : list value :=
  if (i <? length l)%nat then <[i := x]> l
  else l ++ replicate (i - length l) VUndefined ++ [x].

(** The index of an array that a property key denotes, if it is one. *)
Definition array_index (key : string) : option nat :=
  match string_to_number key with
  | Some n =>
      if (0 <=? n) && (n <? 2 ^ 32 - 1) && String.eqb (pretty n) key
      then Some (Z.to_nat n) else None
  | None => None
  end.

Definition RangeError (message : string) : value :=
  new_error "RangeError" message.

(** [cache[url] = entry] inside a class body (strict mode), for an
    [entry] that is an object.  The key [__proto__] names the accessor of
    [Object.prototype]: the assignment replaces the prototype of an
    object and does nothing to another value; no member is added.  On an
    array an index stores an element, [length] takes no object, and any
    other key is a property that the serialised array does not show.  The
    properties of a string cannot be written, and no other primitive takes
    a property. *)
Definition assign (target : value) (key : string) (x : value) : outcome value :=
  match target with
  | VUndefined | VNull =>
      Throws (TypeError ("Cannot set properties of " +:+ to_js_string target
                           +:+ " (setting '" +:+ key +:+ "')"))
  | _ =>
      if String.eqb key "__proto__" then Returns target
      else
        match target with
        | VObj m => Returns (VObj (<[key := x]> m))
        | VArr l =>
            if String.eqb key "length"
            then Throws (RangeError "Invalid array length")
            else match array_index key with
                 | Some i => Returns (VArr (array_set l i x))
                 | None => Returns target
                 end
        | VStr s =>
            let own :=
              String.eqb key "length"
              || match array_index key with
                 | Some i => (i <? String.length s)%nat
                 | None => false
                 end in
            Throws (TypeError
                      (if own
                       then "Cannot assign to read only property '" +:+ key
                              +:+ "' of string '" +:+ s +:+ "'"
                       else "Cannot create property '" +:+ key
                              +:+ "' on string '" +:+ s +:+ "'"))
        | VNum _ =>
            Throws (TypeError ("Cannot create property '" +:+ key
                                 +:+ "' on number '" +:+ to_js_string target
                                 +:+ "'"))
        | _ =>
            Throws (TypeError ("Cannot create property '" +:+ key
                                 +:+ "' on boolean '" +:+ to_js_string target
                                 +:+ "'"))
        end
  end.

Definition getCacheSize : M Store Z :=
  cache ← getItem CACHE (VObj ∅);
  mret (Z.of_nat (String.length (JSON_stringify cache))).

Definition cacheImage (fuel : nat) (url data : value) : M Store bool :=
  cache ← getItem CACHE (VObj ∅);
  size ← getCacheSize;
  (if size >? maxCacheSize then cleanImageCache fuel else mret tt);;
  now ← Date_now;
  cache ← lift (assign cache (to_js_string url)
                  (obj [("data", data); ("timestamp", VNum now)]));
  setItem fuel CACHE cache.

Definition exportAllData : M Store value :=
  now ← Date_now;
  history ← getHistory;
  preferences ← getPreferences;
  mret (obj [("version", VStr "1.0");
             ("exportDate", VStr (toISOString W now));
             ("history", history);
             ("preferences", preferences)]).

(** The local variable [result] of [importData]. *)
Record ImportResult : Type := mkImportResult {
  success : bool;
  imported_history : Z;
  imported_preferences : bool;
  errors : list string
}.

Definition result_value (r : ImportResult) : value :=
  obj [("success", VBool (success r));
       ("imported", obj [("history", VNum (imported_history r));
                         ("preferences", VBool (imported_preferences r))]);
       ("errors", VArr (map VStr (errors r)))].

Definition push_error (message : string) (r : ImportResult) : ImportResult :=
  mkImportResult (success r) (imported_history r) (imported_preferences r)
                 (errors r ++ [message]).

(** [[...v]], where [v] is written [expr] in the source. *)
Definition iterate (expr : string) (v : value) : outcome (list value) :=
  match v with
  | VArr l => Returns l
  | VStr s =>
      Returns (map (fun c => VStr (String c EmptyString))
                   (String.list_ascii_of_string s))
  | VUndefined | VNull =>
      Throws (TypeError (expr +:+ " is not iterable (cannot read property "
                           +:+ "Symbol(Symbol.iterator))"))
  | _ => Throws (TypeError (expr +:+ " is not iterable"))
  end.

(** [arr.findIndex(i => i.id === item.id)] where [item] is the element of
    [arr] at [index]: at that position both sides are the same value. *)
Fixpoint findIndex_id (arr : list value) (pos index : nat) (item : value)
  : outcome Z :=
  match arr with
  | [] => Returns (-1)
  | i :: rest =>
      a ← get_prop i "id";
      b ← get_prop item "id";
      if (pos =? index)%nat || strict_equal a b
      then Returns (Z.of_nat pos)
      else findIndex_id rest (Datatypes.S pos) index item
  end.

(** [arr.filter((item, index, arr) => arr.findIndex(...) === index)],
    from [index] on. *)
Fixpoint unique_from (arr : list value) (index : nat) (todo : list value)
  : outcome (list value) :=
  match todo with
  | [] => Returns []
  | item :: rest =>
      k ← findIndex_id arr 0 index item;
      kept ← unique_from arr (Datatypes.S index) rest;
      mret (if k =? Z.of_nat index then item :: kept else kept)
  end.

Definition importData (fuel : nat) (data : value) : M Store value :=
  with_local (mkImportResult false 0 false [])
    (try_catch
       (if negb (truthy data) || negb (typeof_object data)
        then throw (Error "Invalid data format")
        else
          (match field data "history" with
           | VArr imported =>
               existingHistory ← outer getHistory;
               existing ← lift (iterate "existingHistory" existingHistory);
               uniqueHistory ← lift (unique_from (existing ++ imported) 0
                                       (existing ++ imported));
               saved ← outer (saveHistory fuel (VArr uniqueHistory));
               if saved : bool
               then update_local (fun r =>
                      mkImportResult (success r) (Z.of_nat (length imported))
                                     (imported_preferences r) (errors r))
               else update_local (push_error "Failed to import history")
           | _ => mret tt
           end);;
          (if truthy (field data "preferences")
              && typeof_object (field data "preferences")
           then
             saved ← outer (savePreferences fuel (field data "preferences"));
             if saved : bool
             then update_local (fun r =>
                    mkImportResult (success r) (imported_history r) true
                                   (errors r))
             else update_local (push_error "Failed to import preferences")
           else mret tt);;
          update_local (fun r =>
            mkImportResult (match errors r with [] => true | _ => false end)
                           (imported_history r) (imported_preferences r)
                           (errors r)))
       (fun error =>
          message ← lift (get_prop error "message");
          update_local
            (push_error ("Import error: " +:+ to_js_string message)));;
     result ← get_local;
     mret (result_value result)).

End Manager.

(** *** What the properties below speak about *)

(** What [getItem] reads. *)
Definition read (s : Store) (key : string) (defaultValue : value) : value :=
  if accessible s
  then match cells s !! key with
       | Some (Json v) => v
       | _ => defaultValue
       end
  else defaultValue.

(** The store after one reading of the clock, after random draws, after
    an accepted write of [doc], and with another text under a key. *)
Definition tick (s : Store) : Store :=
  mkStore (accessible s) (cells s) (writes s)
          (Datatypes.S (ticks s)) (draws s).

Definition drawn (s : Store) (n : nat) : Store :=
  mkStore (accessible s) (cells s) (writes s) (ticks s) n.

Definition stored (s : Store) (key : string) (doc : value) : Store :=
  mkStore (accessible s) (<[key := Json (json_clean doc)]> (cells s))
          (writes s ++ [(key, Json (json_clean doc))]) (ticks s) (draws s).

Definition with_cell (s : Store) (key : string) (c : cell) : Store :=
  mkStore (accessible s) (<[key := c]> (cells s)) (writes s)
          (ticks s) (draws s).

(** [localStorage] takes the write of [doc] under [key]. *)
Definition accepts (W : World) (s : Store) (key : string) (doc : value) : Prop :=
  refuses W (cells s) key (Json (json_clean doc)) = None.

(** What becomes of a property and of an array element in a stored
    document. *)
Definition clean_member (x : value) : value :=
  match x with VUndefined => VUndefined | _ => json_clean x end.

Definition clean_element (x : value) : value :=
  match x with VUndefined => VNull | _ => json_clean x end.

(** The maximum [saveHistory] works with. *)
Definition configured_max (prefs : value) : value :=
  js_or (field prefs "maxHistory") (field defaultPreferences "maxHistory").

(** The entry [addToHistory] builds. *)
Definition new_entry (item : value) (id : string) (timestamp : Z) : value :=
  VObj (spread item
          ∪ list_to_map [("id", VStr id); ("timestamp", VNum timestamp)]).

(** Entries at different positions have different identifiers. *)
Definition ids_distinct (l : list value) : Prop :=
  forall i j x y,
    i <> j -> l !! i = Some x -> l !! j = Some y ->
    strict_equal (field x "id") (field y "id") = false.

Definition export_document (date : string) (history preferences : value)
  : value :=
  obj [("version", VStr "1.0"); ("exportDate", VStr date);
       ("history", history); ("preferences", preferences)].

(** Seven days and one day, in milliseconds. *)
Definition week : Z := 7 * 24 * 60 * 60 * 1000.
Definition day : Z := 24 * 60 * 60 * 1000.

(** Every entry of the cache is an object or another value with
    properties. *)
Definition well_formed_cache (m : gmap string value) : Prop :=
  forall k e, m !! k = Some e -> nullish e = false.

(** Every entry of the cache has a number as its timestamp, as the
    entries have that [cacheImage] writes. *)
Definition dated_cache (m : gmap string value) : Prop :=
  forall k e, m !! k = Some e -> exists t, field e "timestamp" = VNum t.

(** An entry that a purge at time [now] keeps. *)
Definition survivor (now : Z) (e : value) : option value :=
  if expired now week (field e "timestamp") then None else Some e.

Definition cache_entry (data : value) (now : Z) : value :=
  obj [("data", data); ("timestamp", VNum now)].

(** *** Some browsers and stores *)

(** The clock stands at [now] and every write is accepted. *)
Definition world_at (now : Z) : World :=
  mkWorld (fun _ => now) (fun _ => 0) (fun _ _ _ => None)
          (fun _ => "1970-01-01T00:00:00.000Z").

Definition quiet_world : World := world_at 0.

Definition empty_store : Store := mkStore true ∅ [] 0 0.

Definition store_with (entries : list (string * value)) : Store :=
  mkStore true (list_to_map (map (fun '(k, v) => (k, Json v)) entries))
          [] 0 0.

(** [count] history entries with the identifiers [from], [from + 1], ... *)
Definition numbered (from count : nat) : list value :=
  map (fun i => obj [("id", VStr (pretty i)); ("title", VStr "poster")])
      (seq from count).

(** [s], doubled [n] times. *)
Fixpoint doubled (n : nat) (s : string) : string :=
  match n with
  | O => s
  | Datatypes.S n' => doubled n' (s +:+ s)
  end.

(** A payload of 64 MiB. *)
Definition big_payload : string := doubled 26 "x".

(** *** The rest of the manager *)

Definition is_string (v : value) : bool :=
  match v with VStr _ => true | _ => false end.

(** [removeItem(key)] *)
Definition removeItem (key : string) : M Store bool := fun s =>
  if negb (accessible s) then (Returns false, s)
  else (Returns true,
        mkStore (accessible s) (delete key (cells s)) (writes s)
                (ticks s) (draws s)).

(** [clearAll()] *)
Definition clearAll : M Store bool := fun s =>
  if negb (accessible s) then (Returns false, s)
  else (Returns true,
        mkStore (accessible s)
                (delete CACHE
                   (delete API_KEY (delete PREFERENCES (delete HISTORY (cells s)))))
                (writes s) (ticks s) (draws s)).

Definition removeApiKey : M Store bool := removeItem API_KEY.

(** [getApiKey()] *)
Definition getApiKey : M Store value :=
  obfuscatedKey ← getItem API_KEY VNull;
  if negb (truthy obfuscatedKey) then mret VNull
  else mret (match Base64.atob (to_js_string obfuscatedKey) with
             | Some apiKey => VStr apiKey
             | None => VNull
             end).

(** [history.filter(item => item.id !== itemId)] *)
Fixpoint filter_other_ids (itemId : value) (l : list value)
  : outcome (list value) :=
  match l with
  | [] => Returns []
  | item :: rest =>
      id ← get_prop item "id";
      kept ← filter_other_ids itemId rest;
      mret (if negb (strict_equal id itemId) then item :: kept else kept)
  end.

(** What a computed member access [target[key]] finds. *)
Inductive member : Type :=
| Own (v : value)
| Inherited
| Missing.

(** The index that a property key denotes, if it is one. *)
Definition canonical_index (key : string) : option nat :=
  match string_to_number key with
  | Some n =>
      if (0 <=? n) && String.eqb (pretty n) key then Some (Z.to_nat n) else None
  | None => None
  end.

(** [delete target[key]] *)
Definition delete_member (target : value) (key : string) : value :=
  match target with
  | VObj m => VObj (delete key m)
  | VArr l =>
      match canonical_index key with
      | Some i => VArr (<[i := VUndefined]> l)
      | None => target
      end
  | _ => target
  end.

(** Thirty days, in milliseconds. *)
Definition month : Z := 30 * 24 * 60 * 60 * 1000.

(** *** The shape of an identifier *)

Definition is_hex_digit (c : ascii) : bool :=
  let n := nat_of_ascii c in
  ((48 <=? n) && (n <=? 57) || (97 <=? n) && (n <=? 102))%nat.

(** What may stand for a character of the template: a hexadecimal digit for
    [x], one of [8], [9], [a], [b] for [y], and the character itself
    otherwise. *)
Definition slot_ok (t c : ascii) : bool :=
  if (nat_of_ascii t =? 120)%nat then is_hex_digit c
  else if (nat_of_ascii t =? 121)%nat
  then (nat_of_ascii c =? 56)%nat || (nat_of_ascii c =? 57)%nat
       || (nat_of_ascii c =? 97)%nat || (nat_of_ascii c =? 98)%nat
  else Ascii.eqb c t.

Fixpoint fits (template id : string) : bool :=
  match template, id with
  | EmptyString, EmptyString => true
  | String t template', String c id' => slot_ok t c && fits template' id'
  | _, _ => false
  end.

(** The number of [x] and [y] in a template. *)
Fixpoint slots (template : string) : nat :=
  match template with
  | EmptyString => 0
  | String t template' =>
      (if (nat_of_ascii t =? 120)%nat || (nat_of_ascii t =? 121)%nat
       then 1 else 0) + slots template'
  end.

Section Rest.
Variable W : World.

(** Whether a value inherits a member of that name from its prototypes:
    [toString], [constructor] and the like.  What is inherited is a function
    or a prototype object: it is truthy and has no [timestamp] and no
    [data]. *)
Variable inherits : value -> string -> bool.

Definition lookup_member (target : value) (key : string) : outcome member :=
  match target with
  | VUndefined | VNull =>
      Throws (TypeError ("Cannot read properties of " +:+ to_js_string target
                           +:+ " (reading '" +:+ key +:+ "')"))
  | _ =>
      let own :=
        match target with
        | VObj m => m !! key
        | VArr l =>
            if String.eqb key "length" then Some (VNum (Z.of_nat (length l)))
            else canonical_index key ≫= (l !!.)
        | VStr s =>
            if String.eqb key "length"
            then Some (VNum (Z.of_nat (String.length s)))
            else i ← canonical_index key;
                 c ← String.get i s;
                 Some (VStr (String c EmptyString))
        | _ => None
        end in
      Returns (match own with
               | Some v => Own v
               | None => if inherits target key then Inherited else Missing
               end)
  end.

(** [saveApiKey(apiKey)] *)
Definition saveApiKey (fuel : nat) (apiKey : value) : M Store bool :=
  if negb (truthy apiKey) || negb (is_string apiKey) then mret false
  else
    obfuscatedKey ← lift (Base64.btoa (to_js_string apiKey));
    setItem W fuel API_KEY (VStr obfuscatedKey).

(** [removeFromHistory(itemId)] *)
Definition removeFromHistory (fuel : nat) (itemId : value) : M Store bool :=
  history ← getHistory;
  match history with
  | VArr l =>
      filteredHistory ← lift (filter_other_ids itemId l);
      if (length filteredHistory =? length l)%nat then mret false
      else saveHistory W fuel (VArr filteredHistory)
  | VUndefined | VNull =>
      throw (TypeError ("Cannot read properties of " +:+ to_js_string history
                          +:+ " (reading 'filter')"))
  | _ => throw (TypeError "history.filter is not a function")
  end.

(** [getCachedImage(url)] *)
Definition getCachedImage (fuel : nat) (url : value) : M Store value :=
  cache ← getItem CACHE (VObj ∅);
  cachedItem ← lift (lookup_member cache (to_js_string url));
  match cachedItem with
  | Missing => mret VNull
  | Inherited => Date_now W;; mret VUndefined
  | Own item =>
      if negb (truthy item) then mret VNull
      else
        now ← Date_now W;
        timestamp ← lift (get_prop item "timestamp");
        if expired now month timestamp
        then setItem W fuel CACHE (delete_member cache (to_js_string url));;
             mret VNull
        else lift (get_prop item "data")
  end.

(** [clearImageCache()] *)
Definition clearImageCache (fuel : nat) : M Store bool :=
  setItem W fuel CACHE (VObj ∅).

(** [isAvailable()] *)
Definition isAvailable : M Store bool := fun s =>
  if negb (accessible s) then (Returns false, s)
  else match refuses W (cells s) "__test_storage__" (Raw "test") with
       | None =>
           (Returns true,
            mkStore (accessible s) (delete "__test_storage__" (cells s))
                    (writes s ++ [("__test_storage__", Raw "test")]) (ticks s) (draws s))
       | Some _ => (Returns false, s)
       end.

(** [initialize()] *)
Definition initialize (fuel : nat) : M Store bool :=
  available ← isAvailable;
  if negb available then mret false
  else
    preferences ← getItem PREFERENCES VNull;
    (if negb (truthy preferences)
     then savePreferences W fuel defaultPreferences;; mret tt
     else mret tt);;
    mret true.

End Rest.

(** *** More browsers *)

(** The members of [Object.prototype]. *)
Definition object_prototype (_ : value) (key : string) : bool :=
  bool_decide (key ∈ ["constructor"; "hasOwnProperty"; "isPrototypeOf";
                      "propertyIsEnumerable"; "toLocaleString"; "toString";
                      "valueOf"; "__proto__"; "__defineGetter__";
                      "__defineSetter__"; "__lookupGetter__";
                      "__lookupSetter__"]).

(** Every write is refused, for a reason other than the quota. *)
Definition locked_world : World :=
  mkWorld (fun _ => 0) (fun _ => 0)
          (fun _ _ _ => Some ("SecurityError", "The operation is insecure."))
          (fun _ => "1970-01-01T00:00:00.000Z").

End Storage.

(** * Properties *)

(** ** Values and monadic code *)

Module JsProofs.
Import Js.

Section Judgement.
Context {S : Type} (R : S -> S -> Prop) `{!Reflexive R, !Transitive R}.

(** The rules of [ensures], one per construct of the monad. *)
Lemma ensures_ret {A} E (Q : A -> Prop) (a : A) : Q a -> ensures R E Q (mret a).
Proof. intros Ha s; repeat split; [reflexivity | discriminate | intros a' [= <-]; exact Ha]. Qed.

Lemma ensures_throw {A} (E : value -> Prop) (Q : A -> Prop) e :
  E e -> ensures R E Q (throw e).
Proof. intros He s; repeat split; [reflexivity | intros e' [= <-]; exact He | discriminate]. Qed.

Lemma ensures_lift {A} (E : value -> Prop) (Q : A -> Prop) (c : outcome A) :
  (forall e, c = Throws e -> E e) -> (forall a, c = Returns a -> Q a) ->
  ensures R E Q (lift c).
Proof. intros Hc Hq s; repeat split; [reflexivity | exact Hc | exact Hq]. Qed.

Lemma ensures_bind {A B} E (P : A -> Prop) (Q : B -> Prop) (m : M S A) (f : A -> M S B) :
  ensures R E P m -> (forall a, P a -> ensures R E Q (f a)) -> ensures R E Q (m ≫= f).
Proof.
  intros Hm Hf s. destruct (Hm s) as (HR & HE & HP).
  unfold mbind, M_bind. destruct (m s) as [[a|e|] s1]; simpl in *.
  - destruct (Hf a (HP a eq_refl) s1) as (HR' & HE' & HQ').
    repeat split; [etransitivity; eassumption | exact HE' | exact HQ'].
  - repeat split; [exact HR | intros e' [= <-]; apply HE; reflexivity | discriminate].
  - repeat split; [exact HR | discriminate | discriminate].
Qed.

Lemma ensures_try_catch {A} E E' (Q : A -> Prop) (b : M S A) h :
  ensures R E' Q b -> (forall e, E' e -> ensures R E Q (h e)) ->
  ensures R E Q (try_catch b h).
Proof.
  intros Hb Hh s. destruct (Hb s) as (HR & HE & HQ).
  unfold try_catch. destruct (b s) as [[a|e|] s1]; simpl in *.
  - repeat split; [exact HR | discriminate | exact HQ].
  - destruct (Hh e (HE e eq_refl) s1) as (HR' & HE' & HQ').
    repeat split; [etransitivity; eassumption | exact HE' | exact HQ'].
  - repeat split; [exact HR | discriminate | discriminate].
Qed.

Lemma ensures_weaken {A} (E E' : value -> Prop) (Q Q' : A -> Prop) (m : M S A) :
  (forall e, E e -> E' e) -> (forall a, Q a -> Q' a) ->
  ensures R E Q m -> ensures R E' Q' m.
Proof. intros HE HQ Hm s. destruct (Hm s) as (? & ? & ?); repeat split; auto. Qed.

End Judgement.

(** Running a bind whose first part is pure, or runs in the outer state. *)
Lemma bind_lift_eq {S A B} (c : outcome A) (f : A -> M S B) x :
  (lift c ≫= f) x
  = match c with
    | Returns a => f a x
    | Throws e => (Throws e, x)
    | Pending => (Pending, x)
    end.
Proof. unfold mbind, M_bind, lift. destruct c; reflexivity. Qed.

Lemma bind_outer_eq {S L A B} (m : M S A) (f : A -> M (S * L) B) s l :
  (outer m ≫= f) (s, l)
  = match m s with
    | (Returns a, s') => f a (s', l)
    | (Throws e, s') => (Throws e, (s', l))
    | (Pending, s') => (Pending, (s', l))
    end.
Proof.
  unfold mbind, M_bind, outer. destruct (m s) as [[a|e|] s']; reflexivity.
Qed.

(** *** Structural equality *)

(** The parts of a value are less deep than the value. *)
Lemma depth_elem x l : x ∈ l -> (depth x < depth (VArr l))%nat.
Proof.
  simpl. induction 1 as [x l|x y l _ IH]; simpl; lia.
Qed.

Lemma depth_lookup (m : gmap string value) k x :
  m !! k = Some x -> (depth x < depth (VObj m))%nat.
Proof.
  simpl. intros Hk. apply Nat.lt_succ_r.
  revert Hk. apply (map_fold_weak_ind
    (fun (acc : nat) (m' : gmap string value) => m' !! k = Some x -> (depth x <= acc)%nat)).
  - rewrite lookup_empty. discriminate.
  - intros i y m' r Hi IH Hl.
    destruct (decide (i = k)) as [->|Hne].
    + rewrite lookup_insert_eq in Hl. injection Hl as ->. lia.
    + rewrite lookup_insert_ne in Hl by exact Hne. specialize (IH Hl). lia.
Qed.

(** Induction on the depth of a value. *)
Lemma value_depth_ind (P : value -> Prop) :
  (forall v, (forall w, (depth w < depth v)%nat -> P w) -> P v) -> forall v, P v.
Proof.
  intros H v. remember (depth v) as n eqn:Hn. revert v Hn.
  induction n as [n IH] using lt_wf_ind. intros v ->.
  apply H. intros w Hw. exact (IH _ Hw w eq_refl).
Qed.

Lemma strict_equal_refl v :
  match v with VArr _ | VObj _ => True | _ => strict_equal v v = true end.
Proof.
  destruct v; simpl; auto using Z.eqb_refl, String.eqb_refl, eqb_reflx.
Qed.

(** A key of the task map is found under itself. *)
Lemma same_value_refl v : same_value v v = true.
Proof.
  induction v as [v IH] using value_depth_ind.
  destruct v as [| |b|n|s|l|m];
    [reflexivity | reflexivity | apply eqb_reflx | apply Z.eqb_refl
    | apply String.eqb_refl | |].
  - assert (Hl : forall x, x ∈ l -> same_value x x = true)
      by (intros x Hx; apply IH, depth_elem, Hx).
    clear IH. simpl. induction l as [|x l IHl]; [reflexivity|].
    rewrite Hl by left. simpl. apply IHl. intros y Hy. apply Hl. right. exact Hy.
  - assert (Hm : forall k x, m !! k = Some x -> same_value x x = true)
      by (intros k x Hx; eapply IH, depth_lookup, Hx).
    clear IH. simpl. rewrite Nat.eqb_refl. simpl.
    generalize (fun k x (H : m !! k = Some x) => H).
    apply (map_fold_weak_ind
      (fun (acc : bool) (m' : gmap string value) =>
         (forall k x, m' !! k = Some x -> m !! k = Some x) -> acc = true)).
    + reflexivity.
    + intros i x m' r Hi IH Hsub.
      rewrite IH.
      * simpl. rewrite (Hsub i x) by apply lookup_insert_eq.
        eapply Hm, Hsub, lookup_insert_eq.
      * intros k y Hk. apply Hsub. rewrite lookup_insert_ne; [exact Hk|].
        intros ->. congruence.
Qed.

(** Reading a property of a value that has properties. *)
Lemma get_prop_field_eq v k : nullish v = false -> get_prop v k = Returns (field v k).
Proof.
  intros Hv. unfold field.
  destruct v; try discriminate Hv; simpl; try reflexivity;
    destruct (String.eqb k "length"); reflexivity.
Qed.

(** Strict equality with a string. *)
Lemma strict_equal_string v x : strict_equal v (VStr x) = true -> v = VStr x.
Proof.
  destruct v; simpl; try discriminate. intros H. apply String.eqb_eq in H.
  congruence.
Qed.

End JsProofs.

(** ** The image generator *)

Module ApiProofs.
Import Js JsProofs Api.

Section ApiFrames.
Context {U : Type} (W : World).
Abbreviation St := (State U).
#[local] Abbreviation same_tasks := (@Api.same_tasks U).
#[local] Abbreviation same_map := (@Api.same_map U).
#[local] Abbreviation fires := (@Api.fires U).
#[local] Abbreviation quiet_callback := (@Api.quiet_callback U).
#[local] Abbreviation polite := (@Api.polite U).
#[local] Abbreviation polite_opt := (@Api.polite_opt U).
#[local] Abbreviation late := (@Api.late U).
#[local] Abbreviation try_post := (@Api.try_post U).

Global Instance same_tasks_refl : Reflexive same_tasks.
Proof. intros s; split; reflexivity. Qed.
Global Instance same_tasks_trans : Transitive same_tasks.
Proof. intros a b c [H1 H2] [H3 H4]; split; congruence. Qed.

Section Thrown.
Context (P : Prop).

(** What the primitives throw is never [null] or [undefined]. *)
Lemma get_prop_throws v k e : get_prop v k = Throws e -> thrown_if P e.
Proof. destruct v; simpl; try discriminate; try (case String.eqb; discriminate);
  intros [= <-] _; reflexivity. Qed.

Lemma get_index_throws v k e : get_index v k = Throws e -> thrown_if P e.
Proof. destruct v; simpl; try discriminate; intros [= <-] _; reflexivity. Qed.

Lemma includes_throws v k e : includes v k = Throws e -> thrown_if P e.
Proof. destruct v; simpl; try discriminate; intros [= <-] _; reflexivity. Qed.

Lemma handleApiError_throws st d e : handleApiError st d = Throws e -> thrown_if P e.
Proof.
  unfold handleApiError, mbind, outcome_bind.
  destruct (get_prop d "msg") eqn:H; try discriminate.
  intros [= <-]. eapply get_prop_throws; eauto.
Qed.

Lemma handleApiError_returns st d e : handleApiError st d = Returns e -> thrown_if P e.
Proof.
  unfold handleApiError, mbind, outcome_bind.
  destruct (get_prop d "msg") eqn:H; try discriminate.
  intros [= <-] _. reflexivity.
Qed.

(** The requests and the callbacks leave the task map and the clock alone. *)
Lemma fetch_ensures r : ensures same_tasks (thrown_if P) anything (fetch W r).
Proof.
  intros s. unfold fetch. destruct (server W _ r) as [n m|st [d|m]]; simpl;
    (repeat split; try discriminate; intros e [= <-] _; reflexivity).
Qed.

Lemma call_ensures f arg :
  (P -> polite f) -> ensures same_tasks (thrown_if P) anything (call f arg).
Proof.
  intros Hf s. unfold call.
  destruct (f arg (user s)) as [[e|] u] eqn:Hfa; simpl in *.
  - repeat split; try discriminate. intros e' [= <-] HP.
    apply (Hf HP arg (user s)). rewrite Hfa. reflexivity.
  - repeat split; discriminate.
Qed.

Lemma notify_ensures o ev :
  (P -> polite_opt o) -> ensures same_tasks (thrown_if P) anything (notify o ev).
Proof.
  intros Ho. destruct o as [f|]; simpl.
  - apply call_ensures. intros HP. apply (Ho HP). reflexivity.
  - apply ensures_ret; [apply _ | exact I].
Qed.

Lemma lift_get_prop_ensures {S} (R : S -> S -> Prop) `{!Reflexive R} v k :
  ensures R (thrown_if P) anything (lift (get_prop v k)).
Proof. apply ensures_lift; [apply _ | apply get_prop_throws | intros; exact I]. Qed.

Lemma createTask_ensures a p o :
  ensures same_tasks (thrown_if P)
    (fun data => truthy (field (field data "data") "taskId") = true)
    (createTask W a p o).
Proof.
  unfold createTask.
  eapply ensures_try_catch with (E' := thrown_if P); try apply _.
  - eapply ensures_bind; try apply _; [apply fetch_ensures|].
    intros [st d] _. destruct (negb (response_ok st)).
    + eapply ensures_bind with (P := thrown_if P); try apply _.
      * apply ensures_lift; [apply _ | apply handleApiError_throws | apply handleApiError_returns].
      * intros e He. apply ensures_throw; [apply _ | exact He].
    + eapply ensures_bind with (P := fun x => get_prop d "data" = Returns x); try apply _.
      * apply ensures_lift; [apply _ | apply get_prop_throws | auto].
      * intros x Hx.
        destruct (negb (truthy x) || negb (truthy (field x "taskId"))) eqn:Hc.
        -- apply ensures_throw; [apply _ | intros _; reflexivity].
        -- apply ensures_ret; [apply _ |].
           apply orb_false_elim in Hc as [_ Hc]. apply negb_false_iff in Hc.
           unfold field at 2. rewrite Hx. exact Hc.
  - intros e He.
    eapply ensures_bind with (P := anything); try apply _.
    + apply lift_get_prop_ensures; apply _.
    + intros name _. destruct (strict_equal name (VStr "TypeError")).
      * eapply ensures_bind with (P := anything); try apply _.
        -- apply ensures_lift; [apply _ | apply includes_throws | intros; exact I].
        -- intros [|] _; apply ensures_throw; try apply _;
             [intros _; reflexivity | exact He].
      * apply ensures_throw; [apply _ | exact He].
Qed.

(** The primitives return or throw. *)
Lemma get_prop_settles v k : get_prop v k <> Pending.
Proof. destruct v; simpl; try discriminate; case String.eqb; discriminate. Qed.

Lemma handleApiError_settles st d : handleApiError st d <> Pending.
Proof.
  unfold handleApiError, mbind, outcome_bind.
  pose proof (get_prop_settles d "msg").
  destruct (get_prop d "msg"); try discriminate. contradiction.
Qed.

(** One status query: the request is logged, and the outcome is the answer
    of the server when that is a successful response. *)
Lemma queryTaskStatus_cases taskId (s : St) :
  exists r,
    queryTaskStatus W taskId s
    = (r, mkState (activeTasks s) (sent s ++ [queryTaskStatus_request taskId])
                  (ticks s) (waits s) (updates s) (user s))
    /\ match reply W taskId (length (sent s)) with
       | FetchResponds status (inl result) =>
           if response_ok status then r = Returns result
           else exists e, r = Throws e
       | _ => exists e, r = Throws e
       end.
Proof.
  unfold queryTaskStatus, try_catch, mbind, M_bind, fetch, reply.
  destruct (server W _ _) as [n m|status [result|m]]; simpl; eauto.
  destruct (response_ok status); simpl; eauto.
  unfold lift, throw. pose proof (handleApiError_settles status result).
  destruct (handleApiError status result); simpl; eauto. contradiction.
Qed.

(** One turn of the loop, by what the poll observes. *)
Lemma pollIteration_cases taskId onUpdate start last (s : St) :
  exists r s1,
    pollIteration W taskId onUpdate start last s = (r, s1)
    /\ sent s1 = sent s ++ [queryTaskStatus_request taskId]
    /\ activeTasks s1 = activeTasks s
    /\ match observation (reply W taskId (length (sent s))) with
       | None =>
           (exists e, r = Throws e) /\ updates s1 = updates s
           /\ ticks s1 = ticks s /\ waits s1 = waits s /\ user s1 = user s
       | Some (result, data, cur) =>
           let fire := fires onUpdate cur last in
           let cb := match onUpdate with
                     | Some f => if fire then f data (user s) else (None, user s)
                     | None => (None, user s)
                     end in
           updates s1 = updates s ++ (if fire then [data] else [])
           /\ user s1 = cb.2
           /\ match cb.1 with
              | Some e => r = Throws e /\ ticks s1 = ticks s /\ waits s1 = waits s
              | None =>
                  if strict_equal cur (VStr "success")
                  then r = Returns (inl result)
                       /\ ticks s1 = ticks s /\ waits s1 = waits s
                  else if strict_equal cur (VStr "fail")
                  then r = Throws (Error ("Task failed: "
                             +:+ to_js_string (js_or (field data "failMsg")
                                                     (VStr "Unknown error"))))
                       /\ ticks s1 = ticks s /\ waits s1 = waits s
                  else ticks s1 = Datatypes.S (ticks s)
                       /\ if clock W (ticks s) - start >? maxPollingTime
                          then r = Throws (Error "Task polling timeout")
                               /\ waits s1 = waits s
                          else r = Returns (inr (if fire then cur else last))
                               /\ waits s1 = waits s ++ [pollingInterval]
              end
       end.
Proof.
  destruct (queryTaskStatus_cases taskId s) as (r0 & Hq & Hr0).
  unfold pollIteration, try_catch. unfold mbind at 1, M_bind at 1. rewrite Hq.
  unfold observation.
  destruct (reply W taskId (length (sent s))) as [n m|status [result|m]].
  1,3: destruct Hr0 as [e ->]; simpl; eauto 20.
  destruct (response_ok status); [subst r0 | destruct Hr0 as [e ->]; simpl; eauto 20].
  unfold mbind at 1, M_bind at 1, lift at 1.
  pose proof (get_prop_settles result "data").
  destruct (get_prop result "data") as [data|e|]; [| simpl; eauto 20 | contradiction].
  unfold mbind at 1, M_bind at 1, lift at 1.
  pose proof (get_prop_settles data "state").
  destruct (get_prop data "state") as [cur|e|]; [| simpl; eauto 20 | contradiction].
  unfold fires.
  destruct onUpdate as [f|].
  - destruct (strict_equal cur last) eqn:Hcl; simpl negb; cbv iota.
    + unfold mbind, M_bind, mret, M_ret, throw, Date_now, sleep, modify. simpl.
      destruct (strict_equal cur (VStr "success")); simpl.
      { do 2 eexists. split; [reflexivity|]. simpl. rewrite app_nil_r. auto 10. }
      destruct (strict_equal cur (VStr "fail")); simpl.
      { do 2 eexists. split; [reflexivity|]. simpl. rewrite app_nil_r. auto 10. }
      destruct (clock W (ticks s) - start >? maxPollingTime); simpl.
      { do 2 eexists. split; [reflexivity|]. simpl. rewrite app_nil_r. auto 10. }
      { do 2 eexists. split; [reflexivity|]. simpl. rewrite app_nil_r. auto 10. }
    + unfold mbind, M_bind, mret, M_ret, throw, Date_now, sleep, modify, call. simpl.
      destruct (f data (user s)) as [[e|] u]; simpl.
      { do 2 eexists. split; [reflexivity|]. simpl. auto 10. }
      destruct (strict_equal cur (VStr "success")); simpl.
      { do 2 eexists. split; [reflexivity|]. simpl. auto 10. }
      destruct (strict_equal cur (VStr "fail")); simpl.
      { do 2 eexists. split; [reflexivity|]. simpl. auto 10. }
      destruct (clock W (ticks s) - start >? maxPollingTime); simpl.
      { do 2 eexists. split; [reflexivity|]. simpl. auto 10. }
      { do 2 eexists. split; [reflexivity|]. simpl. auto 10. }
  - unfold mbind, M_bind, mret, M_ret, throw, Date_now, sleep, modify. simpl.
    destruct (strict_equal cur (VStr "success")); simpl.
    { do 2 eexists. split; [reflexivity|]. simpl. rewrite app_nil_r. auto 10. }
    destruct (strict_equal cur (VStr "fail")); simpl.
    { do 2 eexists. split; [reflexivity|]. simpl. rewrite app_nil_r. auto 10. }
    destruct (clock W (ticks s) - start >? maxPollingTime); simpl.
    { do 2 eexists. split; [reflexivity|]. simpl. rewrite app_nil_r. auto 10. }
    { do 2 eexists. split; [reflexivity|]. simpl. rewrite app_nil_r. auto 10. }
Qed.

(** The loop with one more unit of fuel. *)
Lemma pollLoop_S fuel taskId onUpdate start last (s : St) :
  pollLoop W (Datatypes.S fuel) taskId onUpdate start last s
  = match pollIteration W taskId onUpdate start last s with
    | (Returns (inl result), s1) => (Returns result, s1)
    | (Returns (inr last1), s1) => pollLoop W fuel taskId onUpdate start last1 s1
    | (Throws e, s1) => (Throws e, s1)
    | (Pending, s1) => (Pending, s1)
    end.
Proof.
  simpl. unfold mbind, M_bind.
  destruct (pollIteration W taskId onUpdate start last s) as [[[?|?]|?|] ?];
    reflexivity.
Qed.

(** *** The polling loop *)

(** [n] turns over non-terminal answers within the time limit: [n] queries,
    [n] waits, [n] readings of the clock, and the loop goes on. *)
Lemma pollLoop_quiet taskId onUpdate start n :
  quiet_callback onUpdate ->
  forall (s : St) last fuel,
    (forall k, (k < n)%nat -> nonterminal (reply W taskId (length (sent s) + k))) ->
    (forall k, (k < n)%nat -> clock W (ticks s + k) - start <= maxPollingTime) ->
    exists s1 last1,
      pollLoop W (n + fuel) taskId onUpdate start last s
      = pollLoop W fuel taskId onUpdate start last1 s1
      /\ sent s1 = sent s ++ replicate n (queryTaskStatus_request taskId)
      /\ ticks s1 = (ticks s + n)%nat
      /\ waits s1 = waits s ++ replicate n pollingInterval
      /\ activeTasks s1 = activeTasks s.
Proof.
  intros Hq. induction n as [|n IH]; intros s last fuel Hobs Hclock.
  - exists s, last. simpl. rewrite !app_nil_r, Nat.add_0_r. auto.
  - destruct (pollIteration_cases taskId onUpdate start last s)
      as (r & s1 & Hit & Hsent & Htasks & Hcase).
    destruct (Hobs 0%nat ltac:(lia)) as (result & data & cur & Ho & Hs & Hf).
    rewrite Nat.add_0_r in Ho. rewrite Ho in Hcase. cbv zeta in Hcase.
    destruct Hcase as (Hupd & Huser & Hcase).
    assert (Hcb : (match onUpdate with
                   | Some f => if fires onUpdate cur last then f data (user s)
                               else (None, user s)
                   | None => (None, user s)
                   end).1 = None).
    { destruct onUpdate as [f|]; [|reflexivity].
      destruct (fires _ _ _); [apply (Hq f eq_refl) | reflexivity]. }
    rewrite Hcb, Hs, Hf in Hcase. destruct Hcase as (Hticks & Hcase).
    specialize (Hclock 0%nat ltac:(lia)) as Hc0. rewrite Nat.add_0_r in Hc0.
    destruct (clock W (ticks s) - start >? maxPollingTime) eqn:Hgt;
      [apply Z.gtb_lt in Hgt; lia|].
    destruct Hcase as (-> & Hwaits).
    destruct (IH s1 (if fires onUpdate cur last then cur else last) fuel)
      as (s2 & last2 & Heq & Hsent2 & Hticks2 & Hwaits2 & Htasks2).
    { intros k Hk. rewrite Hsent, length_app. simpl.
      replace (length (sent s) + 1 + k)%nat with (length (sent s) + Datatypes.S k)%nat by lia.
      apply Hobs. lia. }
    { intros k Hk. rewrite Hticks.
      replace (Datatypes.S (ticks s) + k)%nat with (ticks s + Datatypes.S k)%nat by lia.
      apply Hclock. lia. }
    exists s2, last2. split; [|split; [|split; [|split]]].
    + change (Datatypes.S n + fuel)%nat with (Datatypes.S (n + fuel)).
      rewrite pollLoop_S, Hit. exact Heq.
    + rewrite Hsent2, Hsent, <- app_assoc. reflexivity.
    + lia.
    + rewrite Hwaits2, Hwaits, <- app_assoc. reflexivity.
    + congruence.
Qed.

Lemma pollTaskUntilComplete_unfold fuel taskId onUpdate (s : St) :
  pollTaskUntilComplete W fuel taskId onUpdate s
  = pollLoop W fuel taskId onUpdate (clock W (ticks s)) VNull
      (mkState (activeTasks s) (sent s) (Datatypes.S (ticks s)) (waits s)
               (updates s) (user s)).
Proof. reflexivity. Qed.

(** Claim C4, for a ceiling that is found passed after a poll that observed
    a state other than [success] and [fail].  Suppose the first [n + 1]
    status queries are answered with states other than [success] and
    [fail], the clock readings taken after the first [n] of them are within
    300000 ms of the reading taken when the loop started, and the reading
    taken after query [n + 1] is more than 300000 ms past it.  Then
    [pollTaskUntilComplete] throws the error "Task polling timeout".  The
    clock is read once after every such poll and before the wait: at the end the loop has sent exactly [n + 1] queries,
    waited [n] times and read the clock [n + 2] times, so nothing is sent
    after the error. *)
Theorem poll_timeout taskId onUpdate (s : St) n fuel :
  quiet_callback onUpdate ->
  (forall k, (k <= n)%nat -> nonterminal (reply W taskId (length (sent s) + k))) ->
  (forall k, (k < n)%nat ->
     clock W (ticks s + 1 + k) - clock W (ticks s) <= maxPollingTime) ->
  clock W (ticks s + 1 + n) - clock W (ticks s) > maxPollingTime ->
  (n < fuel)%nat ->
  let '(r, s') := pollTaskUntilComplete W fuel taskId onUpdate s in
  r = Throws (Error "Task polling timeout")
  /\ sent s' = sent s ++ replicate (Datatypes.S n) (queryTaskStatus_request taskId)
  /\ waits s' = waits s ++ replicate n pollingInterval
  /\ ticks s' = (ticks s + 2 + n)%nat.
Proof.
  intros Hq Hobs Hin Hout Hfuel.
  rewrite pollTaskUntilComplete_unfold.
  set (s0 := mkState _ _ _ _ _ _).
  replace fuel with (n + Datatypes.S (fuel - n - 1))%nat by lia.
  destruct (pollLoop_quiet taskId onUpdate (clock W (ticks s)) n Hq s0 VNull
              (Datatypes.S (fuel - n - 1)))
    as (s1 & last1 & Heq & Hsent & Hticks & Hwaits & Htasks).
  { intros k Hk. apply Hobs. lia. }
  { intros k Hk. simpl.
    replace (Datatypes.S (ticks s + k)) with (ticks s + 1 + k)%nat by lia.
    apply Hin, Hk. }
  rewrite Heq, pollLoop_S.
  destruct (pollIteration_cases taskId onUpdate (clock W (ticks s)) last1 s1)
    as (r & s2 & Hit & Hsent2 & Htasks2 & Hcase).
  rewrite Hit.
  destruct (Hobs n ltac:(lia)) as (result & data & cur & Ho & Hs & Hf).
  rewrite Hsent, length_app, length_replicate in Hcase. simpl in Hcase.
  rewrite Ho in Hcase. cbv zeta in Hcase.
  destruct Hcase as (Hupd & Huser & Hcase).
  assert (Hcb : (match onUpdate with
                 | Some f => if fires onUpdate cur last1 then f data (user s1)
                             else (None, user s1)
                 | None => (None, user s1)
                 end).1 = None).
  { destruct onUpdate as [f|]; [|reflexivity].
    destruct (fires _ _ _); [apply (Hq f eq_refl) | reflexivity]. }
  rewrite Hcb, Hs, Hf in Hcase. destruct Hcase as (Hticks2 & Hcase).
  rewrite Hticks in Hcase. simpl in Hcase.
  replace (Datatypes.S (ticks s + n)) with (ticks s + 1 + n)%nat in Hcase by lia.
  destruct (_ >? _) eqn:Hgt; [| rewrite Z.gtb_ltb in Hgt; apply Z.ltb_ge in Hgt; lia].
  destruct Hcase as (-> & Hwaits2).
  split; [reflexivity|]. split; [|split].
  - rewrite Hsent2, Hsent, replicate_S_end, app_assoc. reflexivity.
  - rewrite Hwaits2, Hwaits. reflexivity.
  - rewrite Hticks2, Hticks. simpl. lia.
Qed.

(** Claim C2, for the states the loop compares against.  Suppose the first
    [n] status queries are answered with states other than [success] and
    [fail], within the time limit, and query [n + 1] is answered with the
    state [cur].  If [cur] is [success], [pollTaskUntilComplete] returns the
    response to that query; if [cur] is [fail], it throws an error whose
    message is "Task failed: " followed by the response's [failMsg], or by
    "Unknown error" when [failMsg] is missing or falsy.  In both cases
    exactly [n + 1] queries were sent. *)
Theorem poll_first_terminal taskId onUpdate (s : St) n result data cur fuel :
  quiet_callback onUpdate ->
  (forall k, (k < n)%nat -> nonterminal (reply W taskId (length (sent s) + k))) ->
  (forall k, (k < n)%nat ->
     clock W (ticks s + 1 + k) - clock W (ticks s) <= maxPollingTime) ->
  observation (reply W taskId (length (sent s) + n)) = Some (result, data, cur) ->
  (n < fuel)%nat ->
  let '(r, s') := pollTaskUntilComplete W fuel taskId onUpdate s in
  (cur = VStr "success" \/ cur = VStr "fail" ->
   sent s' = sent s ++ replicate (Datatypes.S n) (queryTaskStatus_request taskId))
  /\ (cur = VStr "success" -> r = Returns result)
  /\ (cur = VStr "fail" ->
      r = Throws (Error ("Task failed: "
                           +:+ to_js_string (js_or (field data "failMsg")
                                                   (VStr "Unknown error"))))).
Proof.
  intros Hq Hobs Hin Ho Hfuel.
  rewrite pollTaskUntilComplete_unfold.
  set (s0 := mkState _ _ _ _ _ _).
  replace fuel with (n + Datatypes.S (fuel - n - 1))%nat by lia.
  destruct (pollLoop_quiet taskId onUpdate (clock W (ticks s)) n Hq s0 VNull
              (Datatypes.S (fuel - n - 1)))
    as (s1 & last1 & Heq & Hsent & Hticks & Hwaits & Htasks).
  { intros k Hk. apply Hobs. lia. }
  { intros k Hk. simpl.
    replace (Datatypes.S (ticks s + k)) with (ticks s + 1 + k)%nat by lia.
    apply Hin, Hk. }
  rewrite Heq, pollLoop_S.
  destruct (pollIteration_cases taskId onUpdate (clock W (ticks s)) last1 s1)
    as (r & s2 & Hit & Hsent2 & Htasks2 & Hcase).
  rewrite Hit.
  rewrite Hsent, length_app, length_replicate in Hcase. simpl in Hcase.
  rewrite Ho in Hcase. cbv zeta in Hcase.
  destruct Hcase as (Hupd & Huser & Hcase).
  assert (Hcb : (match onUpdate with
                 | Some f => if fires onUpdate cur last1 then f data (user s1)
                             else (None, user s1)
                 | None => (None, user s1)
                 end).1 = None).
  { destruct onUpdate as [f|]; [|reflexivity].
    destruct (fires _ _ _); [apply (Hq f eq_refl) | reflexivity]. }
  rewrite Hcb in Hcase.
  assert (Hs2 : sent s2 = sent s ++ replicate (Datatypes.S n) (queryTaskStatus_request taskId)).
  { rewrite Hsent2, Hsent, replicate_S_end, app_assoc. reflexivity. }
  destruct (strict_equal cur (VStr "success")) eqn:Hsucc.
  - destruct Hcase as (-> & _). simpl.
    split; [intros _; exact Hs2|]. split; [reflexivity|].
    intros ->. discriminate Hsucc.
  - destruct (strict_equal cur (VStr "fail")) eqn:Hfail.
    + destruct Hcase as (-> & _). simpl.
      split; [intros _; exact Hs2|].
      split; [intros ->; discriminate Hsucc | reflexivity].
    + match goal with |- let '(_, _) := ?x in _ => destruct x as [r' s'] end.
      split; [intros [-> | ->]; discriminate|].
      split; intros ->; discriminate.
Qed.

(** *** Progress notifications *)

Lemma observation_state fr result data cur :
  observation fr = Some (result, data, cur) -> field data "state" = cur.
Proof.
  unfold observation. destruct fr as [|status [res|]]; try discriminate.
  destruct (response_ok status); try discriminate.
  destruct (get_prop res "data") as [d| |]; try discriminate.
  destruct (get_prop d "state") as [c| |] eqn:Hc; try discriminate.
  intros [= <- <- <-]. unfold field. rewrite Hc. reflexivity.
Qed.

Lemma observation_data fr result data cur :
  observation fr = Some (result, data, cur) -> nullish data = false.
Proof.
  unfold observation. destruct fr as [|status [res|]]; try discriminate.
  destruct (response_ok status); try discriminate.
  destruct (get_prop res "data") as [d| |]; try discriminate.
  destruct (get_prop d "state") as [c| |] eqn:Hc; try discriminate.
  intros [= <- <- <-]. destruct d; try reflexivity; discriminate Hc.
Qed.

Lemma observation_result fr result data cur :
  observation fr = Some (result, data, cur) ->
  get_prop result "data" = Returns data.
Proof.
  unfold observation. destruct fr as [|status [res|]]; try discriminate.
  destruct (response_ok status); try discriminate.
  destruct (get_prop res "data") as [d| |] eqn:Hd; try discriminate.
  destruct (get_prop d "state") as [c| |]; try discriminate.
  intros [= <- <- <-]. exact Hd.
Qed.

Lemma observed_S taskId from count :
  observed W taskId from (Datatypes.S count)
  = match observation (reply W taskId from) with
    | Some (_, data, _) => data :: observed W taskId (Datatypes.S from) count
    | None => observed W taskId (Datatypes.S from) count
    end.
Proof.
  unfold observed. simpl.
  destruct (observation (reply W taskId from)) as [[[? ?] ?]|]; reflexivity.
Qed.

Lemma fires_agrees f data c last prev :
  field data "state" = VStr c -> agrees last prev ->
  (if fires (Some f) (VStr c) last then [data] else [])
  = first_of_runs state_name prev [data]
  /\ agrees (if fires (Some f) (VStr c) last then VStr c else last) (Some c).
Proof.
  intros Hst Hag. unfold fires. cbn [first_of_runs]. unfold state_name.
  rewrite Hst.
  destruct prev as [p|]; simpl in Hag; subst last.
  - cbn [strict_equal agrees].
    destruct (String.eqb_spec c p) as [->|Hne]; cbn [negb];
      destruct (decide _) as [Heq|Hneq]; try congruence; auto.
  - cbn [strict_equal negb agrees].
    destruct (decide _) as [Heq|Hneq]; [discriminate | auto].
Qed.

Lemma first_of_runs_cons {A} (key : A -> string) prev x l :
  first_of_runs key prev (x :: l)
  = first_of_runs key prev [x] ++ first_of_runs key (Some (key x)) l.
Proof.
  simpl. destruct (decide (prev = Some (key x))) as [->|]; reflexivity.
Qed.

(** Every turn sends one query, so the polls of a run are the requests it
    logged. *)
Lemma pollLoop_sent taskId onUpdate start fuel :
  forall (s : St) last,
    exists n,
      sent (pollLoop W fuel taskId onUpdate start last s).2
      = sent s ++ replicate n (queryTaskStatus_request taskId).
Proof.
  induction fuel as [|fuel IH]; intros s last.
  - exists 0%nat. simpl. rewrite app_nil_r. reflexivity.
  - rewrite pollLoop_S.
    destruct (pollIteration_cases taskId onUpdate start last s)
      as (r & s1 & Hit & Hsent & _).
    rewrite Hit.
    destruct r as [[res|last1]|e|]; try (exists 1%nat; exact Hsent).
    destruct (IH s1 last1) as (n & Hn). exists (Datatypes.S n).
    rewrite Hn, Hsent, <- app_assoc. reflexivity.
Qed.

(** The calls of [onUpdate] in a run of the loop that starts with
    [lastStatus] agreeing with [prev]. *)
Lemma pollLoop_updates taskId f start fuel :
  forall (s : St) last prev n,
    agrees last prev ->
    let s' := (pollLoop W fuel taskId (Some f) start last s).2 in
    sent s' = sent s ++ replicate n (queryTaskStatus_request taskId) ->
    Forall has_state_name (observed W taskId (length (sent s)) n) ->
    updates s'
    = updates s
        ++ first_of_runs state_name prev (observed W taskId (length (sent s)) n).
Proof.
  induction fuel as [|fuel IH]; intros s last prev n Hag.
  - simpl. intros Hn _.
    assert (n = 0%nat) as ->.
    { apply (f_equal length) in Hn. rewrite length_app, length_replicate in Hn. lia. }
    simpl. rewrite app_nil_r. reflexivity.
  - rewrite pollLoop_S.
    destruct (pollIteration_cases taskId (Some f) start last s)
      as (r & s1 & Hit & Hsent & Htasks & Hcase).
    rewrite Hit.
    assert (Hend : sent s1 = sent s ++ replicate n (queryTaskStatus_request taskId) ->
                   Forall has_state_name (observed W taskId (length (sent s)) n) ->
                   updates s1
                   = updates s
                       ++ first_of_runs state_name prev
                            (observed W taskId (length (sent s)) n)).
    { intros Hn.
      assert (n = 1%nat) as ->.
      { rewrite Hsent in Hn. apply (f_equal length) in Hn.
        rewrite !length_app, length_replicate in Hn. simpl in Hn. lia. }
      rewrite observed_S. simpl.
      destruct (observation (reply W taskId (length (sent s))))
        as [[[result data] cur]|] eqn:Ho.
      - cbv zeta in Hcase. destruct Hcase as (Hupd & _).
        pose proof (observation_state _ _ _ _ Ho) as Hst.
        intros Hall. apply Forall_inv in Hall as [c Hc].
        rewrite Hupd. f_equal.
        assert (cur = VStr c) as -> by congruence.
        apply (fires_agrees f data c last prev Hc Hag).
      - destruct Hcase as (_ & Hupd & _). rewrite Hupd, app_nil_r. reflexivity. }
    destruct r as [[res|last1]|e|]; try exact Hend.
    clear Hend. simpl.
    destruct (observation (reply W taskId (length (sent s))))
      as [[[result data] cur]|] eqn:Ho;
      [| destruct Hcase as ((e & He) & _); discriminate].
    cbv zeta in Hcase. destruct Hcase as (Hupd & Huser & Hcase).
    pose proof (observation_state _ _ _ _ Ho) as Hst.
    assert (Hl : last1 = if fires (Some f) cur last then cur else last).
    { destruct (_.1) in Hcase; [destruct Hcase; discriminate|].
      destruct (strict_equal cur (VStr "success")); [destruct Hcase; discriminate|].
      destruct (strict_equal cur (VStr "fail")); [destruct Hcase; discriminate|].
      destruct Hcase as [_ Hcase].
      destruct (_ >? _); destruct Hcase as [Hr _]; [discriminate|].
      injection Hr as ->. reflexivity. }
    intros Hn Hall.
    destruct (pollLoop_sent taskId (Some f) start fuel s1 last1) as (m & Hm).
    assert (n = Datatypes.S m) as ->.
    { rewrite Hm, Hsent in Hn. apply (f_equal length) in Hn.
      rewrite !length_app, !length_replicate in Hn. simpl in Hn. lia. }
    rewrite observed_S, Ho in Hall |- *.
    pose proof (Forall_inv Hall) as [c Hc].
    assert (cur = VStr c) as -> by congruence.
    destruct (fires_agrees f data c last prev Hc Hag) as [Hfr Hag1].
    rewrite <- Hl in Hag1.
    specialize (IH s1 last1 (Some c) m Hag1 Hm).
    rewrite Hsent, length_app, Nat.add_1_r in IH.
    rewrite IH by (eapply Forall_inv_tail; exact Hall).
    rewrite Hupd, <- app_assoc. f_equal.
    assert (Hname : state_name data = c)
      by (unfold state_name; rewrite Hc; reflexivity).
    rewrite first_of_runs_cons, <- Hfr, Hname. reflexivity.
Qed.

Lemma first_of_runs_map {A} (key : A -> string) prev l :
  map key (first_of_runs key prev l) = first_of_runs id prev (map key l).
Proof.
  revert prev. induction l as [|x l IH]; intros prev; [reflexivity|].
  simpl. unfold id at 1. destruct (decide (prev = Some (key x))); simpl;
    rewrite IH; reflexivity.
Qed.

Lemma run_callback_app (f : Callback U) l1 l2 u :
  run_callback f (l1 ++ l2) u = run_callback f l2 (run_callback f l1 u).
Proof. unfold run_callback. apply foldl_app. Qed.

(** The state of the callback is what the logged calls, and no other, have
    made of it. *)
Lemma pollLoop_user taskId f start fuel :
  forall (s : St) last,
    exists calls,
      updates (pollLoop W fuel taskId (Some f) start last s).2
      = updates s ++ calls
      /\ user (pollLoop W fuel taskId (Some f) start last s).2
         = run_callback f calls (user s).
Proof.
  induction fuel as [|fuel IH]; intros s last.
  - exists []. simpl. rewrite app_nil_r. auto.
  - rewrite pollLoop_S.
    destruct (pollIteration_cases taskId (Some f) start last s)
      as (r & s1 & Hit & _ & _ & Hcase).
    rewrite Hit.
    assert (H1 : exists l, updates s1 = updates s ++ l
                           /\ user s1 = run_callback f l (user s)).
    { destruct (observation _) as [[[result data] cur]|].
      - cbv zeta in Hcase. destruct Hcase as (Hupd & Huser & _).
        destruct (fires (Some f) cur last).
        + exists [data]. split; [exact Hupd | exact Huser].
        + exists []. split; [exact Hupd | exact Huser].
      - destruct Hcase as (_ & Hupd & _ & _ & Huser).
        exists []. rewrite app_nil_r. auto. }
    destruct H1 as (l & Hl1 & Hl2).
    destruct r as [[res|last1]|e|]; simpl; try (exists l; auto; fail).
    destruct (IH s1 last1) as (calls & Hc1 & Hc2).
    exists (l ++ calls).
    rewrite Hc1, Hl1, Hc2, Hl2, run_callback_app, app_assoc. auto.
Qed.

(** Claim C3.  During a call of [pollTaskUntilComplete] with a callback, the
    callback is run on the [data] of the first poll of every maximal run of
    consecutive polls that observed the same state, in order, and on nothing
    else: these are the calls that are logged, and the state of the callback
    at the end is what these calls, one after the other, have made of the
    state it had at the start.  In particular, when the observed states are
    queued, queued, running, running, processing, succeeded, there are
    exactly four calls, for queued, running, processing and succeeded in
    that order. *)
Theorem onUpdate_once_per_run fuel taskId f (s : St) :
  let s' := (pollTaskUntilComplete W fuel taskId (Some f) s).2 in
  let obs := observed W taskId (length (sent s))
               (length (sent s') - length (sent s)) in
  Forall has_state_name obs ->
  exists calls,
    updates s' = updates s ++ calls
    /\ user s' = run_callback f calls (user s)
    /\ calls = first_of_runs state_name None obs
    /\ (map state_name obs
        = ["queued"; "queued"; "running"; "running"; "processing"; "succeeded"] ->
        map state_name calls = ["queued"; "running"; "processing"; "succeeded"]).
Proof.
  intros s' obs Hall. exists (first_of_runs state_name None obs).
  subst s' obs. rewrite pollTaskUntilComplete_unfold in *.
  set (s0 := mkState _ _ _ _ _ _) in *.
  destruct (pollLoop_sent taskId (Some f) (clock W (ticks s)) fuel s0 VNull)
    as (n & Hn).
  change (sent s0) with (sent s) in Hn.
  rewrite Hn, length_app, length_replicate in Hall |- *.
  replace (length (sent s) + n - length (sent s))%nat with n in Hall |- * by lia.
  assert (Hupdates :
            updates (pollLoop W fuel taskId (Some f) (clock W (ticks s)) VNull s0).2
            = updates s
                ++ first_of_runs state_name None
                     (observed W taskId (length (sent s)) n)).
  { apply (pollLoop_updates taskId f (clock W (ticks s)) fuel s0 VNull None n);
      [reflexivity | exact Hn | exact Hall]. }
  split; [exact Hupdates|]. split; [|split; [reflexivity|]].
  - destruct (pollLoop_user taskId f (clock W (ticks s)) fuel s0 VNull)
      as (calls & Hc1 & Hc2).
    change (updates s0) with (updates s) in Hc1.
    change (user s0) with (user s) in Hc2.
    rewrite Hupdates in Hc1. apply app_inv_head in Hc1. subst calls.
    exact Hc2.
  - intros Hobs. rewrite first_of_runs_map, Hobs. reflexivity.
Qed.

(** *** What the loop leaves alone, and what it can throw *)

Global Instance same_map_refl : Reflexive same_map.
Proof. intros s; reflexivity. Qed.
Global Instance same_map_trans : Transitive same_map.
Proof. intros a b c H1 H2; unfold same_map in *; congruence. Qed.

(** The loop leaves the task map alone. *)
Lemma ensures_relax {A} (E : value -> Prop) (Q : A -> Prop) (m : M St A) :
  ensures same_tasks E Q m -> ensures same_map E Q m.
Proof.
  intros Hm s. destruct (Hm s) as ([? ?] & ? & ?). repeat split; assumption.
Qed.

Lemma queryTaskStatus_ensures taskId :
  ensures same_tasks (thrown_if P) anything (queryTaskStatus W taskId).
Proof.
  unfold queryTaskStatus.
  eapply ensures_try_catch with (E' := thrown_if P); try apply _.
  - eapply ensures_bind; try apply _; [apply fetch_ensures|].
    intros [st d] _. destruct (negb (response_ok st)).
    + eapply ensures_bind with (P := thrown_if P); try apply _.
      * apply ensures_lift; [apply _ | apply handleApiError_throws
                            | apply handleApiError_returns].
      * intros e He. apply ensures_throw; [apply _ | exact He].
    + apply ensures_ret; [apply _ | exact I].
  - intros e He. apply ensures_throw; [apply _ | exact He].
Qed.

Lemma pollIteration_ensures taskId onUpdate start last :
  (P -> polite_opt onUpdate) ->
  ensures same_map (thrown_if P) anything
    (pollIteration W taskId onUpdate start last).
Proof.
  intros Hp. unfold pollIteration.
  eapply ensures_try_catch with (E' := thrown_if P); try apply _;
    [| intros e He; apply ensures_throw; [apply _ | exact He]].
  eapply ensures_bind with (P := anything); try apply _;
    [apply ensures_relax, queryTaskStatus_ensures|].
  intros result _.
  eapply ensures_bind with (P := anything); try apply _;
    [apply lift_get_prop_ensures; apply _|].
  intros data _.
  eapply ensures_bind with (P := anything); try apply _;
    [apply lift_get_prop_ensures; apply _|].
  intros cur _.
  eapply ensures_bind with (P := anything); try apply _.
  - destruct onUpdate as [f|]; [|apply ensures_ret; [apply _ | exact I]].
    destruct (negb _); [|apply ensures_ret; [apply _ | exact I]].
    eapply ensures_bind with (P := anything); try apply _.
    { intros s. repeat split; discriminate. }
    intros _ _.
    eapply ensures_bind with (P := anything); try apply _.
    { apply ensures_relax, call_ensures. intros HP. apply (Hp HP). reflexivity. }
    intros _ _. apply ensures_ret; [apply _ | exact I].
  - intros last1 _.
    destruct (strict_equal cur (VStr "success"));
      [apply ensures_ret; [apply _ | exact I]|].
    destruct (strict_equal cur (VStr "fail"));
      [apply ensures_throw; [apply _ | intros _; reflexivity]|].
    eapply ensures_bind with (P := anything); try apply _.
    { intros s. repeat split; discriminate. }
    intros now _.
    destruct (_ >? _); [apply ensures_throw; [apply _ | intros _; reflexivity]|].
    eapply ensures_bind with (P := anything); try apply _.
    { intros s. repeat split; discriminate. }
    intros _ _. apply ensures_ret; [apply _ | exact I].
Qed.

Lemma pollLoop_ensures taskId onUpdate start fuel :
  (P -> polite_opt onUpdate) ->
  forall last,
    ensures same_map (thrown_if P) anything
      (pollLoop W fuel taskId onUpdate start last).
Proof.
  intros Hp. induction fuel as [|fuel IH]; intros last.
  - intros s. repeat split; discriminate.
  - simpl. eapply ensures_bind with (P := anything); try apply _;
      [apply pollIteration_ensures, Hp|].
    intros [result|last1] _; [apply ensures_ret; [apply _ | exact I] | apply IH].
Qed.

Lemma pollTaskUntilComplete_ensures taskId onUpdate fuel :
  (P -> polite_opt onUpdate) ->
  ensures same_map (thrown_if P) anything
    (pollTaskUntilComplete W fuel taskId onUpdate).
Proof.
  intros Hp. unfold pollTaskUntilComplete.
  eapply ensures_bind with (P := anything); try apply _.
  { intros s. repeat split; discriminate. }
  intros start _. apply pollLoop_ensures, Hp.
Qed.

End Thrown.

(** The arrow function throws only what [onProgress] throws. *)
Lemma progress_update_polite onProgress :
  polite_opt onProgress -> polite_opt (Some (progress_update W onProgress)).
Proof.
  intros Hp f [= <-] v u e. unfold progress_update.
  destruct onProgress as [g|]; [|discriminate].
  destruct (get_prop v "state") eqn:Hg.
  - apply (Hp g eq_refl).
  - simpl. intros [= <-]. revert Hg.
    destruct v; simpl; try discriminate; try (case String.eqb; discriminate);
      intros [= <-]; reflexivity.
  - apply (Hp g eq_refl).
Qed.

(** The loop ends once a reading of the clock is past the ceiling. *)
Lemma pollLoop_settles taskId onUpdate start fuel :
  forall (s : St) last,
    (exists j, (j < fuel)%nat
               /\ clock W (ticks s + j) - start > maxPollingTime) ->
    (pollLoop W fuel taskId onUpdate start last s).1 <> Pending.
Proof.
  induction fuel as [|fuel IH]; intros s last (j & Hj & Hlate); [lia|].
  rewrite pollLoop_S.
  destruct (pollIteration_cases taskId onUpdate start last s)
    as (r & s1 & Hit & _ & _ & Hcase).
  rewrite Hit.
  destruct r as [[res|last1]|e|]; simpl; try discriminate.
  - apply IH.
    destruct (observation _) as [[[result data] cur]|];
      [|destruct Hcase as ((e & He) & _); discriminate].
    cbv zeta in Hcase. destruct Hcase as (_ & _ & Hcase).
    destruct (_.1) in Hcase; [destruct Hcase; discriminate|].
    destruct (strict_equal cur (VStr "success")); [destruct Hcase; discriminate|].
    destruct (strict_equal cur (VStr "fail")); [destruct Hcase; discriminate|].
    destruct Hcase as [Hticks Hcase].
    destruct (_ >? _) eqn:Hgt; destruct Hcase as [Hr _]; [discriminate|].
    rewrite Z.gtb_ltb in Hgt. apply Z.ltb_ge in Hgt.
    destruct j as [|j]; [rewrite Nat.add_0_r in Hlate; lia|].
    exists j. split; [lia|]. rewrite Hticks.
    replace (Datatypes.S (ticks s) + j)%nat with (ticks s + Datatypes.S j)%nat by lia.
    exact Hlate.
  - destruct (observation _) as [[[result data] cur]|].
    + cbv zeta in Hcase. destruct Hcase as (_ & _ & Hcase).
      destruct (_.1) in Hcase; [destruct Hcase; discriminate|].
      destruct (strict_equal cur (VStr "success")); [destruct Hcase; discriminate|].
      destruct (strict_equal cur (VStr "fail")); [destruct Hcase; discriminate|].
      destruct Hcase as [_ Hcase].
      destruct (_ >? _); destruct Hcase; discriminate.
    + destruct Hcase as ((e & He) & _); discriminate.
Qed.

(** *** [generateImage] *)

Lemma call_frame f arg (s : St) :
  same_tasks s (call f arg s).2
  /\ (call f arg s).1 <> Pending
  /\ forall e, (call f arg s).1 = Throws e -> polite f -> nullish e = false.
Proof.
  unfold call. destruct (f arg (user s)) as [[e|] u] eqn:Hf; simpl.
  - repeat split; try discriminate. intros e' [= <-] Hp.
    apply (Hp arg (user s)). rewrite Hf. reflexivity.
  - repeat split; discriminate.
Qed.

Lemma notify_frame o ev (s : St) :
  same_tasks s (notify o ev s).2
  /\ (notify o ev s).1 <> Pending
  /\ forall e, (notify o ev s).1 = Throws e -> polite_opt o -> nullish e = false.
Proof.
  destruct o as [f|]; simpl.
  - destruct (call_frame f ev s) as (H1 & H2 & H3). repeat split; try apply H1; auto.
  - repeat split; discriminate.
Qed.

(** The rules of [settles]. *)
Lemma settles_ret {S A} (a : A) : settles (S:=S) (mret a).
Proof. intros s; discriminate. Qed.

Lemma settles_throw {S A} e : settles (S:=S) (A:=A) (throw e).
Proof. intros s; discriminate. Qed.

Lemma settles_lift {S A} (c : outcome A) : c <> Pending -> settles (S:=S) (lift c).
Proof. intros Hc s; exact Hc. Qed.

Lemma settles_bind {S A B} (m : M S A) (f : A -> M S B) :
  settles m -> (forall a, settles (f a)) -> settles (m ≫= f).
Proof.
  intros Hm Hf s. specialize (Hm s). unfold mbind, M_bind.
  destruct (m s) as [[a|e|] s1]; simpl in *;
    [apply Hf | discriminate | contradiction].
Qed.

Lemma settles_try_catch {S A} (b : M S A) h :
  settles b -> (forall e, settles (h e)) -> settles (try_catch b h).
Proof.
  intros Hb Hh s. specialize (Hb s). unfold try_catch.
  destruct (b s) as [[a|e|] s1]; simpl in *;
    [discriminate | apply Hh | contradiction].
Qed.

Lemma includes_settles v k : includes v k <> Pending.
Proof. destruct v; discriminate. Qed.

Lemma fetch_settles r : settles (fetch (U:=U) W r).
Proof.
  intros s. unfold fetch. destruct (server W _ r) as [|? [|]]; discriminate.
Qed.

Lemma createTask_settles a p o : settles (createTask (U:=U) W a p o).
Proof.
  unfold createTask. apply settles_try_catch.
  - apply settles_bind; [apply fetch_settles|]. intros [st d].
    destruct (negb (response_ok st)).
    + apply settles_bind; [apply settles_lift, handleApiError_settles|].
      intros e. apply settles_throw.
    + apply settles_bind; [apply settles_lift, get_prop_settles|].
      intros dd. destruct (_ || _); [apply settles_throw | apply settles_ret].
  - intros e. apply settles_bind; [apply settles_lift, get_prop_settles|].
    intros nm. destruct (strict_equal _ _); [|apply settles_throw].
    apply settles_bind; [apply settles_lift, includes_settles|].
    intros [|]; apply settles_throw.
Qed.

Lemma pollTaskUntilComplete_settles fuel taskId onUpdate (s : St) :
  (exists j, (j < fuel)%nat
             /\ clock W (ticks s + 1 + j) - clock W (ticks s) > maxPollingTime) ->
  (pollTaskUntilComplete W fuel taskId onUpdate s).1 <> Pending.
Proof.
  intros (j & Hj & Hlate). rewrite pollTaskUntilComplete_unfold.
  apply pollLoop_settles. exists j. split; [exact Hj|]. simpl.
  replace (Datatypes.S (ticks s + j)) with (ticks s + 1 + j)%nat by lia.
  exact Hlate.
Qed.

Lemma try_post_right onProgress fuel (s x : St) r t info :
  truthy t = true ->
  activeTasks x = Map_set t info (activeTasks s) ->
  (forall v, r = Returns v -> is_success t v) ->
  (late W s fuel -> r <> Pending) ->
  (forall e, r = Throws e -> polite_opt onProgress -> nullish e = false) ->
  try_post W onProgress fuel s r (x, t).
Proof.
  intros H1 H2 H3 H4 H5. split; [right; simpl; eauto 10 | exact H5].
Qed.

Lemma try_post_left onProgress fuel (s x : St) e :
  activeTasks x = activeTasks s ->
  (polite_opt onProgress -> nullish e = false) ->
  try_post W onProgress fuel s (Throws e) (x, VNull).
Proof.
  intros H1 H2. split.
  - left. simpl. repeat split; try discriminate. exact H1.
  - intros e' [= <-]. exact H2.
Qed.

(** The [try] block, step by step. *)
Lemma generateImage_try_post fuel apiKey prompt options onProgress (s : St) :
  let '(r, x) :=
    generateImage_try W fuel apiKey prompt options onProgress (s, VNull) in
  try_post W onProgress fuel s r x.
Proof.
  set (P := polite_opt onProgress).
  unfold generateImage_try.
  (* onProgress({status: 'creating'}) *)
  rewrite bind_outer_eq.
  match goal with |- context [notify ?o ?ev s] =>
    destruct (notify_ensures P o ev (fun H => H) s) as (F1 & T1 & _);
    pose proof (notify_frame o ev s) as (_ & N1 & _);
    destruct (notify o ev s) as [[[]|e|] s1]
  end; simpl in F1, T1, N1; [| | contradiction].
  2:{ apply try_post_left; [apply F1 | apply (T1 e eq_refl)]. }
  (* createTask *)
  rewrite bind_outer_eq.
  destruct (createTask_ensures P apiKey prompt options s1) as (F2 & T2 & Q2).
  pose proof (createTask_settles apiKey prompt options s1) as N2.
  destruct (createTask W apiKey prompt options s1) as [[cr|e|] s2];
    simpl in F2, T2, Q2, N2; [| | contradiction].
  2:{ apply try_post_left; [destruct F1, F2; congruence | apply (T2 e eq_refl)]. }
  specialize (Q2 cr eq_refl).
  (* createResult.data.taskId *)
  rewrite bind_lift_eq.
  destruct (get_prop cr "data") as [d| |] eqn:Hd;
    [| unfold field in Q2; rewrite Hd in Q2; discriminate Q2 ..].
  rewrite bind_lift_eq.
  assert (Hfd : field cr "data" = d) by (unfold field; rewrite Hd; reflexivity).
  rewrite Hfd in Q2.
  destruct (get_prop d "taskId") as [t| |] eqn:Ht;
    [| unfold field in Q2; rewrite Ht in Q2; discriminate Q2 ..].
  assert (Htruthy : truthy t = true) by (unfold field in Q2; rewrite Ht in Q2; exact Q2).
  (* taskId = ...; activeTasks.set(...) *)
  unfold mbind at 1, M_bind at 1, set_local at 1.
  rewrite bind_outer_eq. unfold Date_now at 1.
  rewrite bind_outer_eq. unfold set_activeTasks at 1, modify at 1.
  set (info := obj [("startTime", VNum (clock W (ticks s2))); ("prompt", prompt)]).
  set (s3 := mkState _ _ _ _ _ _).
  assert (Htasks3 : activeTasks s3 = Map_set t info (activeTasks s)).
  { subst s3. simpl. destruct F1 as [E1 _], F2 as [E2 _]. rewrite E2, E1. reflexivity. }
  assert (Hticks3 : ticks s3 = Datatypes.S (ticks s)).
  { subst s3. simpl. destruct F1 as [_ E1], F2 as [_ E2]. rewrite E2, E1. reflexivity. }
  clearbody s3.
  (* onProgress({status: 'waiting'}) *)
  rewrite bind_outer_eq.
  match goal with |- context [notify ?o ?ev s3] =>
    destruct (notify_ensures P o ev (fun H => H) s3) as (F4 & T4 & _);
    pose proof (notify_frame o ev s3) as (_ & N4 & _);
    destruct (notify o ev s3) as [[[]|e|] s4]
  end; simpl in F4, T4, N4; [| | contradiction].
  2:{ apply try_post_right with (info := info); try discriminate;
        [exact Htruthy | destruct F4 as [-> _]; exact Htasks3
        | intros e' [= <-]; apply (T4 e eq_refl)]. }
  (* pollTaskUntilComplete *)
  rewrite bind_outer_eq.
  destruct (pollTaskUntilComplete_ensures P t (Some (progress_update W onProgress))
              fuel (progress_update_polite onProgress) s4) as (F5 & T5 & _).
  pose proof (pollTaskUntilComplete_settles fuel t
                (Some (progress_update W onProgress)) s4) as N5.
  assert (Htasks5 : forall s5 : St, same_map s4 s5 ->
            activeTasks s5 = Map_set t info (activeTasks s)).
  { intros s5 F. rewrite F. destruct F4 as [-> _]. exact Htasks3. }
  destruct (pollTaskUntilComplete W fuel t _ s4) as [[result|e|] s5];
    simpl in F5, T5, N5.
  2:{ apply try_post_right with (info := info); try discriminate;
        [exact Htruthy | apply Htasks5, F5
        | intros e' [= <-]; apply (T5 e eq_refl)]. }
  2:{ apply try_post_right with (info := info); try discriminate;
        [exact Htruthy | apply Htasks5, F5 |].
      intros (j & Hj & Hlate). apply N5. exists j. split; [exact Hj|].
      destruct F4 as [_ ->]. rewrite Hticks3.
      replace (Datatypes.S (ticks s) + 1 + j)%nat with (ticks s + 2 + j)%nat by lia.
      replace (Datatypes.S (ticks s)) with (ticks s + 1)%nat by lia.
      exact Hlate. }
  specialize (Htasks5 s5 F5).
  clear F1 T1 N1 F2 T2 N2 F4 T4 N4 F5 T5 N5.
  (* the result *)
  assert (Hfail : forall e (x : St), nullish e = false ->
            activeTasks x = Map_set t info (activeTasks s) ->
            try_post W onProgress fuel s (Throws e) (x, t)).
  { intros e x He Hx.
    apply try_post_right with (info := info); try discriminate;
      [exact Htruthy | exact Hx | intros e' [= <-] _; exact He]. }
  rewrite bind_lift_eq.
  destruct (get_prop result "data") as [rd|e|] eqn:Hrd;
    [| apply Hfail; [exact (get_prop_throws True _ _ _ Hrd I) | exact Htasks5]
     | exfalso; eapply get_prop_settles, Hrd].
  rewrite bind_lift_eq.
  destruct (get_prop rd "resultJson") as [rj|e|] eqn:Hrj;
    [| apply Hfail; [exact (get_prop_throws True _ _ _ Hrj I) | exact Htasks5]
     | exfalso; eapply get_prop_settles, Hrj].
  unfold mbind at 1, M_bind at 1.
  destruct (JSON_parse W (to_js_string rj)) as [imageData|msg];
    [| apply Hfail; [reflexivity | exact Htasks5]].
  unfold mret at 1, M_ret at 1.
  rewrite bind_lift_eq.
  destruct (get_prop imageData "resultUrls") as [urls|e|] eqn:Hurls;
    [| apply Hfail; [exact (get_prop_throws True _ _ _ Hurls I) | exact Htasks5]
     | exfalso; eapply get_prop_settles, Hurls].
  rewrite bind_lift_eq.
  destruct (get_index urls 0) as [url|e|] eqn:Hurl;
    [| apply Hfail; [exact (get_index_throws True _ _ _ Hurl I) | exact Htasks5]
     | destruct urls; discriminate Hurl].
  rewrite bind_outer_eq. unfold Date_now at 1.
  unfold mret, M_ret.
  apply try_post_right with (info := info); try discriminate;
    [exact Htruthy | exact Htasks5 |].
  intros v [= <-]. do 3 eexists. reflexivity.
Qed.

(** A deleted key is absent; deleting a key removes what [set] did for it. *)
Lemma Map_has_delete k m : Map_has k (Map_delete k m) = false.
Proof.
  unfold Map_has, Map_delete. induction m as [|e m IH]; [reflexivity|].
  simpl. destruct (same_value k e.1) eqn:He; simpl; [exact IH|].
  rewrite He. exact IH.
Qed.

Lemma Map_delete_set k v m : Map_delete k (Map_set k v m) = Map_delete k m.
Proof.
  unfold Map_set. destruct (Map_has k m).
  - unfold Map_delete. induction m as [|e m IH]; [reflexivity|].
    simpl. destruct (same_value k e.1) eqn:He; simpl; rewrite He; simpl;
      rewrite IH; reflexivity.
  - unfold Map_delete. rewrite List.filter_app. simpl.
    rewrite same_value_refl. simpl. apply app_nil_r.
Qed.

(** [generateImage] in terms of its three blocks. *)
Lemma generateImage_unfold fuel apiKey prompt options onProgress (s : St) :
  generateImage W fuel apiKey prompt options onProgress s
  = match generateImage_try W fuel apiKey prompt options onProgress (s, VNull) with
    | (Pending, (s1, _)) => (Pending, s1)
    | (Returns v, (s1, taskId)) =>
        (Returns v,
         if truthy taskId
         then mkState (Map_delete taskId (activeTasks s1)) (sent s1) (ticks s1)
                      (waits s1) (updates s1) (user s1)
         else s1)
    | (Throws e, (s1, taskId)) =>
        (match get_prop e "message" with
         | Returns message =>
             Returns (obj [("success", VBool false); ("error", message);
                           ("taskId", taskId)])
         | Throws e' => Throws e'
         | Pending => Pending
         end,
         if truthy taskId
         then mkState (Map_delete taskId (activeTasks s1)) (sent s1) (ticks s1)
                      (waits s1) (updates s1) (user s1)
         else s1)
    end.
Proof.
  unfold generateImage, with_local, try_finally, try_catch.
  destruct (generateImage_try W fuel apiKey prompt options onProgress (s, VNull))
    as [[v|e|] [s1 t]]; simpl.
  - unfold generateImage_finally, mbind, M_bind, get_local.
    destruct (truthy t); reflexivity.
  - unfold generateImage_catch, generateImage_finally.
    rewrite bind_lift_eq.
    pose proof (get_prop_settles e "message") as Hs.
    destruct (get_prop e "message") as [msg|e'|]; [| |contradiction];
      unfold mbind, M_bind, get_local, mret, M_ret; simpl;
      destruct (truthy t); reflexivity.
  - reflexivity.
Qed.

(** Claim C5.  Whenever [generateImage] returns, on whatever path, one of two
    things holds.  Either a job was created: its identifier is the [taskId]
    of the result, the task map is the one from before the call with that
    identifier deleted, and the identifier is not a key of it.  Or no job was
    created: the [taskId] of the result is [null] and the task map is the one
    from before the call. *)
Theorem generateImage_untracks fuel apiKey prompt options onProgress (s : St) :
  let '(r, s') := generateImage W fuel apiKey prompt options onProgress s in
  r <> Pending ->
  (exists taskId,
      truthy taskId = true
      /\ activeTasks s' = Map_delete taskId (activeTasks s)
      /\ Map_has taskId (activeTasks s') = false
      /\ forall v, r = Returns v -> field v "taskId" = taskId)
  \/ (activeTasks s' = activeTasks s
      /\ forall v, r = Returns v -> field v "taskId" = VNull).
Proof.
  rewrite generateImage_unfold.
  pose proof (generateImage_try_post fuel apiKey prompt options onProgress s) as Hpost.
  destruct (generateImage_try W fuel apiKey prompt options onProgress (s, VNull))
    as [r [s1 t]].
  destruct Hpost as [[(Ht & Htasks & Hnr & Hnp) | (Ht & (info & Htasks) & Hs & _)] _];
    simpl in Ht, Htasks.
  - subst t. simpl.
    destruct r as [v|e|]; [destruct (Hnr v eq_refl) | | contradiction].
    intros _. right. split; [exact Htasks|].
    destruct (get_prop e "message"); intros v [= <-]. reflexivity.
  - rewrite Ht.
    destruct r as [v|e|]; [| |intros H; contradiction].
    + intros _. left. exists t. simpl. rewrite Htasks, Map_delete_set.
      split; [exact Ht|]. split; [reflexivity|].
      split; [apply Map_has_delete|].
      intros v' [= <-]. destruct (Hs v eq_refl) as (u & g & ts & ->). reflexivity.
    + intros _. left. exists t. simpl. rewrite Htasks, Map_delete_set.
      split; [exact Ht|]. split; [reflexivity|].
      split; [apply Map_has_delete|].
      destruct (get_prop e "message"); intros v [= <-]. reflexivity.
Qed.

(** A notification changes the state of the callback at most. *)
Lemma notify_state o ev (s : St) :
  exists u,
    (notify o ev s).2
    = mkState (activeTasks s) (sent s) (ticks s) (waits s) (updates s) u.
Proof.
  destruct o as [f|]; simpl.
  - unfold call. destruct (f ev (user s)) as [[e|] u]; eauto.
  - exists (user s). destruct s; reflexivity.
Qed.

(** What [createTask] returns is the body of a 2xx answer to its request;
    the request is all it has done. *)
Lemma createTask_returned apiKey prompt options (s s1 : St) body :
  createTask W apiKey prompt options s = (Returns body, s1) ->
  exists status,
    server W (length (sent s)) (createTask_request apiKey prompt options)
    = FetchResponds status (inl body)
    /\ response_ok status = true
    /\ s1 = requested s (createTask_request apiKey prompt options).
Proof.
  unfold createTask, try_catch. unfold mbind at 1, M_bind at 1, fetch at 1.
  destruct (server W _ _) as [name message|status [data|message]] eqn:Hserver;
    cbv iota beta.
  - rewrite bind_lift_eq.
    destruct (get_prop _ "name") as [nm|e|]; try discriminate.
    destruct (strict_equal nm _); [|discriminate].
    rewrite bind_lift_eq. destruct (includes _ _) as [[|]|e|]; discriminate.
  - destruct (response_ok status) eqn:Hok; cbn [negb].
    + rewrite bind_lift_eq.
      destruct (get_prop data "data") as [d|e|]; cbv iota beta.
      * destruct (negb (truthy d) || negb (truthy (field d "taskId"))).
        -- unfold throw. cbv iota beta. rewrite bind_lift_eq.
           destruct (get_prop _ "name") as [nm|e|]; try discriminate.
           destruct (strict_equal nm _); [|discriminate].
           rewrite bind_lift_eq. destruct (includes _ _) as [[|]|e|]; discriminate.
        -- intros [= <- <-]. exists status. auto.
      * rewrite bind_lift_eq.
        destruct (get_prop _ "name") as [nm|e'|]; try discriminate.
        destruct (strict_equal nm _); [|discriminate].
        rewrite bind_lift_eq. destruct (includes _ _) as [[|]|e'|]; discriminate.
      * discriminate.
    + rewrite bind_lift_eq.
      destruct (handleApiError status data) as [err|e|]; cbv iota beta;
        try discriminate.
      * unfold throw. cbv iota beta. rewrite bind_lift_eq.
        destruct (get_prop _ "name") as [nm|e|]; try discriminate.
        destruct (strict_equal nm _); [|discriminate].
        rewrite bind_lift_eq. destruct (includes _ _) as [[|]|e|]; discriminate.
      * rewrite bind_lift_eq.
        destruct (get_prop _ "name") as [nm|e'|]; try discriminate.
        destruct (strict_equal nm _); [|discriminate].
        rewrite bind_lift_eq. destruct (includes _ _) as [[|]|e'|]; discriminate.
  - rewrite bind_lift_eq.
    destruct (get_prop _ "name") as [nm|e|]; try discriminate.
    destruct (strict_equal nm _); [|discriminate].
    rewrite bind_lift_eq. destruct (includes _ _) as [[|]|e|]; discriminate.
Qed.

(** What the loop returns is the answer to its last query, which says
    [success]; the queries before it were followed by a reading of the clock
    and a wait each. *)
Lemma pollLoop_returned taskId onUpdate start fuel :
  forall (s s' : St) last result,
    pollLoop W fuel taskId onUpdate start last s = (Returns result, s') ->
    exists n data,
      observation (reply W taskId (length (sent s) + n))
      = Some (result, data, VStr "success")
      /\ sent s' = sent s ++ replicate (Datatypes.S n)
                                (queryTaskStatus_request taskId)
      /\ ticks s' = (ticks s + n)%nat
      /\ waits s' = waits s ++ replicate n pollingInterval.
Proof.
  induction fuel as [|fuel IH]; intros s s' last result; [discriminate|].
  rewrite pollLoop_S.
  destruct (pollIteration_cases taskId onUpdate start last s)
    as (r & s1 & Hit & Hsent & _ & Hcase).
  rewrite Hit.
  destruct (observation (reply W taskId (length (sent s))))
    as [[[result0 data] cur]|] eqn:Ho;
    [| destruct Hcase as ((e & ->) & _); discriminate].
  cbv zeta in Hcase. destruct Hcase as (_ & _ & Hcase).
  destruct (_.1) in Hcase; [destruct Hcase as (-> & _); discriminate|].
  destruct (strict_equal cur (VStr "success")) eqn:Hsucc.
  { destruct Hcase as (-> & Hticks & Hwaits). intros [= <- <-].
    apply strict_equal_string in Hsucc. subst cur.
    exists 0%nat, data. rewrite !Nat.add_0_r. simpl. rewrite app_nil_r. auto. }
  destruct (strict_equal cur (VStr "fail"));
    [destruct Hcase as (-> & _); discriminate|].
  destruct Hcase as (Hticks & Hcase).
  destruct (_ >? _); destruct Hcase as (-> & Hwaits); [discriminate|].
  intros Hrest.
  destruct (IH _ _ _ _ Hrest) as (n & data' & Ho' & Hsent' & Hticks' & Hwaits').
  exists (Datatypes.S n), data'.
  rewrite Hsent, length_app in Ho'. simpl in Ho'.
  replace (length (sent s) + Datatypes.S n)%nat
    with (length (sent s) + 1 + n)%nat by lia.
  split; [exact Ho'|].
  split; [rewrite Hsent', Hsent, <- app_assoc; reflexivity|].
  split; [lia|].
  rewrite Hwaits', Hwaits, <- app_assoc. reflexivity.
Qed.

(** What the [try] block returns, traced back to the answers of the
    server. *)
Lemma generateImage_try_returned fuel apiKey prompt options onProgress
    (s : St) v x :
  generateImage_try W fuel apiKey prompt options onProgress (s, VNull)
  = (Returns v, x) ->
  exists status body n result data imageData imageUrl,
    server W (length (sent s)) (createTask_request apiKey prompt options)
    = FetchResponds status (inl body)
    /\ response_ok status = true
    /\ x.2 = field (field body "data") "taskId"
    /\ truthy x.2 = true
    /\ sent x.1 = sent s ++ createTask_request apiKey prompt options
                       :: replicate (Datatypes.S n) (queryTaskStatus_request x.2)
    /\ observation (reply W x.2 (length (sent s) + 1 + n))
       = Some (result, data, VStr "success")
    /\ JSON_parse W (to_js_string (field data "resultJson")) = inl imageData
    /\ get_index (field imageData "resultUrls") 0 = Returns imageUrl
    /\ v = success_result x.2 imageUrl (field data "costTime")
                          (clock W (ticks s + 2 + n)).
Proof.
  unfold generateImage_try.
  (* onProgress({status: 'creating'}) *)
  rewrite bind_outer_eq.
  match goal with |- context [notify ?o ?ev s] =>
    destruct (notify_state o ev s) as (u0 & Hs0);
    destruct (notify o ev s) as [[[]|e|] s0]
  end; simpl in Hs0; try discriminate. subst s0.
  (* createTask *)
  rewrite bind_outer_eq.
  match goal with |- context [createTask W apiKey prompt options ?s0] =>
    destruct (createTask_ensures True apiKey prompt options s0) as (_ & _ & Q);
    destruct (createTask W apiKey prompt options s0) as [[body|e|] s1] eqn:Hcreate
  end; try discriminate.
  apply createTask_returned in Hcreate as (status & Hserver & Hok & ->).
  cbn [sent] in Hserver.
  specialize (Q body eq_refl). cbn [fst] in Q.
  assert (Hb : nullish body = false).
  { destruct body; try reflexivity; discriminate Q. }
  assert (Hd : nullish (field body "data") = false).
  { destruct (field body "data"); try reflexivity; discriminate Q. }
  rewrite bind_lift_eq, (get_prop_field_eq _ _ Hb).
  rewrite bind_lift_eq, (get_prop_field_eq _ _ Hd).
  set (taskId := field (field body "data") "taskId") in *.
  (* taskId = ...; activeTasks.set(...) *)
  unfold mbind at 1, M_bind at 1, set_local at 1.
  rewrite bind_outer_eq. unfold Date_now at 1.
  rewrite bind_outer_eq. unfold set_activeTasks at 1, modify at 1.
  cbn [requested activeTasks sent ticks waits updates user].
  (* onProgress({status: 'waiting'}) *)
  rewrite bind_outer_eq.
  match goal with |- context [notify ?o ?ev ?s3] =>
    destruct (notify_state o ev s3) as (u4 & Hs4);
    destruct (notify o ev s3) as [[[]|e|] s4]
  end; simpl in Hs4; try discriminate. subst s4.
  (* pollTaskUntilComplete *)
  rewrite bind_outer_eq, pollTaskUntilComplete_unfold.
  cbn [activeTasks sent ticks waits updates user].
  match goal with |- context [pollLoop W fuel taskId ?o ?start ?last ?s5] =>
    destruct (pollLoop W fuel taskId o start last s5) as [[result|e|] s6] eqn:Hpoll
  end; try discriminate.
  apply pollLoop_returned in Hpoll
    as (n & data & Ho & Hsent & Hticks & Hwaits).
  cbn [sent ticks waits] in Ho, Hsent, Hticks, Hwaits.
  rewrite length_app in Ho. cbn [length] in Ho.
  (* the result *)
  rewrite bind_lift_eq, (observation_result _ _ _ _ Ho).
  rewrite bind_lift_eq,
    (get_prop_field_eq _ _ (observation_data _ _ _ _ Ho)).
  unfold mbind at 1, M_bind at 1.
  destruct (JSON_parse W (to_js_string (field data "resultJson")))
    as [imageData|msg] eqn:Hparse; [|discriminate].
  unfold mret at 1, M_ret at 1.
  rewrite bind_lift_eq.
  destruct (get_prop imageData "resultUrls") as [urls|e|] eqn:Hurls;
    try discriminate.
  assert (Hfu : field imageData "resultUrls" = urls)
    by (unfold field; rewrite Hurls; reflexivity).
  rewrite bind_lift_eq.
  destruct (get_index urls 0) as [imageUrl|e|] eqn:Hurl; try discriminate.
  rewrite bind_outer_eq. unfold Date_now at 1. unfold mret, M_ret.
  intros [= <- <-]. cbn [fst snd sent].
  exists status, body, n, result, data, imageData, imageUrl.
  fold taskId. rewrite Hfu, Hsent, Hticks, <- app_assoc.
  replace (Datatypes.S (Datatypes.S (ticks s)) + n)%nat
    with (ticks s + 2 + n)%nat by lia.
  repeat split; auto.
Qed.

(** The [try] block when [createTask] throws, and when the polling throws. *)
Lemma generateImage_try_create_fails fuel apiKey prompt options onProgress
    (s : St) e s0 s1 :
  notify onProgress creating_event s = (Returns tt, s0) ->
  createTask W apiKey prompt options s0 = (Throws e, s1) ->
  generateImage_try W fuel apiKey prompt options onProgress (s, VNull)
  = (Throws e, (s1, VNull)).
Proof.
  intros Hnotify Hcreate.
  unfold generateImage_try. unfold creating_event in Hnotify.
  rewrite bind_outer_eq, Hnotify, bind_outer_eq, Hcreate. reflexivity.
Qed.

Lemma generateImage_try_poll_fails fuel apiKey prompt options onProgress
    (s : St) body e s0 s1 s4 s5 :
  notify onProgress creating_event s = (Returns tt, s0) ->
  createTask W apiKey prompt options s0 = (Returns body, s1) ->
  notify onProgress waiting_event
    (tracked W s1 (field (field body "data") "taskId") prompt)
  = (Returns tt, s4) ->
  pollTaskUntilComplete W fuel (field (field body "data") "taskId")
    (Some (progress_update W onProgress)) s4
  = (Throws e, s5) ->
  generateImage_try W fuel apiKey prompt options onProgress (s, VNull)
  = (Throws e, (s5, field (field body "data") "taskId")).
Proof.
  intros Hnotify Hcreate Hwaiting Hpoll.
  unfold generateImage_try. unfold creating_event in Hnotify.
  rewrite bind_outer_eq, Hnotify, bind_outer_eq, Hcreate.
  destruct (createTask_ensures True apiKey prompt options s0) as (_ & _ & Q).
  rewrite Hcreate in Q. specialize (Q body eq_refl). cbn [fst] in Q.
  assert (Hb : nullish body = false).
  { destruct body; try reflexivity; discriminate Q. }
  assert (Hd : nullish (field body "data") = false).
  { destruct (field body "data"); try reflexivity; discriminate Q. }
  rewrite bind_lift_eq, (get_prop_field_eq _ _ Hb).
  rewrite bind_lift_eq, (get_prop_field_eq _ _ Hd).
  unfold mbind at 1, M_bind at 1, set_local at 1.
  rewrite bind_outer_eq. unfold Date_now at 1.
  rewrite bind_outer_eq. unfold set_activeTasks at 1, modify at 1.
  unfold waiting_event, tracked in Hwaiting.
  rewrite bind_outer_eq. cbn [activeTasks sent ticks waits updates user].
  rewrite Hwaiting, bind_outer_eq, Hpoll. reflexivity.
Qed.

(** Claim C1, for progress callbacks that throw neither [null] nor
    [undefined].  [generateImage] throws nothing, and it returns as soon as
    the polling loop is given enough steps to reach the time limit.
    When its [try] block returns, the result is the success object with the
    fields of the claim: the job was created by a 2xx answer [body] to the
    creation request, the last of the [n + 1] status queries for it was
    answered with the state [success], and the result holds the identifier
    [body.data.taskId], as [imageUrl] the element 0 of [resultUrls] in the
    parsed [resultJson] of that answer, as [generationTime] its [costTime],
    and as [timestamp] the clock read at the end.
    When the block throws [e], the result is the failure object with
    [error] the [message] of [e] and the task identifier known at that
    point.  In particular a failure of [createTask] gives the identifier
    [null], and a failure of the polling gives the identifier of the job
    that was created. *)
Theorem generateImage_never_throws fuel apiKey prompt options onProgress (s : St) :
  polite_opt onProgress ->
  let '(r, s') := generateImage W fuel apiKey prompt options onProgress s in
  (forall v, r <> Throws v)
  /\ (late W s fuel -> r <> Pending)
  /\ match (generateImage_try W fuel apiKey prompt options onProgress
              (s, VNull)).1 with
     | Returns v =>
         r = Returns v
         /\ exists status body n result data imageData imageUrl,
             let taskId := field (field body "data") "taskId" in
             server W (length (sent s))
                    (createTask_request apiKey prompt options)
             = FetchResponds status (inl body)
             /\ response_ok status = true
             /\ truthy taskId = true
             /\ sent s' = sent s ++ createTask_request apiKey prompt options
                                :: replicate (Datatypes.S n)
                                     (queryTaskStatus_request taskId)
             /\ observation (reply W taskId (length (sent s) + 1 + n))
                = Some (result, data, VStr "success")
             /\ JSON_parse W (to_js_string (field data "resultJson"))
                = inl imageData
             /\ get_index (field imageData "resultUrls") 0 = Returns imageUrl
             /\ v = success_result taskId imageUrl (field data "costTime")
                                   (clock W (ticks s + 2 + n))
     | Throws e =>
         exists taskId,
           r = Returns (failure_result (field e "message") taskId)
     | Pending => r = Pending
     end
  /\ (forall e s0 s1,
        notify onProgress creating_event s = (Returns tt, s0) ->
        createTask W apiKey prompt options s0 = (Throws e, s1) ->
        r = Returns (failure_result (field e "message") VNull))
  /\ (forall body e s0 s1 s4 s5,
        notify onProgress creating_event s = (Returns tt, s0) ->
        createTask W apiKey prompt options s0 = (Returns body, s1) ->
        let taskId := field (field body "data") "taskId" in
        notify onProgress waiting_event (tracked W s1 taskId prompt)
        = (Returns tt, s4) ->
        pollTaskUntilComplete W fuel taskId
          (Some (progress_update W onProgress)) s4
        = (Throws e, s5) ->
        r = Returns (failure_result (field e "message") taskId)).
Proof.
  intros Hp. rewrite generateImage_unfold.
  pose proof (generateImage_try_post fuel apiKey prompt options onProgress s)
    as Hpost.
  pose proof (generateImage_try_create_fails fuel apiKey prompt options
                onProgress s) as Hcreate.
  pose proof (generateImage_try_poll_fails fuel apiKey prompt options
                onProgress s) as Hpoll.
  destruct (generateImage_try W fuel apiKey prompt options onProgress (s, VNull))
    as [[v|e|] [s1 t]] eqn:Htry; destruct Hpost as [Hcase Hthrown]; cbn [fst].
  - (* the [try] block returns *)
    split; [discriminate|]. split; [discriminate|].
    split; [|split].
    + split; [reflexivity|].
      destruct (generateImage_try_returned _ _ _ _ _ _ _ _ Htry)
        as (status & body & n & result & data & imageData & imageUrl
            & Hserver & Hok & Ht & Htruthy & Hsent & Ho & Hparse & Hurl & Hv).
      cbn [fst snd] in Ht, Htruthy, Hsent, Ho, Hv. subst t.
      exists status, body, n, result, data, imageData, imageUrl.
      cbv zeta. rewrite Htruthy. cbn [sent]. auto 10.
    + intros e s0 s2 H1 H2. discriminate (Hcreate e s0 s2 H1 H2).
    + intros body e s0 s2 s4 s5 H1 H2 H3 H4.
      discriminate (Hpoll body e s0 s2 s4 s5 H1 H2 H3 H4).
  - (* the [try] block throws *)
    specialize (Hthrown e eq_refl Hp).
    rewrite (get_prop_field_eq _ _ Hthrown).
    split; [discriminate|]. split; [discriminate|].
    split; [exists t; reflexivity|]. split.
    + intros e' s0 s2 H1 H2.
      pose proof (Hcreate e' s0 s2 H1 H2) as [= <- <- <-]. reflexivity.
    + intros body e' s0 s2 s4 s5 H1 H2 H3 H4.
      pose proof (Hpoll body e' s0 s2 s4 s5 H1 H2 H3 H4) as [= <- <- <-].
      reflexivity.
  - (* out of fuel *)
    split; [discriminate|]. split.
    { intros Hlate.
      destruct Hcase as [(_ & _ & _ & Hnp) | (_ & _ & _ & Hnp)];
        [exact Hnp | exact (Hnp Hlate)]. }
    split; [reflexivity|]. split.
    + intros e s0 s2 H1 H2. discriminate (Hcreate e s0 s2 H1 H2).
    + intros body e s0 s2 s4 s5 H1 H2 H3 H4.
      discriminate (Hpoll body e s0 s2 s4 s5 H1 H2 H3 H4).
Qed.

End ApiFrames.

(** ** Concrete runs *)

(** Claim C1 does not hold for every callback: without network and with a
    progress callback that throws [null], the handler reads [message] of
    [null] and [generateImage] throws a [TypeError]. *)
Lemma generateImage_rethrows_null :
  (generateImage idle_world 0 (VStr "abc1234567") (VStr "test") VUndefined
     (Some throws_null) (initial tt)).1
  = Throws (TypeError "Cannot read properties of null (reading 'message')").
Proof. vm_compute. reflexivity. Qed.

(** Claim C2 does not hold for the state names of the specification: a poll
    that observes [succeeded] does not end the loop, whatever the number of
    steps; the loop goes on and returns at the next answer, which says
    [success]. *)
Lemma poll_ignores_succeeded :
  observation (reply renamed_world (VStr "task-1") 0)
  = Some (status_body "succeeded", field (status_body "succeeded") "data",
          VStr "succeeded")
  /\ (forall fuel,
        (pollTaskUntilComplete (U:=unit) renamed_world fuel (VStr "task-1") None
           (initial tt)).1
        <> Returns (status_body "succeeded"))
  /\ (pollTaskUntilComplete (U:=unit) renamed_world 2 (VStr "task-1") None
        (initial tt)).1
     = Returns success_body.
Proof.
  split; [vm_compute; reflexivity|]. split; [|vm_compute; reflexivity].
  intros [|[|fuel]]; [vm_compute; discriminate ..|].
  rewrite pollTaskUntilComplete_unfold, !pollLoop_S.
  vm_compute. discriminate.
Qed.

(** Claim C4 does not hold for every run in which the ceiling passes before
    a terminal state is observed.  The first poll observes [running], and
    the clock read after it is 299999 ms past the start: the loop waits its
    2000 ms.  The second poll is made past the ceiling; it observes
    [success], and the loop returns its answer: the state is tested before
    the clock is read, and no timeout is raised. *)
Lemma poll_returns_after_ceiling :
  nonterminal (reply late_world (VStr "task-1") 0)
  /\ clock late_world 1 - clock late_world 0 <= maxPollingTime
  /\ clock late_world 1 + pollingInterval - clock late_world 0 > maxPollingTime
  /\ let '(r, s') := pollTaskUntilComplete (U:=unit) late_world 5 (VStr "task-1")
                       None (initial tt) in
     r = Returns success_body
     /\ sent s' = replicate 2 (queryTaskStatus_request (VStr "task-1"))
     /\ waits s' = [pollingInterval]
     /\ clock late_world (ticks s') - clock late_world 0 > maxPollingTime.
Proof.
  split.
  { exists (status_body "running"), (field (status_body "running") "data"),
      (VStr "running"). repeat split; reflexivity. }
  split; [vm_compute; discriminate|].
  split; [vm_compute; reflexivity|].
  vm_compute. repeat split; reflexivity.
Qed.

(** *** The theorems at work *)

(** A job that stays [running] while every reading of the clock is 140
    seconds after the one before: the third poll is the last. *)
Lemma poll_timeout_witness :
  let '(r, s') := pollTaskUntilComplete (U:=unit) slow_world 3 (VStr "task-1")
                    None (initial tt) in
  r = Throws (Error "Task polling timeout")
  /\ sent s' = replicate 3 (queryTaskStatus_request (VStr "task-1"))
  /\ waits s' = [pollingInterval; pollingInterval]
  /\ ticks s' = 4%nat.
Proof.
  apply (poll_timeout slow_world (VStr "task-1") None (initial tt) 2 3).
  - intros f Hf. discriminate Hf.
  - intros k _. exists (status_body "running"), (field (status_body "running") "data"),
      (VStr "running"). repeat split; reflexivity.
  - intros k Hk. unfold maxPollingTime. cbn [clock slow_world ticks initial]. lia.
  - vm_compute. reflexivity.
  - lia.
Defined.

(** A server that answers [succeeded] and then [success]. *)
Lemma poll_first_terminal_witness :
  (pollTaskUntilComplete (U:=unit) renamed_world 2 (VStr "task-1") None
     (initial tt)).1
  = Returns success_body.
Proof.
  pose proof (poll_first_terminal renamed_world (VStr "task-1") None (initial tt)
                1 success_body (field success_body "data") (VStr "success") 2) as H.
  destruct (pollTaskUntilComplete _ _ _ _ _) as [r s'].
  apply H; try reflexivity.
  - intros f Hf. discriminate Hf.
  - intros k Hk. assert (k = 0)%nat as -> by lia.
    exists (status_body "succeeded"), (field (status_body "succeeded") "data"),
      (VStr "succeeded"). repeat split; reflexivity.
  - intros k Hk. vm_compute. discriminate.
  - lia.
Defined.

(** What the recording callback holds after a sequence of calls. *)
Lemma run_callback_recorder calls u : run_callback recorder calls u = u ++ calls.
Proof.
  revert u. induction calls as [|v calls IH]; intros u; simpl.
  - rewrite app_nil_r. reflexivity.
  - rewrite IH, <- app_assoc. reflexivity.
Qed.

(** The six states of the example, with a callback that records its
    arguments: what it has recorded at the end are the four calls. *)
Lemma onUpdate_once_per_run_witness :
  map state_name
      (user (pollTaskUntilComplete example_world 6 (VStr "task-1")
               (Some recorder) (initial [])).2)
  = ["queued"; "running"; "processing"; "succeeded"].
Proof.
  destruct (onUpdate_once_per_run example_world 6 (VStr "task-1") recorder
              (initial [])) as (calls & _ & Huser & _ & Hexample).
  - vm_compute. repeat constructor; eexists; reflexivity.
  - rewrite Huser, run_callback_recorder. apply Hexample.
    vm_compute. reflexivity.
Defined.

(** A job that is created, polled three times and succeeds. *)
Lemma generateImage_untracks_witness :
  let '(r, s') := generateImage (U:=unit) happy_world 5 (VStr "abc1234567")
                    (VStr "test") VUndefined None (initial tt) in
  r <> Pending
  /\ Map_has (VStr "task-1") (activeTasks s') = false
  /\ activeTasks s' = [].
Proof.
  pose proof (generateImage_untracks happy_world 5 (VStr "abc1234567")
                (VStr "test") VUndefined None (initial tt)) as H.
  assert (Hr : (generateImage (U:=unit) happy_world 5 (VStr "abc1234567")
                  (VStr "test") VUndefined None (initial tt)).1
               = Returns (success_result (VStr "task-1") (VStr "https://x/y.png")
                            (VNum 4200) 8000)).
  { vm_compute. reflexivity. }
  destruct (generateImage _ _ _ _ _ _ _) as [r s']. simpl in Hr. subst r.
  split; [discriminate|].
  destruct H as [(taskId & _ & Htasks & Hhas & Hid)|(Htasks & Hid)];
    [discriminate | |].
  - specialize (Hid _ eq_refl). vm_compute in Hid. subst taskId.
    split; [exact Hhas | exact Htasks].
  - specialize (Hid _ eq_refl). vm_compute in Hid. discriminate Hid.
Defined.

(** The same job, with a callback that records the progress events. *)
Lemma generateImage_never_throws_witness :
  let r := (generateImage happy_world 5 (VStr "abc1234567") (VStr "test")
              VUndefined (Some recorder) (initial [])).1 in
  r = Returns (success_result (VStr "task-1") (VStr "https://x/y.png")
                 (VNum 4200) 8000)
  /\ forall v, r <> Throws v.
Proof.
  cbv zeta.
  pose proof (generateImage_never_throws happy_world 5 (VStr "abc1234567")
                (VStr "test") VUndefined (Some recorder) (initial [])) as H.
  destruct (generateImage _ _ _ _ _ _ _) as [r s'] eqn:Hrun.
  destruct H as (Hthrows & _).
  - intros f [= <-] v u e He. discriminate He.
  - split; [|exact Hthrows].
    apply (f_equal fst) in Hrun. rewrite <- Hrun. vm_compute. reflexivity.
Defined.

(** *** The rest of the client *)

Ltac run_pure :=
  repeat first
    [ rewrite bind_lift_eq
    | match goal with
      | |- context [match ?x with
                    | Returns _ => _ | Throws _ => _ | Pending => _
                    end] => destruct x
      | |- context [if ?b then _ else _] => destruct b
      end ];
  try reflexivity.

Section MoreFacts.
Context {U : Type} (W : World).
Abbreviation St := (State U).
#[local] Abbreviation calm := (@Api.calm U).
#[local] Abbreviation fires := (@Api.fires U).
#[local] Abbreviation quiet_callback := (@Api.quiet_callback U).

(** What a 2xx answer with a task identifier gives. *)
Lemma createTask_accepted apiKey prompt options (s : St) status body :
  server W (length (sent s)) (createTask_request apiKey prompt options)
  = FetchResponds status (inl body) ->
  response_ok status = true ->
  truthy (field (field body "data") "taskId") = true ->
  createTask W apiKey prompt options s
  = (Returns body, requested s (createTask_request apiKey prompt options)).
Proof.
  intros Hserver Hok Hid.
  unfold createTask, try_catch. unfold mbind at 1, M_bind at 1, fetch at 1.
  rewrite Hserver, Hok. cbn [negb].
  rewrite bind_lift_eq.
  destruct (get_prop body "data") as [d|e|] eqn:Hd.
  - assert (Hfd : field body "data" = d) by (unfold field; rewrite Hd; reflexivity).
    rewrite Hfd in Hid.
    assert (Hd' : truthy d = true).
    { destruct d; try reflexivity; simpl in Hid; discriminate Hid. }
    rewrite Hd', Hid. reflexivity.
  - unfold field in Hid. rewrite Hd in Hid. discriminate.
  - exfalso. eapply get_prop_settles, Hd.
Qed.

(** Property X2.  When the server answers the creation request with
    a 2xx status and a body whose [data.taskId] is truthy, [createTask]
    returns that body unchanged, and the request is the only effect. *)
Theorem createTask_returns_body apiKey prompt options (s : St) status body :
  server W (length (sent s)) (createTask_request apiKey prompt options)
  = FetchResponds status (inl body) ->
  response_ok status = true ->
  truthy (field (field body "data") "taskId") = true ->
  createTask W apiKey prompt options s
  = (Returns body, requested s (createTask_request apiKey prompt options)).
Proof. exact (createTask_accepted apiKey prompt options s status body). Qed.

(** Property X1.  The request that [createTask] sends is a POST to
    [/jobs/createTask] with the key as bearer token.  In its [input], [prompt]
    is the prompt of the call whatever [options] holds under that name; every
    other member is the one of [options] when [options] has it, and the
    default otherwise. *)
Theorem createTask_request_precedence apiKey prompt options :
  let r := createTask_request apiKey prompt options in
  req_method r = "POST"
  /\ req_url r = apiBaseUrl +:+ "/jobs/createTask"
  /\ req_headers r = [("Authorization", "Bearer " +:+ to_js_string apiKey);
                      ("Content-Type", "application/json")]
  /\ exists body input,
      req_body r = Some body
      /\ field body "model" = VStr modelName
      /\ field body "callBackUrl" = VNull
      /\ field body "input" = VObj input
      /\ input !! "prompt" = Some prompt
      /\ forall k, k <> "prompt" ->
           input !! k = match spread options !! k with
                        | Some v => Some v
                        | None => defaultOptions !! k
                        end.
Proof.
  cbv zeta. unfold createTask_request. cbn [req_method req_url req_headers req_body].
  repeat split.
  eexists _, _. split; [reflexivity|]. repeat split.
  - apply lookup_insert_eq.
  - intros k Hk. rewrite lookup_insert_ne by congruence.
    rewrite lookup_union.
    assert (Hsp : spread (match options with VUndefined => VObj ∅ | o => o end)
                  = spread options) by (destruct options; reflexivity).
    rewrite Hsp.
    destruct (spread options !! k), (defaultOptions !! k); reflexivity.
Qed.

(** What a rejected request gives. *)
Lemma createTask_fetch_rejected apiKey prompt options (s : St) name message :
  server W (length (sent s)) (createTask_request apiKey prompt options)
  = FetchRejects name message ->
  createTask W apiKey prompt options s
  = (Throws (if String.eqb name "TypeError" && is_substring "fetch" message
             then Error "网络连接失败，请检查网络连接或API地址是否正确"
             else new_error name message),
     requested s (createTask_request apiKey prompt options)).
Proof.
  intros Hserver.
  unfold createTask, try_catch. unfold mbind at 1, M_bind at 1, fetch at 1.
  rewrite Hserver. cbv iota beta.
  rewrite bind_lift_eq.
  change (get_prop (new_error name message) "name") with (Returns (VStr name)).
  cbv iota beta. cbn [strict_equal].
  destruct (String.eqb name "TypeError"); [|reflexivity].
  rewrite bind_lift_eq.
  change (field (new_error name message) "message") with (VStr message).
  cbn [includes andb].
  destruct (is_substring "fetch" message); reflexivity.
Qed.

(** Property X3.  When the creation request is rejected,
    [createTask] throws.  A [TypeError] whose message contains [fetch] is
    replaced by an [Error] with the fixed network message; any other error is
    thrown again as it is.  One request has been sent. *)
Theorem createTask_network_failure apiKey prompt options (s : St) name message :
  server W (length (sent s)) (createTask_request apiKey prompt options)
  = FetchRejects name message ->
  createTask W apiKey prompt options s
  = (Throws (if String.eqb name "TypeError" && is_substring "fetch" message
             then Error "网络连接失败，请检查网络连接或API地址是否正确"
             else new_error name message),
     requested s (createTask_request apiKey prompt options)).
Proof. exact (createTask_fetch_rejected apiKey prompt options s name message). Qed.

Lemma prefix_append a b : String.prefix a (a +:+ b) = true.
Proof.
  induction a as [|c a IH]; simpl; [destruct b; reflexivity|].
  destruct (Ascii.ascii_dec c c); [exact IH | congruence].
Qed.

Lemma prefix_refl a : String.prefix a a = true.
Proof.
  induction a as [|c a IH]; simpl; [reflexivity|].
  destruct (Ascii.ascii_dec c c); [exact IH | congruence].
Qed.

Lemma prefix_trans_append a b c :
  String.prefix a b = true -> String.prefix a (b +:+ c) = true.
Proof.
  revert b. induction a as [|x a IH]; intros b;
    [intros _; simpl; destruct (b +:+ c); reflexivity|].
  destruct b as [|y b]; simpl; [discriminate|].
  destruct (Ascii.ascii_dec x y); [apply IH | discriminate].
Qed.

(** The error object [handleApiError] builds for a body that is not null. *)
Lemma handleApiError_fields status body :
  nullish body = false ->
  exists e message,
    handleApiError status body = Returns e
    /\ field e "name" = VStr "Error"
    /\ field e "message" = VStr message
    /\ field e "status" = VNum status
    /\ field e "data" = body
    /\ field e "code" = js_or (field body "code") (field body "failCode")
    /\ (truthy (field body "msg") = true ->
        String.prefix (to_js_string (field body "msg")) message = true).
Proof.
  intros Hb. unfold handleApiError.
  rewrite (get_prop_field_eq _ _ Hb). cbn [mbind outcome_bind mret outcome_ret].
  eexists _, _. split; [reflexivity|].
  repeat split.
  intros Hmsg.
  assert (Hj : forall x, js_or (field body "msg") x = field body "msg")
    by (intros x; unfold js_or; rewrite Hmsg; reflexivity).
  rewrite !Hj.
  destruct (truthy (field body "failMsg")), (truthy (field body "failCode"));
    cbn [to_js_string];
    repeat (apply prefix_trans_append); apply prefix_refl.
Qed.

(** Property X4.  A 2xx answer whose body has no truthy
    [data.taskId] makes [createTask] throw the format error, although the
    request succeeded. *)
Theorem createTask_missing_taskId apiKey prompt options (s : St) status body :
  server W (length (sent s)) (createTask_request apiKey prompt options)
  = FetchResponds status (inl body) ->
  response_ok status = true ->
  nullish body = false ->
  truthy (field (field body "data") "taskId") = false ->
  createTask W apiKey prompt options s
  = (Throws (Error "API响应格式错误：缺少taskId"),
     requested s (createTask_request apiKey prompt options)).
Proof.
  intros Hserver Hok Hb Hid.
  unfold createTask, try_catch. unfold mbind at 1, M_bind at 1, fetch at 1.
  rewrite Hserver, Hok. cbn [negb].
  rewrite bind_lift_eq, (get_prop_field_eq _ _ Hb). cbv iota beta.
  rewrite Hid. cbn [negb]. rewrite orb_true_r.
  reflexivity.
Qed.

(** Property X5.  After an answer outside 2xx with a body that is
    not [null], [createTask] and [queryTaskStatus] throw the same error: an
    [Error] whose [status] is the HTTP status and whose [data] is the body;
    when the body has a truthy [msg], the message starts with it. *)
Theorem http_error_carries_status (s : St) r status body :
  server W (length (sent s)) r = FetchResponds status (inl body) ->
  response_ok status = false ->
  nullish body = false ->
  exists e message,
    field e "name" = VStr "Error"
    /\ field e "message" = VStr message
    /\ field e "status" = VNum status
    /\ field e "data" = body
    /\ (truthy (field body "msg") = true ->
        String.prefix (to_js_string (field body "msg")) message = true)
    /\ (forall apiKey prompt options,
          r = createTask_request apiKey prompt options ->
          createTask W apiKey prompt options s = (Throws e, requested s r))
    /\ (forall taskId,
          r = queryTaskStatus_request taskId ->
          queryTaskStatus W taskId s = (Throws e, requested s r)).
Proof.
  intros Hserver Hok Hb.
  destruct (handleApiError_fields status body Hb)
    as (e & message & He & Hname & Hmessage & Hstatus & Hdata & _ & Hprefix).
  exists e, message. repeat split; try assumption.
  - intros apiKey prompt options ->.
    unfold createTask, try_catch. unfold mbind at 1, M_bind at 1, fetch at 1.
    rewrite Hserver, Hok. cbn [negb].
    rewrite bind_lift_eq, He. unfold throw at 1.
    rewrite bind_lift_eq.
    assert (Hn : get_prop e "name" = Returns (VStr "Error")).
    { rewrite get_prop_field_eq, Hname; [reflexivity|].
      destruct e; try reflexivity; discriminate Hname. }
    rewrite Hn. reflexivity.
  - intros taskId ->.
    unfold queryTaskStatus, try_catch. unfold mbind at 1, M_bind at 1, fetch at 1.
    rewrite Hserver, Hok. cbn [negb].
    rewrite bind_lift_eq, He. reflexivity.
Qed.

Lemma quiet_calm o : quiet_callback o -> calm o.
Proof. intros Hq f Hf v u _. apply (Hq f Hf). Qed.

Lemma progress_update_calm onProgress :
  calm onProgress -> calm (Some (progress_update W onProgress)).
Proof.
  intros Hc f [= <-] v u Hv. unfold progress_update.
  destruct onProgress as [g|]; [|reflexivity].
  rewrite (get_prop_field_eq _ _ Hv). apply (Hc g eq_refl). reflexivity.
Qed.

(** [n] turns over non-terminal answers, for a callback that is calm. *)
Lemma pollLoop_calm taskId onUpdate start n :
  calm onUpdate ->
  forall (s : St) last fuel,
    (forall k, (k < n)%nat -> nonterminal (reply W taskId (length (sent s) + k))) ->
    (forall k, (k < n)%nat -> clock W (ticks s + k) - start <= maxPollingTime) ->
    exists s1 last1,
      pollLoop W (n + fuel) taskId onUpdate start last s
      = pollLoop W fuel taskId onUpdate start last1 s1
      /\ sent s1 = sent s ++ replicate n (queryTaskStatus_request taskId)
      /\ ticks s1 = (ticks s + n)%nat
      /\ waits s1 = waits s ++ replicate n pollingInterval
      /\ activeTasks s1 = activeTasks s
      /\ (n = 0%nat -> last1 = last).
Proof.
  intros Hq. induction n as [|n IH]; intros s last fuel Hobs Hclock.
  - exists s, last. simpl. rewrite !app_nil_r, Nat.add_0_r. auto 10.
  - destruct (pollIteration_cases W taskId onUpdate start last s)
      as (r & s1 & Hit & Hsent & Htasks & Hcase).
    destruct (Hobs 0%nat ltac:(lia)) as (result & data & cur & Ho & Hs & Hf).
    rewrite Nat.add_0_r in Ho. rewrite Ho in Hcase. cbv zeta in Hcase.
    destruct Hcase as (Hupd & Huser & Hcase).
    assert (Hcb : (match onUpdate with
                   | Some f => if fires onUpdate cur last then f data (user s)
                               else (None, user s)
                   | None => (None, user s)
                   end).1 = None).
    { destruct onUpdate as [f|]; [|reflexivity].
      destruct (fires _ _ _); [|reflexivity].
      apply (Hq f eq_refl). eapply observation_data, Ho. }
    rewrite Hcb, Hs, Hf in Hcase. destruct Hcase as (Hticks & Hcase).
    specialize (Hclock 0%nat ltac:(lia)) as Hc0. rewrite Nat.add_0_r in Hc0.
    destruct (clock W (ticks s) - start >? maxPollingTime) eqn:Hgt;
      [apply Z.gtb_lt in Hgt; lia|].
    destruct Hcase as (-> & Hwaits).
    destruct (IH s1 (if fires onUpdate cur last then cur else last) fuel)
      as (s2 & last2 & Heq & Hsent2 & Hticks2 & Hwaits2 & Htasks2 & _).
    { intros k Hk. rewrite Hsent, length_app. simpl.
      replace (length (sent s) + 1 + k)%nat with (length (sent s) + Datatypes.S k)%nat by lia.
      apply Hobs. lia. }
    { intros k Hk. rewrite Hticks.
      replace (Datatypes.S (ticks s) + k)%nat with (ticks s + Datatypes.S k)%nat by lia.
      apply Hclock. lia. }
    exists s2, last2. split; [|split; [|split; [|split; [|split]]]].
    + change (Datatypes.S n + fuel)%nat with (Datatypes.S (n + fuel)).
      rewrite pollLoop_S, Hit. exact Heq.
    + rewrite Hsent2, Hsent, <- app_assoc. reflexivity.
    + lia.
    + rewrite Hwaits2, Hwaits, <- app_assoc. reflexivity.
    + congruence.
    + discriminate.
Qed.

(** The call up to its last turn. *)
Lemma poll_last_turn taskId onUpdate (s : St) n fuel :
  calm onUpdate ->
  (forall k, (k < n)%nat -> nonterminal (reply W taskId (length (sent s) + k))) ->
  (forall k, (k < n)%nat ->
     clock W (ticks s + 1 + k) - clock W (ticks s) <= maxPollingTime) ->
  (n < fuel)%nat ->
  exists s1 last1,
    pollTaskUntilComplete W fuel taskId onUpdate s
    = pollLoop W (Datatypes.S (fuel - n - 1)) taskId onUpdate (clock W (ticks s))
        last1 s1
    /\ sent s1 = sent s ++ replicate n (queryTaskStatus_request taskId)
    /\ ticks s1 = (ticks s + 1 + n)%nat
    /\ waits s1 = waits s ++ replicate n pollingInterval
    /\ activeTasks s1 = activeTasks s
    /\ (n = 0%nat -> last1 = VNull).
Proof.
  intros Hq Hobs Hin Hfuel.
  rewrite pollTaskUntilComplete_unfold.
  set (s0 := mkState _ _ _ _ _ _).
  destruct (pollLoop_calm taskId onUpdate (clock W (ticks s)) n Hq s0 VNull
              (Datatypes.S (fuel - n - 1)))
    as (s1 & last1 & Heq & Hsent & Hticks & Hwaits & Htasks & Hlast).
  { intros k Hk. apply Hobs. lia. }
  { intros k Hk. simpl.
    replace (Datatypes.S (ticks s + k)) with (ticks s + 1 + k)%nat by lia.
    apply Hin, Hk. }
  exists s1, last1.
  split; [etransitivity; [|exact Heq]; f_equal; lia|].
  split; [exact Hsent|]. split; [rewrite Hticks; simpl; lia|].
  split; [exact Hwaits|]. split; [exact Htasks | exact Hlast].
Qed.

Lemma pollIteration_rejected taskId onUpdate start last (s : St) name message :
  reply W taskId (length (sent s)) = FetchRejects name message ->
  pollIteration W taskId onUpdate start last s
  = (Throws (new_error name message),
     requested s (queryTaskStatus_request taskId)).
Proof.
  unfold reply. intros Hr.
  unfold pollIteration, try_catch. unfold mbind at 1, M_bind at 1.
  unfold queryTaskStatus, try_catch. unfold mbind at 1, M_bind at 1, fetch at 1.
  rewrite Hr. reflexivity.
Qed.

(** Property X6.  The polling does not retry.  When the [n+1]-th
    status request is rejected after [n] polls that went on, the error of
    that request is thrown as it is, after [n+1] requests and [n] waits, and
    the task map is untouched. *)
Theorem poll_rejection_aborts taskId onUpdate (s : St) n name message fuel :
  calm onUpdate ->
  (forall k, (k < n)%nat -> nonterminal (reply W taskId (length (sent s) + k))) ->
  (forall k, (k < n)%nat ->
     clock W (ticks s + 1 + k) - clock W (ticks s) <= maxPollingTime) ->
  reply W taskId (length (sent s) + n) = FetchRejects name message ->
  (n < fuel)%nat ->
  let '(r, s') := pollTaskUntilComplete W fuel taskId onUpdate s in
  r = Throws (new_error name message)
  /\ sent s' = sent s ++ replicate (Datatypes.S n) (queryTaskStatus_request taskId)
  /\ waits s' = waits s ++ replicate n pollingInterval
  /\ activeTasks s' = activeTasks s.
Proof.
  intros Hq Hobs Hin Hrej Hfuel.
  destruct (poll_last_turn taskId onUpdate s n fuel Hq Hobs Hin Hfuel)
    as (s1 & last1 & -> & Hsent & Hticks & Hwaits & Htasks & _).
  rewrite pollLoop_S, (pollIteration_rejected _ _ _ _ _ name message).
  - cbn [requested sent waits activeTasks].
    rewrite Hsent, Hwaits, Htasks, replicate_S_end, app_assoc. auto.
  - rewrite Hsent, length_app, length_replicate. exact Hrej.
Qed.

(** Property X7.  An error thrown by [onUpdate] ends the polling:
    when the first status is reported to a callback that throws [e],
    [pollTaskUntilComplete] throws [e] after that one request, without
    waiting. *)
Theorem poll_callback_error_aborts taskId f (s : St) result data cur e u fuel :
  observation (reply W taskId (length (sent s))) = Some (result, data, cur) ->
  strict_equal cur VNull = false ->
  f data (user s) = (Some e, u) ->
  (0 < fuel)%nat ->
  pollTaskUntilComplete W fuel taskId (Some f) s
  = (Throws e,
     mkState (activeTasks s) (sent s ++ [queryTaskStatus_request taskId])
             (Datatypes.S (ticks s)) (waits s) (updates s ++ [data]) u).
Proof.
  intros Ho Hcur Hf Hfuel.
  rewrite pollTaskUntilComplete_unfold.
  destruct fuel as [|fuel]; [lia|].
  rewrite pollLoop_S.
  set (s0 := mkState _ _ _ _ _ _).
  destruct (pollIteration_cases W taskId (Some f) (clock W (ticks s)) VNull s0)
    as (r & s1 & Hit & Hsent & Htasks & Hcase).
  rewrite Hit.
  change (sent s0) with (sent s) in Hcase, Hsent.
  rewrite Ho in Hcase. cbv zeta in Hcase.
  unfold Api.fires in Hcase. rewrite Hcur in Hcase. cbn [negb] in Hcase.
  change (user s0) with (user s) in Hcase. rewrite Hf in Hcase.
  destruct Hcase as (Hupd & Huser & -> & Hticks & Hwaits).
  destruct s1 as [a1 b1 c1 d1 e1 f1]. simpl in *.
  subst. reflexivity.
Qed.

Lemma notify_calm onProgress ev (s : St) :
  calm onProgress -> nullish ev = false ->
  exists u,
    notify onProgress ev s
    = (Returns tt, mkState (activeTasks s) (sent s) (ticks s) (waits s)
                           (updates s) u).
Proof.
  intros Hc Hev. destruct onProgress as [f|]; simpl.
  - unfold call. pose proof (Hc f eq_refl ev (user s) Hev) as Hf.
    destruct (f ev (user s)) as [[e|] u]; [discriminate Hf|]. eauto.
  - exists (user s). destruct s; reflexivity.
Qed.

(** Property X8.  When the creation request is rejected,
    [generateImage] returns a failure whose [taskId] is [null] and whose
    [error] is the message [createTask] threw; it has sent that one request,
    has not waited, and the task map is the one from before. *)
Theorem generateImage_network_failure fuel apiKey prompt options onProgress
    (s : St) name message :
  calm onProgress ->
  server W (length (sent s)) (createTask_request apiKey prompt options)
  = FetchRejects name message ->
  let '(r, s') := generateImage W fuel apiKey prompt options onProgress s in
  r = Returns (failure_result
                 (VStr (if String.eqb name "TypeError"
                           && is_substring "fetch" message
                        then "网络连接失败，请检查网络连接或API地址是否正确"
                        else message))
                 VNull)
  /\ sent s' = sent s ++ [createTask_request apiKey prompt options]
  /\ waits s' = waits s
  /\ activeTasks s' = activeTasks s.
Proof.
  intros Hc Hserver.
  rewrite generateImage_unfold. unfold generateImage_try.
  rewrite bind_outer_eq.
  match goal with |- context [notify ?o ?ev s] =>
    destruct (notify_calm o ev s Hc eq_refl) as (u1 & ->)
  end.
  rewrite bind_outer_eq.
  set (s1 := mkState _ _ _ _ _ u1).
  rewrite (createTask_fetch_rejected apiKey prompt options s1 name message)
    by exact Hserver.
  cbn [truthy]. cbn [requested s1 sent waits activeTasks].
  destruct (String.eqb name "TypeError" && is_substring "fetch" message);
    cbn [get_prop]; auto.
Qed.

(** The last turn of a call, when it observes [success] or [fail]. *)
Lemma poll_terminal_calm taskId onUpdate (s : St) n result data cur fuel :
  calm onUpdate ->
  (forall k, (k < n)%nat -> nonterminal (reply W taskId (length (sent s) + k))) ->
  (forall k, (k < n)%nat ->
     clock W (ticks s + 1 + k) - clock W (ticks s) <= maxPollingTime) ->
  observation (reply W taskId (length (sent s) + n)) = Some (result, data, cur) ->
  cur = VStr "success" \/ cur = VStr "fail" ->
  (n < fuel)%nat ->
  exists s',
    pollTaskUntilComplete W fuel taskId onUpdate s
    = (if strict_equal cur (VStr "success") then Returns result
       else Throws (Error ("Task failed: "
                             +:+ to_js_string (js_or (field data "failMsg")
                                                     (VStr "Unknown error")))),
       s')
    /\ sent s' = sent s ++ replicate (Datatypes.S n) (queryTaskStatus_request taskId)
    /\ ticks s' = (ticks s + 1 + n)%nat
    /\ waits s' = waits s ++ replicate n pollingInterval
    /\ activeTasks s' = activeTasks s.
Proof.
  intros Hq Hobs Hin Ho Hcur Hfuel.
  destruct (poll_last_turn taskId onUpdate s n fuel Hq Hobs Hin Hfuel)
    as (s1 & last1 & -> & Hsent & Hticks & Hwaits & Htasks & _).
  rewrite pollLoop_S.
  destruct (pollIteration_cases W taskId onUpdate (clock W (ticks s)) last1 s1)
    as (r & s2 & Hit & Hsent2 & Htasks2 & Hcase).
  rewrite Hit.
  rewrite Hsent, length_app, length_replicate, Ho in Hcase. cbv zeta in Hcase.
  destruct Hcase as (Hupd & Huser & Hcase).
  assert (Hcb : (match onUpdate with
                 | Some f => if fires onUpdate cur last1 then f data (user s1)
                             else (None, user s1)
                 | None => (None, user s1)
                 end).1 = None).
  { destruct onUpdate as [f|]; [|reflexivity].
    destruct (fires _ _ _); [|reflexivity].
    apply (Hq f eq_refl). eapply observation_data, Ho. }
  rewrite Hcb in Hcase.
  assert (Hs2 : sent s2 = sent s ++ replicate (Datatypes.S n)
                                      (queryTaskStatus_request taskId)).
  { rewrite Hsent2, Hsent, replicate_S_end, app_assoc. reflexivity. }
  destruct Hcur as [-> | ->]; cbn [strict_equal String.eqb Ascii.eqb Bool.eqb] in *;
    destruct Hcase as (-> & Ht & Hw); exists s2;
    (split; [reflexivity|]); repeat split; congruence.
Qed.

(** The [try] block up to the polling: the job is created and tracked. *)
Lemma generateImage_try_created fuel apiKey prompt options onProgress (s : St)
    status body :
  calm onProgress ->
  server W (length (sent s)) (createTask_request apiKey prompt options)
  = FetchResponds status (inl body) ->
  response_ok status = true ->
  truthy (field (field body "data") "taskId") = true ->
  exists s4 info,
    sent s4 = sent s ++ [createTask_request apiKey prompt options]
    /\ ticks s4 = Datatypes.S (ticks s)
    /\ waits s4 = waits s
    /\ activeTasks s4
       = Map_set (field (field body "data") "taskId") info (activeTasks s)
    /\ generateImage_try W fuel apiKey prompt options onProgress (s, VNull)
       = (outer (pollTaskUntilComplete W fuel (field (field body "data") "taskId")
                   (Some (progress_update W onProgress)))
            ≫= generateImage_finish W (field (field body "data") "taskId"))
           (s4, field (field body "data") "taskId").
Proof.
  intros Hc Hserver Hok Hid.
  unfold generateImage_try.
  rewrite bind_outer_eq.
  match goal with |- context [notify ?o ?ev s] =>
    destruct (notify_calm o ev s Hc eq_refl) as (u1 & ->)
  end.
  rewrite bind_outer_eq.
  set (s1 := mkState _ _ _ _ _ u1).
  rewrite (createTask_accepted apiKey prompt options s1 status body)
    by assumption.
  assert (Hb : nullish body = false).
  { destruct body; try reflexivity; discriminate Hid. }
  rewrite bind_lift_eq, (get_prop_field_eq _ _ Hb).
  assert (Hd : nullish (field body "data") = false).
  { destruct (field body "data"); try reflexivity; discriminate Hid. }
  rewrite bind_lift_eq, (get_prop_field_eq _ _ Hd).
  set (taskId := field (field body "data") "taskId") in *.
  unfold mbind at 1, M_bind at 1, set_local at 1.
  rewrite bind_outer_eq. unfold Date_now at 1.
  rewrite bind_outer_eq. unfold set_activeTasks at 1, modify at 1.
  rewrite bind_outer_eq.
  match goal with |- context [notify ?o ?ev ?s3] =>
    destruct (notify_calm o ev s3 Hc eq_refl) as (u3 & ->)
  end.
  eexists _, _. split; [|split; [|split; [|split]]]; [| | | |reflexivity];
    reflexivity.
Qed.

(** Property X9.  The successful run.  The job is created, [n]
    polls find it in a state that is not final, the next one finds [success]
    with a [resultJson] that parses to an object whose [resultUrls] is an
    array.  Then [generateImage] returns the success record with the first
    of these URLs (or [undefined] when there is none), the [costTime] of the
    last answer and the time of the last clock reading; it has sent the
    creation request and [n+1] status requests, has waited [n] times, and
    the job is no longer tracked. *)
Theorem generateImage_success_run fuel apiKey prompt options onProgress (s : St)
    status body n result data imageData urls :
  calm onProgress ->
  server W (length (sent s)) (createTask_request apiKey prompt options)
  = FetchResponds status (inl body) ->
  response_ok status = true ->
  let taskId := field (field body "data") "taskId" in
  truthy taskId = true ->
  (forall k, (k < n)%nat ->
     nonterminal (reply W taskId (length (sent s) + 1 + k))) ->
  (forall k, (k < n)%nat ->
     clock W (ticks s + 2 + k) - clock W (ticks s + 1) <= maxPollingTime) ->
  observation (reply W taskId (length (sent s) + 1 + n))
  = Some (result, data, VStr "success") ->
  JSON_parse W (to_js_string (field data "resultJson")) = inl imageData ->
  field imageData "resultUrls" = VArr urls ->
  (n < fuel)%nat ->
  let '(r, s') := generateImage W fuel apiKey prompt options onProgress s in
  r = Returns (success_result taskId (default VUndefined (urls !! 0%nat))
                              (field data "costTime")
                              (clock W (ticks s + 2 + n)))
  /\ sent s' = sent s ++ createTask_request apiKey prompt options
                      :: replicate (Datatypes.S n) (queryTaskStatus_request taskId)
  /\ waits s' = waits s ++ replicate n pollingInterval
  /\ activeTasks s' = Map_delete taskId (activeTasks s).
Proof.
  intros Hc Hserver Hok taskId Hid Hobs Hin Ho Hparse Hurls Hfuel.
  destruct (generateImage_try_created fuel apiKey prompt options onProgress s
              status body Hc Hserver Hok Hid)
    as (s4 & info & Hsent4 & Hticks4 & Hwaits4 & Htasks4 & Htry).
  fold taskId in Htasks4, Htry.
  rewrite generateImage_unfold, Htry, bind_outer_eq.
  destruct (poll_terminal_calm taskId (Some (progress_update W onProgress)) s4 n
              result data (VStr "success") fuel)
    as (s5 & Hpoll & Hsent5 & Hticks5 & Hwaits5 & Htasks5); try assumption.
  { apply progress_update_calm, Hc. }
  { intros k Hk. rewrite Hsent4, length_app. apply Hobs, Hk. }
  { intros k Hk. rewrite Hticks4.
    replace (Datatypes.S (ticks s) + 1 + k)%nat with (ticks s + 2 + k)%nat by lia.
    replace (Datatypes.S (ticks s)) with (ticks s + 1)%nat by lia.
    apply Hin, Hk. }
  { rewrite Hsent4, length_app. exact Ho. }
  { left; reflexivity. }
  rewrite Hpoll. cbn [strict_equal String.eqb Ascii.eqb Bool.eqb].
  unfold generateImage_finish.
  rewrite bind_lift_eq, (observation_result _ _ _ _ Ho).
  rewrite bind_lift_eq,
    (get_prop_field_eq _ _ (observation_data _ _ _ _ Ho)).
  unfold mbind at 1, M_bind at 1. rewrite Hparse.
  unfold mret at 1, M_ret at 1.
  assert (Hi : nullish imageData = false).
  { destruct imageData; try reflexivity; discriminate Hurls. }
  rewrite bind_lift_eq, (get_prop_field_eq _ _ Hi), Hurls.
  rewrite bind_lift_eq. cbn [get_index].
  rewrite bind_outer_eq. unfold Date_now at 1.
  unfold mret, M_ret. rewrite Hid.
  cbn [sent waits activeTasks].
  rewrite Hticks5, Hticks4, Hsent5, Hsent4, Hwaits5, Hwaits4, Htasks5, Htasks4,
    Map_delete_set, <- app_assoc.
  replace (Datatypes.S (ticks s) + 1 + n)%nat with (ticks s + 2 + n)%nat by lia.
  auto.
Qed.

(** Property X10.  The job is created, [n] polls find it in a state
    that is not final, within the time limit, and the next one finds [fail];
    the progress callback throws nothing when it is given an object.  Then
    [generateImage] returns a failure that names the job and whose [error]
    is [Task failed: ] followed by the [failMsg] of the answer, or by
    [Unknown error] when that is falsy; it has sent the creation request
    and [n+1] status requests, has waited [n] times, and the job is no
    longer tracked. *)
Theorem generateImage_job_failure fuel apiKey prompt options onProgress (s : St)
    status body n result data :
  calm onProgress ->
  server W (length (sent s)) (createTask_request apiKey prompt options)
  = FetchResponds status (inl body) ->
  response_ok status = true ->
  let taskId := field (field body "data") "taskId" in
  truthy taskId = true ->
  (forall k, (k < n)%nat ->
     nonterminal (reply W taskId (length (sent s) + 1 + k))) ->
  (forall k, (k < n)%nat ->
     clock W (ticks s + 2 + k) - clock W (ticks s + 1) <= maxPollingTime) ->
  observation (reply W taskId (length (sent s) + 1 + n))
  = Some (result, data, VStr "fail") ->
  (n < fuel)%nat ->
  let '(r, s') := generateImage W fuel apiKey prompt options onProgress s in
  r = Returns (failure_result
                 (VStr ("Task failed: "
                          +:+ to_js_string (js_or (field data "failMsg")
                                                  (VStr "Unknown error"))))
                 taskId)
  /\ sent s' = sent s ++ createTask_request apiKey prompt options
                      :: replicate (Datatypes.S n) (queryTaskStatus_request taskId)
  /\ waits s' = waits s ++ replicate n pollingInterval
  /\ activeTasks s' = Map_delete taskId (activeTasks s).
Proof.
  intros Hc Hserver Hok taskId Hid Hobs Hin Ho Hfuel.
  destruct (generateImage_try_created fuel apiKey prompt options onProgress s
              status body Hc Hserver Hok Hid)
    as (s4 & info & Hsent4 & Hticks4 & Hwaits4 & Htasks4 & Htry).
  fold taskId in Htasks4, Htry.
  rewrite generateImage_unfold, Htry, bind_outer_eq.
  destruct (poll_terminal_calm taskId (Some (progress_update W onProgress)) s4 n
              result data (VStr "fail") fuel)
    as (s5 & Hpoll & Hsent5 & Hticks5 & Hwaits5 & Htasks5); try assumption.
  { apply progress_update_calm, Hc. }
  { intros k Hk. rewrite Hsent4, length_app. apply Hobs, Hk. }
  { intros k Hk. rewrite Hticks4.
    replace (Datatypes.S (ticks s) + 1 + k)%nat with (ticks s + 2 + k)%nat by lia.
    replace (Datatypes.S (ticks s)) with (ticks s + 1)%nat by lia.
    apply Hin, Hk. }
  { rewrite Hsent4, length_app. exact Ho. }
  { right; reflexivity. }
  rewrite Hpoll. cbn [strict_equal String.eqb Ascii.eqb Bool.eqb].
  rewrite Hid. cbn [sent waits activeTasks get_prop Error new_error obj].
  rewrite Hsent5, Hsent4, Hwaits5, Hwaits4, Htasks5, Htasks4, Map_delete_set,
    <- app_assoc.
  auto.
Qed.

(** Whatever the answer, [createTask] issues one request and nothing else. *)
Lemma createTask_state apiKey prompt options (s : St) :
  (createTask W apiKey prompt options s).2
  = requested s (createTask_request apiKey prompt options).
Proof.
  unfold createTask, try_catch. unfold mbind at 1, M_bind at 1, fetch at 1.
  destruct (server W _ _) as [name message|status [body|message]]; cbv iota beta;
    [| destruct (negb (response_ok status)); rewrite bind_lift_eq;
       [destruct (handleApiError status body) as [e|e|]
       |destruct (get_prop body "data") as [d|e|]; [destruct (_ || _)| |]] |];
    unfold throw, mret, M_ret; run_pure.
Qed.

(** Property X11.  [testConnection] always returns, after the one
    creation request with the prompt [Test connection].  When [createTask]
    returns, the result is the task identifier of the answer (a truthy value,
    not [true]); when [createTask] throws, it is [false]. *)
Theorem testConnection_never_throws apiKey (s : St) :
  let '(r, s') := testConnection W apiKey s in
  s' = requested s (createTask_request apiKey (VStr "Test connection") VUndefined)
  /\ match (createTask W apiKey (VStr "Test connection") VUndefined s).1 with
     | Returns body =>
         r = Returns (field (field body "data") "taskId")
         /\ truthy (field (field body "data") "taskId") = true
     | _ => r = Returns (VBool false)
     end.
Proof.
  unfold testConnection, try_catch. unfold mbind at 1, M_bind at 1.
  pose proof (createTask_state apiKey (VStr "Test connection") VUndefined s) as Hst.
  destruct (createTask_ensures W True apiKey (VStr "Test connection") VUndefined s)
    as (_ & _ & Hq).
  pose proof (createTask_settles W apiKey (VStr "Test connection") VUndefined s) as Hn.
  destruct (createTask W apiKey (VStr "Test connection") VUndefined s)
    as [[body|e|] s1]; simpl in Hst, Hq, Hn; subst s1; [| | contradiction].
  - specialize (Hq body eq_refl).
    assert (Hb : nullish body = false).
    { destruct body; try reflexivity; discriminate Hq. }
    assert (Hd : nullish (field body "data") = false).
    { destruct (field body "data"); try reflexivity; discriminate Hq. }
    assert (Ht : truthy (field body "data") = true).
    { destruct (field body "data"); try reflexivity; discriminate Hq. }
    rewrite bind_lift_eq, (get_prop_field_eq _ _ Hb). cbv iota beta.
    rewrite Ht. unfold lift. rewrite (get_prop_field_eq _ _ Hd).
    cbn [fst]. auto.
  - cbn. auto.
Qed.

Lemma filter_all {A} (p : A -> bool) (l : list A) :
  existsb (fun x => negb (p x)) l = false -> List.filter p l = l.
Proof.
  induction l as [|x l IH]; [reflexivity|].
  simpl. destruct (p x); simpl; [|discriminate].
  intros H. rewrite IH by exact H. reflexivity.
Qed.

(** Property X12.  [cancelTask] only forgets the job: nothing is
    sent, nothing is awaited, the identifier is no key of the task map
    afterwards, the map has not grown, and cancelling a job that is not
    tracked changes nothing. *)
Theorem cancelTask_only_untracks taskId (s : St) :
  let '(r, s') := cancelTask taskId s in
  r = Returns tt
  /\ sent s' = sent s /\ waits s' = waits s /\ ticks s' = ticks s
  /\ Map_has taskId (activeTasks s') = false
  /\ (getActiveTasksCount s').1 = Returns (Z.of_nat (length (activeTasks s')))
  /\ (length (activeTasks s') <= length (activeTasks s))%nat
  /\ (Map_has taskId (activeTasks s) = false -> s' = s).
Proof.
  unfold cancelTask, set_activeTasks, modify. cbn [activeTasks sent waits ticks].
  repeat split.
  - apply Map_has_delete.
  - unfold Map_delete. apply List.filter_length_le.
  - intros Hno. destruct s as [a b c d e f]. cbn. f_equal.
    unfold Map_delete. apply filter_all.
    unfold Map_has in Hno. cbn in Hno.
    rewrite <- Hno. clear. induction a as [|x a IH]; [reflexivity|].
    simpl. rewrite negb_involutive, IH. reflexivity.
Qed.

End MoreFacts.

Lemma mapM_settles {A} (f : A -> outcome string) l :
  (forall x, f x <> Pending) -> mapM f l <> Pending.
Proof.
  intros Hf. induction l as [|x l IH]; [discriminate|].
  cbn [mapM]. specialize (Hf x). destruct (f x); [|discriminate|contradiction].
  cbn. destruct (mapM f l); [discriminate..|contradiction].
Qed.

Lemma mapM_returns {A} (f : A -> outcome string) l :
  Forall (fun x => exists y, f x = Returns y) l ->
  exists ys, mapM f l = Returns ys.
Proof.
  induction 1 as [|x l [y Hy] _ [ys IH]]; [exists []; reflexivity|].
  exists (y :: ys). cbn [mapM]. rewrite Hy. cbn. rewrite IH. reflexivity.
Qed.

Lemma pinyin_chinese_settles item : pinyin_chinese item <> Pending.
Proof.
  unfold pinyin_chinese. pose proof (get_prop_settles item "pinyin").
  pose proof (get_prop_settles item "chinese").
  destruct (get_prop item "pinyin"); cbn; try discriminate; try contradiction.
  destruct (get_prop item "chinese"); cbn; try discriminate; contradiction.
Qed.

Lemma chinese_pinyin_settles item : chinese_pinyin item <> Pending.
Proof.
  unfold chinese_pinyin. pose proof (get_prop_settles item "pinyin").
  pose proof (get_prop_settles item "chinese").
  destruct (get_prop item "chinese"); cbn; try discriminate; try contradiction.
  destruct (get_prop item "pinyin"); cbn; try discriminate; contradiction.
Qed.

Lemma map_items_settles expr array render :
  (forall x, render x <> Pending) -> map_items expr array render <> Pending.
Proof.
  intros H. destruct array; try discriminate. apply mapM_settles, H.
Qed.

Lemma map_first_five_settles expr array render :
  (forall x, render x <> Pending) -> map_first_five expr array render <> Pending.
Proof.
  intros H. destruct array; try discriminate. apply mapM_settles, H.
Qed.

Lemma buildPrompt_prompt_settles theme title vocabulary themeInfo :
  buildPrompt_prompt theme title vocabulary themeInfo <> Pending.
Proof.
  unfold buildPrompt_prompt.
  repeat match goal with
  | |- (?c ≫= _) <> Pending =>
      let H := fresh in
      assert (H : c <> Pending);
      [ first [ apply get_prop_settles
              | apply map_items_settles, pinyin_chinese_settles
              | apply map_first_five_settles, chinese_pinyin_settles
              | destruct (nullish _); [discriminate | apply get_prop_settles] ]
      | destruct c; [cbn [mbind outcome_bind] | discriminate | contradiction];
        clear H ]
  end.
  discriminate.
Qed.

(** Property X13.  [buildPrompt] returns for no arguments: every
    call throws.  With a vocabulary whose three lists hold entries other than
    [null] and [undefined], the prompt is built and the call then throws the
    [ReferenceError] of reading [selectedCore]. *)
Theorem buildPrompt_never_returns theme title vocabulary themeInfo :
  (exists e, buildPrompt theme title vocabulary themeInfo = Throws e)
  /\ (well_formed_vocabulary vocabulary ->
      buildPrompt theme title vocabulary themeInfo
      = Throws (ReferenceError "selectedCore is not defined")).
Proof.
  split.
  - unfold buildPrompt.
    pose proof (buildPrompt_prompt_settles theme title vocabulary themeInfo) as H.
    destruct (buildPrompt_prompt _ _ _ _); cbn; eauto. contradiction.
  - intros (core & items & environment & Hc & Hi & He & Hall).
    apply Forall_app in Hall as [Hcore Hall].
    apply Forall_app in Hall as [Hitems Henv].
    assert (Hv : nullish vocabulary = false).
    { destruct vocabulary; try reflexivity; discriminate Hc. }
    assert (Hpc : forall l, Forall (fun x => nullish x = false) l ->
              exists ys, mapM pinyin_chinese l = Returns ys).
    { intros l Hl. apply mapM_returns. eapply Forall_impl; [exact Hl|].
      intros x Hx. unfold pinyin_chinese.
      rewrite !(get_prop_field_eq _ _ Hx). cbn. eauto. }
    assert (Hcp : forall l, Forall (fun x => nullish x = false) l ->
              exists ys, mapM chinese_pinyin (take 5 l) = Returns ys).
    { intros l Hl. apply mapM_returns. apply Forall_take.
      eapply Forall_impl; [exact Hl|].
      intros x Hx. unfold chinese_pinyin.
      rewrite !(get_prop_field_eq _ _ Hx). cbn. eauto. }
    unfold buildPrompt, buildPrompt_prompt.
    assert (Hn : exists name,
              (if nullish themeInfo then Returns VUndefined
               else get_prop themeInfo "name") = Returns name).
    { destruct (nullish themeInfo) eqn:Ht; [eauto|].
      rewrite (get_prop_field_eq _ _ Ht). eauto. }
    destruct Hn as [name ->].
    rewrite !(get_prop_field_eq _ _ Hv), Hc, Hi, He.
    cbn [mbind outcome_bind map_items map_first_five].
    destruct (Hpc core Hcore) as [? ->].
    destruct (Hpc items Hitems) as [? ->].
    destruct (Hpc environment Henv) as [? ->].
    destruct (Hcp core Hcore) as [? ->].
    destruct (Hcp items Hitems) as [? ->].
    reflexivity.
Qed.

(** *** The theorems at work *)

(** The server that creates [task-1]. *)
Lemma createTask_returns_body_witness :
  createTask (U:=unit) happy_world (VStr "abc1234567") (VStr "test") VUndefined
    (initial tt)
  = (Returns created_body,
     requested (initial tt)
       (createTask_request (VStr "abc1234567") (VStr "test") VUndefined)).
Proof.
  apply (createTask_returns_body happy_world (VStr "abc1234567") (VStr "test")
           VUndefined (initial tt) 200 created_body); reflexivity.
Defined.

(** No network. *)
Lemma createTask_network_failure_witness :
  (createTask (U:=unit) idle_world (VStr "abc1234567") (VStr "test") VUndefined
     (initial tt)).1
  = Throws (Error "网络连接失败，请检查网络连接或API地址是否正确").
Proof.
  rewrite (createTask_network_failure idle_world (VStr "abc1234567") (VStr "test")
             VUndefined (initial tt) "TypeError" "Failed to fetch" eq_refl).
  reflexivity.
Defined.

(** An answer 200 without [data]. *)
Lemma createTask_missing_taskId_witness :
  (createTask (U:=unit) bare_world (VStr "abc1234567") (VStr "test") VUndefined
     (initial tt)).1
  = Throws (Error "API响应格式错误：缺少taskId").
Proof.
  rewrite (createTask_missing_taskId bare_world (VStr "abc1234567") (VStr "test")
             VUndefined (initial tt) 200
             (obj [("code", VNum 200); ("msg", VStr "success")])
             eq_refl eq_refl eq_refl eq_refl).
  reflexivity.
Defined.

(** A server that answers 401. *)
Lemma http_error_carries_status_witness :
  exists e,
    (queryTaskStatus (U:=unit) denied_world (VStr "task-1") (initial tt)).1
    = Throws e
    /\ field e "status" = VNum 401.
Proof.
  destruct (http_error_carries_status denied_world (initial tt)
              (queryTaskStatus_request (VStr "task-1")) 401
              (obj [("code", VNum 401); ("msg", VStr "Unauthorized")])
              eq_refl eq_refl eq_refl)
    as (e & message & _ & _ & Hstatus & _ & _ & _ & Hquery).
  exists e. rewrite (Hquery (VStr "task-1") eq_refl). split; [reflexivity|exact Hstatus].
Defined.

(** The network goes after the first poll. *)
Lemma poll_rejection_aborts_witness :
  let '(r, s') := pollTaskUntilComplete (U:=unit) dropping_world 5 (VStr "task-1")
                    None (initial tt) in
  r = Throws (new_error "TypeError" "Failed to fetch")
  /\ sent s' = replicate 2 (queryTaskStatus_request (VStr "task-1"))
  /\ waits s' = [pollingInterval]
  /\ activeTasks s' = [].
Proof.
  apply (poll_rejection_aborts dropping_world (VStr "task-1") None (initial tt) 1
           "TypeError" "Failed to fetch" 5).
  - intros f Hf. discriminate Hf.
  - intros k Hk. assert (k = 0)%nat as -> by lia.
    exists (status_body "running"), (field (status_body "running") "data"),
      (VStr "running"). repeat split; reflexivity.
  - intros k Hk. vm_compute. discriminate.
  - reflexivity.
  - lia.
Defined.

(** A callback that throws [null]. *)
Lemma poll_callback_error_aborts_witness :
  (pollTaskUntilComplete slow_world 5 (VStr "task-1") (Some throws_null)
     (initial tt)).1
  = Throws VNull.
Proof.
  exact (f_equal fst
           (poll_callback_error_aborts slow_world (VStr "task-1") throws_null
              (initial tt) (status_body "running")
              (field (status_body "running") "data") (VStr "running") VNull tt 5
              eq_refl eq_refl eq_refl ltac:(lia))).
Defined.

Lemma recorder_calm : calm (Some recorder).
Proof. intros f [= <-] v u _. reflexivity. Qed.

(** No network, and a callback that records. *)
Lemma generateImage_network_failure_witness :
  (generateImage idle_world 5 (VStr "abc1234567") (VStr "test") VUndefined
     (Some recorder) (initial [])).1
  = Returns (failure_result
               (VStr "网络连接失败，请检查网络连接或API地址是否正确") VNull).
Proof.
  pose proof (generateImage_network_failure idle_world 5 (VStr "abc1234567")
                (VStr "test") VUndefined (Some recorder) (initial [])
                "TypeError" "Failed to fetch" recorder_calm eq_refl) as H.
  destruct (generateImage _ _ _ _ _ _ _) as [r s']. apply H.
Defined.

(** A job that is [waiting], [running], then done. *)
Lemma generateImage_success_run_witness :
  let '(r, s') := generateImage happy_world 5 (VStr "abc1234567") (VStr "test")
                    VUndefined (Some recorder) (initial []) in
  r = Returns (success_result (VStr "task-1") (VStr "https://x/y.png")
                 (VNum 4200) 8000)
  /\ length (sent s') = 4%nat
  /\ waits s' = [pollingInterval; pollingInterval]
  /\ activeTasks s' = [].
Proof.
  pose proof (generateImage_success_run happy_world 5 (VStr "abc1234567")
                (VStr "test") VUndefined (Some recorder) (initial [])
                200 created_body 2 success_body (field success_body "data")
                (obj [("resultUrls", VArr [VStr "https://x/y.png"])])
                [VStr "https://x/y.png"] recorder_calm eq_refl eq_refl) as H.
  cbv zeta in H.
  destruct (generateImage _ _ _ _ _ _ _) as [r s'].
  destruct H as (Hr & Hsent & Hwaits & Htasks); try reflexivity.
  - intros k Hk. destruct k as [|[|k]]; [| |lia].
    + exists (status_body "waiting"), (field (status_body "waiting") "data"),
        (VStr "waiting"). repeat split; reflexivity.
    + exists (status_body "running"), (field (status_body "running") "data"),
        (VStr "running"). repeat split; reflexivity.
  - intros k Hk. unfold maxPollingTime. cbn [clock happy_world ticks initial]. lia.
  - lia.
  - rewrite Hr, Hsent, Hwaits, Htasks. repeat split; reflexivity.
Defined.

(** A job that is [running], then fails. *)
Lemma generateImage_job_failure_witness :
  (generateImage failing_world 5 (VStr "abc1234567") (VStr "test") VUndefined
     (Some recorder) (initial [])).1
  = Returns (failure_result (VStr "Task failed: blocked") (VStr "task-1")).
Proof.
  pose proof (generateImage_job_failure failing_world 5 (VStr "abc1234567")
                (VStr "test") VUndefined (Some recorder) (initial [])
                200 created_body 1
                (obj [("code", VNum 200);
                      ("data", obj [("taskId", VStr "task-1");
                                    ("state", VStr "fail");
                                    ("failMsg", VStr "blocked")])])
                (obj [("taskId", VStr "task-1"); ("state", VStr "fail");
                      ("failMsg", VStr "blocked")])
                recorder_calm eq_refl eq_refl) as H.
  cbv zeta in H.
  destruct (generateImage _ _ _ _ _ _ _) as [r s'].
  destruct H as (Hr & _); try reflexivity.
  - intros k Hk. assert (k = 0)%nat as -> by lia.
    exists (status_body "running"), (field (status_body "running") "data"),
      (VStr "running"). repeat split; reflexivity.
  - intros k Hk. vm_compute. discriminate.
  - lia.
  - rewrite Hr. reflexivity.
Defined.

(** A vocabulary of three words. *)
Lemma buildPrompt_never_returns_witness :
  buildPrompt (VStr "animals") (VStr "zoo") small_vocabulary VNull
  = Throws (ReferenceError "selectedCore is not defined").
Proof.
  apply (proj2 (buildPrompt_never_returns (VStr "animals") (VStr "zoo")
                  small_vocabulary VNull)).
  exists [word "mao" "cat"], [word "gou" "dog"], [word "shu" "tree"].
  repeat split; try reflexivity. repeat constructor.
Defined.

End ApiProofs.

(** ** [btoa] and [atob] *)

Module Base64Proofs.
Import Js JsProofs Base64.
Local Close Scope Z_scope.

Lemma sextet_of_char_of s : sextet_of (char_of s) = Some s.
Proof. destruct s as [[[[[[] []] []] []] []] []]; reflexivity. Qed.

Lemma char_of_plain s :
  is_ascii_whitespace (char_of s) = false /\ is_equals (char_of s) = false.
Proof. destruct s as [[[[[[] []] []] []] []] []]; split; reflexivity. Qed.

Lemma join_split3 a b c :
  let '(s1, s2, s3, s4) := split3 a b c in join s1 s2 s3 s4 = (a, b, c).
Proof. destruct a, b, c; reflexivity. Qed.

Lemma triple_ind (P : list ascii -> Prop) :
  P [] -> (forall a, P [a]) -> (forall a b, P [a; b]) ->
  (forall a b c l, P l -> P (a :: b :: c :: l)) ->
  forall l, P l.
Proof.
  intros H0 H1 H2 H3.
  assert (H : forall l, P l /\ (forall a, P (a :: l)) /\ (forall a b, P (a :: b :: l))).
  { induction l as [|c l (IH0 & IH1 & IH2)]; [auto|].
    split; [apply IH1|]. split; [intros a; apply IH2|].
    intros a b. apply H3, IH0. }
  intros l. apply H.
Qed.

Lemma bytes_sextets l : bytes (sextets l) = l.
Proof.
  induction l as [|a|a b|a b c l IH] using triple_ind.
  - reflexivity.
  - destruct a; reflexivity.
  - destruct a, b; reflexivity.
  - cbn [sextets]. pose proof (join_split3 a b c) as H.
    destruct (split3 a b c) as [[[s1 s2] s3] s4].
    cbn [bytes]. rewrite H, IH. reflexivity.
Qed.

Lemma mapM_sextet_of ss : mapM sextet_of (map char_of ss) = Some ss.
Proof.
  induction ss as [|s ss IH]; [reflexivity|].
  cbn [map mapM]. rewrite sextet_of_char_of. cbn. rewrite IH. reflexivity.
Qed.

(** The three shapes of an encoding. *)
Lemma encode_shape l :
  exists k,
    (length (sextets l) = 4 * k /\ padding l = [])
    \/ (length (sextets l) = 4 * k + 2 /\ padding l = [equals_sign; equals_sign])
    \/ (length (sextets l) = 4 * k + 3 /\ padding l = [equals_sign]).
Proof.
  induction l as [|a|a b|a b c l IH] using triple_ind.
  - exists 0. left. auto.
  - exists 0. right; left. destruct a. auto.
  - exists 0. right; right. destruct a, b. auto.
  - destruct IH as [k IH]. exists (S k).
    assert (Hp : padding (a :: b :: c :: l) = padding l).
    { unfold padding. cbn [length].
      replace (S (S (S (length l)))) with (length l + 1 * 3) by lia.
      rewrite Nat.Div0.mod_add. reflexivity. }
    rewrite Hp. cbn [sextets].
    destruct (split3 a b c) as [[[s1 s2] s3] s4]. cbn [length].
    destruct IH as [[H1 H2]|[[H1 H2]|[H1 H2]]]; rewrite H1, H2;
      [left | right; left | right; right]; (split; [lia | reflexivity]).
Qed.

Lemma filter_plain ss pad :
  Forall (fun c => is_ascii_whitespace c = false) pad ->
  List.filter (fun c => negb (is_ascii_whitespace c)) (map char_of ss ++ pad)
  = map char_of ss ++ pad.
Proof.
  intros Hpad. induction ss as [|s ss IH]; cbn [map app List.filter].
  - induction Hpad as [|c pad Hc _ IH]; [reflexivity|].
    cbn [List.filter]. rewrite Hc. cbn [negb]. rewrite IH. reflexivity.
  - destruct (char_of_plain s) as [-> _]. cbn [negb]. rewrite IH. reflexivity.
Qed.

Lemma strip_padding_plain ss :
  strip_padding (map char_of ss) = map char_of ss.
Proof.
  unfold strip_padding.
  destruct (rev (map char_of ss)) as [|c1 r] eqn:Hr; [reflexivity|].
  assert (Hc : is_equals c1 = false).
  { assert (Hin : In c1 (map char_of ss)).
    { apply in_rev. rewrite Hr. left. reflexivity. }
    apply in_map_iff in Hin as (s & <- & _). apply char_of_plain. }
  rewrite Hc. destruct r; reflexivity.
Qed.

Lemma strip_padding_one ss :
  strip_padding (map char_of ss ++ [equals_sign]) = map char_of ss.
Proof.
  unfold strip_padding. rewrite rev_app_distr. cbn [rev app].
  destruct (rev (map char_of ss)) as [|c2 r] eqn:Hr.
  - cbn. apply (f_equal (@rev ascii)) in Hr. rewrite rev_involutive in Hr.
    exact (eq_sym Hr).
  - change (is_equals equals_sign) with true.
    assert (Hc : is_equals c2 = false).
    { assert (Hin : In c2 (map char_of ss)).
      { apply in_rev. rewrite Hr. left. reflexivity. }
      apply in_map_iff in Hin as (s & <- & _). apply char_of_plain. }
    rewrite Hc. change (rev (c2 :: r) = map char_of ss).
    rewrite <- Hr. apply rev_involutive.
Qed.

Lemma strip_padding_two ss :
  strip_padding (map char_of ss ++ [equals_sign; equals_sign]) = map char_of ss.
Proof.
  unfold strip_padding. rewrite rev_app_distr. cbn [rev app].
  change (is_equals equals_sign) with true. cbv iota.
  apply rev_involutive.
Qed.

Theorem decode_encode l : decode (encode l) = Some l.
Proof.
  unfold decode, encode. cbv zeta.
  destruct (encode_shape l) as [k [[Hlen Hpad]|[[Hlen Hpad]|[Hlen Hpad]]]];
    rewrite Hpad, filter_plain by (repeat constructor);
    rewrite length_app, length_map, Hlen; cbn [length].
  - replace (4 * k + 0) with (k * 4) by lia. rewrite Nat.Div0.mod_mul.
    cbn [Nat.eqb]. rewrite app_nil_r, strip_padding_plain, length_map, Hlen.
    replace (4 * k) with (k * 4) by lia. rewrite Nat.Div0.mod_mul.
    cbn [Nat.eqb]. rewrite mapM_sextet_of. cbn. rewrite bytes_sextets. reflexivity.
  - replace (4 * k + 2 + 2) with ((k + 1) * 4) by lia. rewrite Nat.Div0.mod_mul.
    cbn [Nat.eqb]. rewrite strip_padding_two, length_map, Hlen.
    replace (4 * k + 2) with (2 + k * 4) by lia. rewrite Nat.Div0.mod_add.
    cbn. rewrite mapM_sextet_of. cbn. rewrite bytes_sextets. reflexivity.
  - replace (4 * k + 3 + 1) with ((k + 1) * 4) by lia. rewrite Nat.Div0.mod_mul.
    cbn [Nat.eqb]. rewrite strip_padding_one, length_map, Hlen.
    replace (4 * k + 3) with (3 + k * 4) by lia. rewrite Nat.Div0.mod_add.
    cbn. rewrite mapM_sextet_of. cbn. rewrite bytes_sextets. reflexivity.
Qed.

Lemma utf8_of_latin1_of_utf8 s l :
  latin1_of_utf8 s = Some l -> utf8_of_latin1 l = s.
Proof.
  assert (H : forall n s l, length s <= n ->
            latin1_of_utf8 s = Some l -> utf8_of_latin1 l = s).
  { clear. induction n as [|n IH]; intros s l Hn.
    - destruct s; [|simpl in Hn; lia]. intros [= <-]. reflexivity.
    - destruct s as [|[b0 b1 b2 b3 b4 b5 b6 [|]] rest].
      + intros [= <-]. reflexivity.
      + destruct b0, b1, b2, b3, b4, b5, b6; try discriminate;
          (destruct rest as [|[y0 y1 y2 y3 y4 y5 [|] [|]] rest]; try discriminate;
           cbn [latin1_of_utf8];
           destruct (latin1_of_utf8 rest) as [l'|] eqn:Hl; try discriminate;
           intros [= <-]; cbn [utf8_of_latin1];
           rewrite (IH rest l' ltac:(simpl in Hn; lia) Hl); reflexivity).
      + destruct b0, b1, b2, b3, b4, b5, b6;
          cbn [latin1_of_utf8];
          (destruct (latin1_of_utf8 rest) as [l'|] eqn:Hl; try discriminate;
           intros [= <-]; cbn [utf8_of_latin1];
           rewrite (IH rest l' ltac:(simpl in Hn; lia) Hl); reflexivity). }
  apply (H (length s)). lia.
Qed.

Theorem atob_btoa s t : btoa s = Returns t -> atob t = Some s.
Proof.
  unfold btoa, atob.
  destruct (latin1_of_utf8 (String.list_ascii_of_string s)) as [l|] eqn:Hl;
    [|discriminate].
  intros [= <-]. rewrite String.list_ascii_of_string_of_list_ascii, decode_encode.
  cbn. rewrite (utf8_of_latin1_of_utf8 _ _ Hl),
    String.string_of_list_ascii_of_string. reflexivity.
Qed.

End Base64Proofs.


(** ** The storage manager *)

Module StorageProofs.
Import Js JsProofs Storage.

Section StorageProps.
Variable W : World.

(** Reading, the clock and the identifiers. *)
Lemma getItem_read key d s : getItem key d s = (Returns (read s key d), s).
Proof.
  unfold getItem, read. destruct (accessible s); simpl; [|reflexivity].
  destruct (cells s !! key) as [[v|t]|]; reflexivity.
Qed.

Lemma bind_getItem {B} key d (f : value -> M Store B) s :
  (getItem key d ≫= f) s = f (read s key d) s.
Proof. unfold mbind, M_bind. rewrite getItem_read. reflexivity. Qed.

Lemma bind_Date_now {B} (f : Z -> M Store B) s :
  (Date_now W ≫= f) s = f (clock W (ticks s)) (tick s).
Proof. reflexivity. Qed.

Lemma bind_generateUUID {B} (f : string -> M Store B) s :
  (generateUUID W ≫= f) s
  = f (fill_template W uuid_template (draws s)).1
      (drawn s (fill_template W uuid_template (draws s)).2).
Proof.
  unfold mbind, M_bind, generateUUID.
  destruct (fill_template W uuid_template (draws s)); reflexivity.
Qed.

(** A write that [localStorage] takes. *)
Lemma setItem_accepted fuel key doc s :
  accessible s = true -> doc <> VUndefined -> accepts W s key doc ->
  setItem W fuel key doc s = (Returns true, stored s key doc).
Proof.
  intros Ha Hd Hr. unfold accepts in Hr.
  assert (Hc : match doc with
               | VUndefined => Raw "undefined"
               | _ => Json (json_clean doc)
               end = Json (json_clean doc)) by (destruct doc; congruence).
  unfold stored.
  destruct fuel; cbn [setItem]; rewrite Ha; cbn [negb]; cbv zeta;
    rewrite Hc, Hr; reflexivity.
Qed.

(** Claim C10.  For an item that is an object, when the stored preferences
    have a falsy [autoSave] (in particular [false]), [addToHistory] returns
    [true], the stored documents are the same as before the call and nothing
    was written: the new entry exists only in the array the call built. *)
Theorem addToHistory_without_autoSave fuel item s prefs autoSave :
  truthy item = true -> typeof_object item = true ->
  accessible s = true ->
  cells s !! PREFERENCES = Some (Json prefs) ->
  get_prop prefs "autoSave" = Returns autoSave -> truthy autoSave = false ->
  (forall h, cells s !! HISTORY = Some (Json h) -> is_array h = true) ->
  let '(r, s') := addToHistory W fuel item s in
  r = Returns true /\ cells s' = cells s /\ writes s' = writes s.
Proof.
  intros Hi Ho Ha Hp Hauto Hfalsy Hh.
  unfold addToHistory. rewrite Hi, Ho. cbn [negb orb].
  unfold getHistory. rewrite bind_getItem.
  assert (Harr : exists l, read s HISTORY (VArr []) = VArr l).
  { unfold read. rewrite Ha.
    destruct (cells s !! HISTORY) as [[h|t]|] eqn:Hc; eauto.
    specialize (Hh h eq_refl). destruct h; try discriminate. eauto. }
  destruct Harr as [l ->].
  rewrite bind_generateUUID, bind_Date_now.
  unfold getPreferences. rewrite bind_getItem.
  unfold read. cbn [accessible cells tick drawn]. rewrite Ha, Hp.
  rewrite bind_lift_eq, Hauto, Hfalsy. simpl. auto.
Qed.

(** *** Preferences *)

(** The properties of a stored object. *)
Lemma field_json_clean_obj (m : gmap string value) k :
  field (json_clean (VObj m)) k
  = match m !! k with Some x => clean_member x | None => VUndefined end.
Proof.
  unfold field. simpl. rewrite lookup_omap.
  destruct (m !! k) as [x|]; [|reflexivity]. destruct x; reflexivity.
Qed.

Lemma defaultPreferences_members k d :
  spread defaultPreferences !! k = Some d -> clean_member d = d.
Proof.
  intros H. apply elem_of_list_to_map_2 in H.
  repeat (apply elem_of_cons in H; destruct H as [H|H];
          [injection H as _ ->; reflexivity|]).
  apply elem_of_nil in H. destruct H.
Qed.

(** Claim C8, as the storage manager does it.  [savePreferences] stores the
    argument laid over the defaults: afterwards every key of the argument
    has the argument's value and every other key has its default value,
    whatever was stored before.  [getPreferences] returns the stored
    document as it is, and the defaults when nothing is stored. *)
Theorem savePreferences_overlays_defaults fuel p s :
  accessible s = true ->
  accepts W s PREFERENCES (VObj (spread p ∪ spread defaultPreferences)) ->
  let '(r, s') := savePreferences W fuel p s in
  r = Returns true
  /\ cells s'
     = <[PREFERENCES :=
           Json (json_clean (VObj (spread p ∪ spread defaultPreferences)))]>
         (cells s)
  /\ (forall k,
        field (read s' PREFERENCES defaultPreferences) k
        = match spread p !! k with
          | Some v => clean_member v
          | None => field defaultPreferences k
          end)
  /\ (forall t v, accessible t = true ->
                  cells t !! PREFERENCES = Some (Json v) ->
                  getPreferences t = (Returns v, t))
  /\ (forall t, cells t !! PREFERENCES = None ->
                getPreferences t = (Returns defaultPreferences, t)).
Proof.
  intros Ha Hacc. unfold savePreferences, savePreferences_with.
  rewrite setItem_accepted by (assumption || discriminate).
  split; [reflexivity|]. split; [reflexivity|]. split; [|split].
  - intros k. unfold read, stored. cbn [accessible cells]. rewrite Ha.
    rewrite lookup_insert_eq, field_json_clean_obj, lookup_union.
    destruct (spread p !! k) as [v|] eqn:Hk.
    + destruct (spread defaultPreferences !! k); reflexivity.
    + unfold field at 1. cbn [get_prop defaultPreferences obj].
      change (list_to_map _) with (spread defaultPreferences).
      destruct (spread defaultPreferences !! k) as [d|] eqn:Hd; simpl;
        [apply (defaultPreferences_members k d Hd) | reflexivity].
  - intros t v Ht Hv. unfold getPreferences. rewrite getItem_read.
    unfold read. rewrite Ht, Hv. reflexivity.
  - intros t Hv. unfold getPreferences. rewrite getItem_read.
    unfold read. rewrite Hv. destruct (accessible t); reflexivity.
Qed.

(** *** History *)

(** [slice(-n)] keeps the last [n] elements. *)
Lemma slice_from_last l n :
  0 < n -> slice_from l (Some (- n)) = drop (length l - Z.to_nat n) l.
Proof.
  intros Hn. unfold slice_from. cbv zeta.
  replace (- n <? 0) with true by (symmetry; apply Z.ltb_lt; lia).
  f_equal. lia.
Qed.

Lemma is_json_arr l : is_json (VArr l) -> map clean_element l = l.
Proof. unfold is_json. simpl. intros [= H]. exact H. Qed.

Lemma get_prop_field v k :
  nullish v = false -> get_prop v k = Returns (field v k).
Proof.
  unfold field. destruct v; try discriminate; simpl; try reflexivity;
    destruct (String.eqb _ _); reflexivity.
Qed.

(** [saveHistory] with a positive numeric maximum. *)
Lemma saveHistory_accepted fuel l s n :
  accessible s = true ->
  nullish (read s PREFERENCES defaultPreferences) = false ->
  configured_max (read s PREFERENCES defaultPreferences) = VNum n -> 0 < n ->
  accepts W s HISTORY (VArr (drop (length l - Z.to_nat n) l)) ->
  saveHistory W fuel (VArr l) s
  = (Returns true, stored s HISTORY (VArr (drop (length l - Z.to_nat n) l))).
Proof.
  intros Ha Hnull Hmax Hn Hacc.
  unfold saveHistory, saveHistory_with, getPreferences.
  rewrite bind_getItem. rewrite bind_lift_eq.
  unfold configured_max in Hmax.
  rewrite (get_prop_field _ _ Hnull), Hmax.
  cbn [to_number fmap option_fmap option_map].
  rewrite slice_from_last by exact Hn.
  apply setItem_accepted; [exact Ha | discriminate | exact Hacc].
Qed.

(** Claim C6, as the storage manager does it.  With [autoSave] on and a
    positive maximum [n], [addToHistory] appends an entry made of the item's
    own properties, with a generated [id] and the current time as
    [timestamp] for those the item does not have, and stores the last [n]
    entries: at most [n] are stored, and when [n] were stored before, the
    oldest one is dropped and the new one is last. *)
Theorem addToHistory_at_capacity fuel item s h n :
  truthy item = true -> typeof_object item = true ->
  accessible s = true ->
  read s HISTORY (VArr []) = VArr h ->
  truthy (field (read s PREFERENCES defaultPreferences) "autoSave") = true ->
  configured_max (read s PREFERENCES defaultPreferences) = VNum n -> 0 < n ->
  let entry := new_entry item (fill_template W uuid_template (draws s)).1
                         (clock W (ticks s)) in
  let kept := drop (length h + 1 - Z.to_nat n) (h ++ [entry]) in
  accepts W s HISTORY (VArr kept) ->
  let '(r, s') := addToHistory W fuel item s in
  r = Returns true
  /\ read s' HISTORY (VArr []) = VArr (map clean_element kept)
  /\ (length (map clean_element kept) <= Z.to_nat n)%nat
  /\ (is_json (VArr h) -> length h = Z.to_nat n ->
      map clean_element kept = tail h ++ [json_clean entry]
      /\ length (tail h ++ [json_clean entry]) = Z.to_nat n)
  /\ (forall k v, spread item !! k = Some v -> field entry k = v)
  /\ (spread item !! "id" = None ->
      field entry "id" = VStr (fill_template W uuid_template (draws s)).1)
  /\ (spread item !! "timestamp" = None ->
      field entry "timestamp" = VNum (clock W (ticks s))).
Proof.
  intros Hi Ho Ha Hh Hauto Hmax Hn entry kept Hacc.
  unfold addToHistory. rewrite Hi, Ho. cbn [negb orb].
  unfold getHistory. rewrite bind_getItem, Hh.
  rewrite bind_generateUUID, bind_Date_now.
  set (s1 := tick (drawn s _)).
  assert (Hr1 : forall k dv, read s1 k dv = read s k dv) by reflexivity.
  assert (Ha1 : accessible s1 = true) by exact Ha.
  assert (Hacc1 : forall k dv, accepts W s k dv -> accepts W s1 k dv)
    by (intros k dv H; exact H).
  clearbody s1. cbn [ticks drawn].
  unfold getPreferences. rewrite bind_getItem, Hr1.
  assert (Hnull : nullish (read s PREFERENCES defaultPreferences) = false).
  { destruct (read s PREFERENCES defaultPreferences); try reflexivity;
      discriminate Hauto. }
  rewrite bind_lift_eq, (get_prop_field _ _ Hnull), Hauto.
  fold (new_entry item (fill_template W uuid_template (draws s)).1
                  (clock W (ticks s))).
  fold entry.
  assert (Hlen : length (h ++ [entry]) = (length h + 1)%nat)
    by (rewrite length_app; reflexivity).
  rewrite (saveHistory_accepted fuel (h ++ [entry]) s1 n);
    [| exact Ha1 | rewrite Hr1; exact Hnull | rewrite Hr1; exact Hmax | exact Hn
     | rewrite Hlen; apply Hacc1; exact Hacc].
  rewrite Hlen. fold kept.
  split; [reflexivity|]. split; [|split; [|split; [|split; [|split]]]].
  - unfold read, stored. cbn [accessible cells]. rewrite Ha1, lookup_insert_eq.
    reflexivity.
  - rewrite length_map. subst kept. rewrite length_drop, Hlen. lia.
  - intros Hjson Hfull. subst kept.
    destruct h as [|x h']; [simpl in Hfull; lia|].
    replace (length (x :: h') + 1 - Z.to_nat n)%nat with 1%nat
      by (rewrite <- Hfull; simpl; lia).
    change (drop 1 ((x :: h') ++ [entry])) with (h' ++ [entry]).
    change (tail (x :: h')) with h'.
    apply is_json_arr in Hjson. injection Hjson as _ Hjson.
    rewrite map_app, Hjson. split; [reflexivity|].
    rewrite length_app. simpl in *. lia.
  - intros k v Hk. unfold field, entry, new_entry. cbn [get_prop].
    rewrite lookup_union, Hk.
    match goal with |- context [Some v ∪ ?o] => destruct o end; reflexivity.
  - intros Hk. unfold field, entry, new_entry. cbn [get_prop].
    rewrite lookup_union, Hk. reflexivity.
  - intros Hk. unfold field, entry, new_entry. cbn [get_prop].
    rewrite lookup_union, Hk. reflexivity.
Qed.

(** *** Export and import *)

(** The exported document. *)
Lemma exportAllData_eq s :
  exportAllData W s
  = (Returns (export_document (toISOString W (clock W (ticks s)))
                (read s HISTORY (VArr []))
                (read s PREFERENCES defaultPreferences)),
     tick s).
Proof.
  unfold exportAllData. rewrite bind_Date_now.
  unfold getHistory, getPreferences. rewrite !bind_getItem. reflexivity.
Qed.

(** With distinct identifiers the filter of the import keeps every entry. *)
Lemma findIndex_id_self pre post item pos :
  Forall (fun x => nullish x = false
                   /\ strict_equal (field x "id") (field item "id") = false) pre ->
  nullish item = false ->
  findIndex_id (pre ++ item :: post) pos (pos + length pre) item
  = Returns (Z.of_nat (pos + length pre)).
Proof.
  intros Hpre Hitem. revert pos.
  induction Hpre as [|x pre [Hx Hid] _ IH]; intros pos.
  - simpl. rewrite Nat.add_0_r, (get_prop_field _ _ Hitem). simpl.
    rewrite Nat.eqb_refl. reflexivity.
  - simpl. rewrite (get_prop_field _ _ Hx), (get_prop_field _ _ Hitem). simpl.
    rewrite Hid. replace (pos =? pos + Datatypes.S (length pre))%nat with false
      by (symmetry; apply Nat.eqb_neq; lia).
    simpl. rewrite <- Nat.add_succ_comm. apply IH.
Qed.

Lemma findIndex_id_first pre post item :
  Forall (fun x => nullish x = false
                   /\ strict_equal (field x "id") (field item "id") = false) pre ->
  nullish item = false ->
  findIndex_id (pre ++ item :: post) 0 (length pre) item
  = Returns (Z.of_nat (length pre)).
Proof. intros H1 H2. exact (findIndex_id_self pre post item 0 H1 H2). Qed.

Lemma unique_from_distinct todo :
  forall done,
    ids_distinct (done ++ todo) ->
    Forall (fun x => nullish x = false) (done ++ todo) ->
    unique_from (done ++ todo) (length done) todo = Returns todo.
Proof.
  induction todo as [|item rest IH]; intros done Hd Hn; [reflexivity|].
  cbn [unique_from].
  rewrite (findIndex_id_first done rest item).
  - cbn [mbind outcome_bind]. replace (done ++ item :: rest) with ((done ++ [item]) ++ rest)
      by (rewrite <- app_assoc; reflexivity).
    replace (Datatypes.S (length done)) with (length (done ++ [item]))
      by (rewrite length_app; simpl; lia).
    rewrite IH.
    + cbn [mret outcome_ret]. rewrite Z.eqb_refl. reflexivity.
    + rewrite <- app_assoc. exact Hd.
    + rewrite <- app_assoc. exact Hn.
  - apply Forall_forall. intros x Hx.
    apply list_elem_of_lookup in Hx as [i Hi].
    split.
    + rewrite Forall_forall in Hn. apply Hn.
      apply elem_of_app. left. eapply list_elem_of_lookup_2, Hi.
    + apply (Hd i (length done)).
      * apply lookup_lt_Some in Hi. lia.
      * rewrite lookup_app_l; [exact Hi | eapply lookup_lt_Some, Hi].
      * rewrite lookup_app_r by lia. rewrite Nat.sub_diag. reflexivity.
  - rewrite Forall_forall in Hn. apply Hn. apply elem_of_app. right. left.
Qed.

Lemma field_export_history date history preferences :
  field (export_document date history preferences) "history" = history.
Proof. reflexivity. Qed.

Lemma field_export_preferences date history preferences :
  field (export_document date history preferences) "preferences" = preferences.
Proof. reflexivity. Qed.

Lemma union_covers (m d : gmap string value) :
  (forall k, is_Some (d !! k) -> is_Some (m !! k)) -> m ∪ d = m.
Proof.
  intros H. apply map_eq. intros k. rewrite lookup_union.
  destruct (m !! k) as [x|] eqn:Hm.
  - destruct (d !! k); reflexivity.
  - destruct (d !! k) as [y|] eqn:Hd; [|reflexivity].
    destruct (H k) as [x Hx]; [rewrite Hd; eauto | congruence].
Qed.

Lemma read_with_cell s key other c d :
  other <> key -> read (with_cell s other c) key d = read s key d.
Proof.
  intros Hne. unfold read, with_cell. cbn [accessible cells].
  rewrite lookup_insert_ne by exact Hne. reflexivity.
Qed.

(** Claim C9, as the storage manager does it.  [exportAllData] returns a
    document with the keys [version], [exportDate], [history] and
    [preferences], and the document does not depend on what is stored as the
    API key.  Importing it into an empty store that accepts writes gives
    back the history and the preferences, with no errors and the number of
    entries reported, when the history has at most 50 entries, all of them
    with properties and with different identifiers, and the preferences
    have every key of the defaults. *)
Theorem import_of_export fuel src :
  (exists date,
      (exportAllData W src).1
      = Returns (export_document date (read src HISTORY (VArr []))
                   (read src PREFERENCES defaultPreferences)))
  /\ (forall c, (exportAllData W (with_cell src API_KEY c)).1
                = (exportAllData W src).1)
  /\ forall dst h m doc,
       read src HISTORY (VArr []) = VArr h ->
       read src PREFERENCES defaultPreferences = VObj m ->
       is_json (VArr h) -> is_json (VObj m) ->
       (length h <= 50)%nat ->
       Forall (fun x => nullish x = false) h ->
       ids_distinct h ->
       (forall k, is_Some (spread defaultPreferences !! k) -> is_Some (m !! k)) ->
       accessible dst = true -> cells dst = ∅ ->
       (forall cs k c, refuses W cs k c = None) ->
       (exportAllData W src).1 = Returns doc ->
       let '(r, dst') := importData W fuel doc dst in
       r = Returns (result_value
                      (mkImportResult true (Z.of_nat (length h)) true []))
       /\ read dst' HISTORY (VArr []) = VArr h
       /\ read dst' PREFERENCES defaultPreferences = VObj m.
Proof.
  split; [|split].
  - eexists. rewrite exportAllData_eq. reflexivity.
  - intros c. rewrite !exportAllData_eq. cbn [fst].
    rewrite !read_with_cell by discriminate. reflexivity.
  - intros dst h m doc Hh Hm Hjh Hjm Hlen Hnn Hids Hdom Ha Hempty Hacc Hdoc.
    rewrite exportAllData_eq in Hdoc. cbn [fst] in Hdoc.
    injection Hdoc as <-. rewrite Hh, Hm.
    set (date := toISOString W _).
    unfold importData, with_local.
    unfold mbind at 1, M_bind at 1. unfold try_catch.
    change (truthy (export_document date (VArr h) (VObj m))) with true.
    change (typeof_object (export_document date (VArr h) (VObj m))) with true.
    cbn [negb orb].
    rewrite field_export_history, field_export_preferences.
    unfold mbind at 1, M_bind at 1.
    (* the history *)
    rewrite bind_outer_eq. unfold getHistory. rewrite getItem_read.
    assert (Hr0 : read dst HISTORY (VArr []) = VArr []).
    { unfold read. rewrite Ha, Hempty, lookup_empty. reflexivity. }
    rewrite Hr0, bind_lift_eq. cbn [iterate app].
    rewrite bind_lift_eq.
    pose proof (unique_from_distinct h [] Hids Hnn) as Hu.
    cbn [app length] in Hu. rewrite Hu. clear Hu.
    rewrite bind_outer_eq.
    assert (Hp0 : read dst PREFERENCES defaultPreferences = defaultPreferences).
    { unfold read. rewrite Ha, Hempty, lookup_empty. reflexivity. }
    rewrite (saveHistory_accepted fuel h dst 50);
      [| exact Ha | rewrite Hp0; reflexivity | rewrite Hp0; reflexivity | lia
       | apply Hacc].
    replace (length h - Z.to_nat 50)%nat with 0%nat by lia.
    cbn [drop]. unfold update_local at 1.
    (* the preferences *)
    unfold mbind at 1, M_bind at 1.
    cbn [truthy typeof_object andb].
    rewrite bind_outer_eq.
    unfold savePreferences, savePreferences_with. cbn [spread].
    rewrite (union_covers m _ Hdom).
    rewrite setItem_accepted; [| exact Ha | discriminate | apply Hacc].
    unfold update_local, mbind, M_bind, get_local, mret, M_ret.
    cbn [errors success imported_history imported_preferences].
    split; [reflexivity|].
    unfold read, stored. cbn [accessible cells]. rewrite Ha.
    split.
    + rewrite lookup_insert_ne by discriminate. rewrite lookup_insert_eq.
      rewrite drop_0. exact Hjh.
    + rewrite lookup_insert_eq. exact Hjm.
Qed.

(** *** The image cache *)

(** The purge keeps exactly the entries that are not older than a week. *)
Lemma purge_obj now m :
  well_formed_cache m ->
  exists kept,
    purge now (VObj m) = Returns (VObj kept)
    /\ forall k, kept !! k = m !! k ≫= survivor now.
Proof.
  intros Hwf. unfold purge. fold week.
  set (f := fun (url : string) (entry : value) (acc : outcome (gmap string value)) => _).
  assert (H : forall m0 : gmap string value,
            (forall k e, m !! k = Some e -> m0 !! k = Some e) ->
            well_formed_cache m ->
            exists kept,
              map_fold f (Returns m0) m = Returns kept
              /\ forall k, kept !! k
                           = match m !! k with
                             | Some e => survivor now e
                             | None => m0 !! k
                             end).
  { intros m0. clear Hwf.
    apply (map_fold_weak_ind
      (fun (acc : outcome (gmap string value)) (m' : gmap string value) =>
         (forall k e, m' !! k = Some e -> m0 !! k = Some e) ->
         well_formed_cache m' ->
         exists kept,
           acc = Returns kept
           /\ forall k, kept !! k
                        = match m' !! k with
                          | Some e => survivor now e
                          | None => m0 !! k
                          end)).
    - intros _ _. exists m0. split; [reflexivity|].
      intros k. rewrite lookup_empty. reflexivity.
    - intros i x m' r Hi IH Hsub Hwf.
      destruct IH as (kept & -> & Hkept).
      + intros k e Hk. apply Hsub. rewrite lookup_insert_ne; [exact Hk|].
        intros ->. congruence.
      + intros k e Hk. apply (Hwf k). rewrite lookup_insert_ne; [exact Hk|].
        intros ->. congruence.
      + assert (Hx : nullish x = false) by (apply (Hwf i), lookup_insert_eq).
        subst f. cbn [mbind outcome_bind].
        rewrite (get_prop_field _ _ Hx). cbn [mret outcome_ret].
        eexists. split; [reflexivity|].
        intros k. destruct (decide (i = k)) as [->|Hne].
        * rewrite lookup_insert_eq. unfold survivor.
          destruct (expired now week (field x "timestamp")).
          -- apply lookup_delete_eq.
          -- rewrite Hkept, Hi. apply Hsub, lookup_insert_eq.
        * rewrite lookup_insert_ne by exact Hne. rewrite <- Hkept.
          destruct (expired now week (field x "timestamp"));
            [apply lookup_delete_ne; exact Hne | reflexivity]. }
  destruct (H m) as (kept & Hfold & Hkept); auto.
  exists kept. rewrite Hfold. split; [reflexivity|].
  intros k. rewrite Hkept. destruct (m !! k); reflexivity.
Qed.

Lemma cleanImageCache_accepted fuel s m :
  accessible s = true ->
  read s CACHE (VObj ∅) = VObj m ->
  well_formed_cache m ->
  (forall cs c, refuses W cs CACHE c = None) ->
  exists kept,
    cleanImageCache W fuel s = (Returns tt, stored (tick s) CACHE (VObj kept))
    /\ forall k, kept !! k = m !! k ≫= survivor (clock W (ticks s)).
Proof.
  intros Ha Hm Hwf Hacc.
  destruct (purge_obj (clock W (ticks s)) m Hwf) as (kept & Hp & Hkept).
  exists kept. split; [|exact Hkept].
  unfold cleanImageCache, cleanImageCache_with.
  rewrite bind_getItem, Hm, bind_Date_now, bind_lift_eq, Hp.
  unfold mbind, M_bind.
  rewrite setItem_accepted; [reflexivity | exact Ha | discriminate | apply Hacc].
Qed.

Lemma dated_well_formed m : dated_cache m -> well_formed_cache m.
Proof.
  intros Hd k e Hk. destruct (Hd k e Hk) as [t Ht].
  destruct e; try reflexivity; discriminate Ht.
Qed.

Lemma assign_member (m : gmap string value) key x :
  key <> "__proto__" -> assign (VObj m) key x = Returns (VObj (<[key := x]> m)).
Proof.
  intros Hkey. unfold assign.
  rewrite (proj2 (String.eqb_neq key "__proto__") Hkey). reflexivity.
Qed.

(** Claim C7, as the storage manager does it, for a cache whose entries
    have numbers as timestamps and a URL other than [__proto__].  When the
    serialized cache is larger than the ceiling, [cacheImage] first writes
    the cache without the entries older than seven days, and with every
    other entry, and then writes the cache with the new entry; otherwise it
    writes once.  In both cases it returns [true] and the stored cache has
    the new entry under the URL.  Nothing is said about the size of what is
    stored at the end. *)
Theorem cacheImage_purges_first fuel url data s m :
  accessible s = true ->
  read s CACHE (VObj ∅) = VObj m ->
  dated_cache m ->
  (forall cs c, refuses W cs CACHE c = None) ->
  to_js_string url <> "__proto__" ->
  let size := Z.of_nat (String.length (JSON_stringify (VObj m))) in
  let '(r, s') := cacheImage W fuel url data s in
  r = Returns true
  /\ if size >? maxCacheSize
     then exists purged final,
         writes s' = writes s ++ [(CACHE, Json purged); (CACHE, Json final)]
         /\ (forall k e t,
               m !! k = Some e -> field e "timestamp" = VNum t ->
               field purged k
               = if clock W (ticks s) - t >? week then VUndefined
                 else json_clean e)
         /\ (forall k, m !! k = None -> field purged k = VUndefined)
         /\ field final (to_js_string url)
            = json_clean (cache_entry data (clock W (Datatypes.S (ticks s))))
         /\ read s' CACHE (VObj ∅) = final
     else exists final,
         writes s' = writes s ++ [(CACHE, Json final)]
         /\ field final (to_js_string url)
            = json_clean (cache_entry data (clock W (ticks s)))
         /\ read s' CACHE (VObj ∅) = final.
Proof.
  intros Ha Hm Hd Hacc Hurl size.
  pose proof (dated_well_formed m Hd) as Hwf.
  unfold cacheImage. rewrite bind_getItem, Hm.
  unfold getCacheSize at 1.
  unfold mbind at 1, M_bind at 1. unfold mbind at 1, M_bind at 1.
  rewrite getItem_read, Hm. unfold mret at 1, M_ret at 1. fold size.
  unfold mbind at 1, M_bind at 1.
  destruct (size >? maxCacheSize).
  - destruct (cleanImageCache_accepted fuel s m Ha Hm Hwf Hacc)
      as (kept & -> & Hkept).
    rewrite bind_Date_now, bind_lift_eq, (assign_member _ _ _ Hurl).
    rewrite setItem_accepted; [| exact Ha | discriminate | apply Hacc].
    split; [reflexivity|].
    exists (json_clean (VObj kept)).
    eexists. split; [|split; [|split; [|split]]].
    + unfold stored, tick. cbn [writes]. rewrite <- app_assoc. reflexivity.
    + intros k e t Hk Ht. rewrite field_json_clean_obj, Hkept, Hk.
      cbn [mbind option_bind]. unfold survivor, expired.
      rewrite Ht. cbn [to_number].
      destruct (clock W (ticks s) - t >? week); [reflexivity|].
      destruct e; try reflexivity; discriminate Ht.
    + intros k Hk. rewrite field_json_clean_obj, Hkept, Hk. reflexivity.
    + rewrite field_json_clean_obj, lookup_insert_eq. reflexivity.
    + unfold read, stored, tick. cbn [accessible cells]. rewrite Ha.
      rewrite lookup_insert_eq. reflexivity.
  - unfold mret at 1, M_ret at 1.
    rewrite bind_Date_now, bind_lift_eq, (assign_member _ _ _ Hurl).
    rewrite setItem_accepted; [| exact Ha | discriminate | apply Hacc].
    split; [reflexivity|].
    eexists. split; [|split].
    + reflexivity.
    + rewrite field_json_clean_obj, lookup_insert_eq. reflexivity.
    + unfold read, stored, tick. cbn [accessible cells]. rewrite Ha.
      rewrite lookup_insert_eq. reflexivity.
Qed.

(** What [cacheImage] leaves in the store: the cache it read at the start,
    with the new entry. *)
Lemma cacheImage_final_cells fuel url data s m :
  accessible s = true ->
  read s CACHE (VObj ∅) = VObj m ->
  well_formed_cache m ->
  (forall cs c, refuses W cs CACHE c = None) ->
  to_js_string url <> "__proto__" ->
  exists now,
    read (cacheImage W fuel url data s).2 CACHE (VObj ∅)
    = json_clean (VObj (<[to_js_string url := cache_entry data now]> m)).
Proof.
  intros Ha Hm Hwf Hacc Hurl.
  unfold cacheImage. rewrite bind_getItem, Hm.
  unfold getCacheSize at 1.
  unfold mbind at 1, M_bind at 1. unfold mbind at 1, M_bind at 1.
  rewrite getItem_read, Hm. unfold mret at 1, M_ret at 1.
  unfold mbind at 1, M_bind at 1.
  destruct (_ >? maxCacheSize).
  - destruct (cleanImageCache_accepted fuel s m Ha Hm Hwf Hacc)
      as (kept & -> & Hkept).
    rewrite bind_Date_now, bind_lift_eq, (assign_member _ _ _ Hurl).
    rewrite setItem_accepted; [| exact Ha | discriminate | apply Hacc].
    eexists. unfold read, stored, tick. cbn [accessible cells snd]. rewrite Ha.
    rewrite lookup_insert_eq. reflexivity.
  - unfold mret at 1, M_ret at 1.
    rewrite bind_Date_now, bind_lift_eq, (assign_member _ _ _ Hurl).
    rewrite setItem_accepted; [| exact Ha | discriminate | apply Hacc].
    eexists. unfold read, stored, tick. cbn [accessible cells snd]. rewrite Ha.
    rewrite lookup_insert_eq. reflexivity.
Qed.

End StorageProps.

(** Claim C8 does not hold for stored values: with [autoSave: false] and
    [maxHistory: 10] stored, saving [{theme: "dark"}] leaves [autoSave] and
    [maxHistory] at their defaults [true] and [50]. *)
Lemma savePreferences_resets_unspecified :
  let s0 := store_with
              [(PREFERENCES,
                obj [("language", VStr "zh-CN"); ("autoSave", VBool false);
                     ("maxHistory", VNum 10); ("theme", VStr "auto");
                     ("soundEnabled", VBool true); ("autoDownload", VBool false)])] in
  let s1 := (savePreferences quiet_world 0 (obj [("theme", VStr "dark")]) s0).2 in
  field (read s0 PREFERENCES defaultPreferences) "autoSave" = VBool false
  /\ field (read s0 PREFERENCES defaultPreferences) "maxHistory" = VNum 10
  /\ field (read s1 PREFERENCES defaultPreferences) "theme" = VStr "dark"
  /\ field (read s1 PREFERENCES defaultPreferences) "autoSave" = VBool true
  /\ field (read s1 PREFERENCES defaultPreferences) "maxHistory" = VNum 50.
Proof. vm_compute. auto. Qed.

(** Claim C6 does not hold for items that bring an [id] and a [timestamp]:
    adding the same item twice stores two entries with the item's own
    identifier and timestamp. *)
Lemma addToHistory_keeps_item_id :
  let item := obj [("id", VStr "mine"); ("title", VStr "poster");
                   ("timestamp", VNum 5)] in
  let s1 := (addToHistory (world_at 1000) 0 item empty_store).2 in
  let s2 := (addToHistory (world_at 1000) 0 item s1).2 in
  read s2 HISTORY (VArr []) = VArr [item; item].
Proof. vm_compute. reflexivity. Qed.

(** Claim C9 does not hold for every store: exporting a history of 51
    entries kept under [maxHistory: 100] and importing the document into an
    empty store reports 51 imported entries and no error, but stores only
    the last 50. *)
Lemma import_truncates_to_default_max :
  let src :=
    store_with
      [(HISTORY, VArr (numbered 0 51));
       (PREFERENCES, VObj (<["maxHistory" := VNum 100]> (spread defaultPreferences)))] in
  let doc := export_document "1970-01-01T00:00:00.000Z"
               (read src HISTORY (VArr []))
               (read src PREFERENCES defaultPreferences) in
  (exportAllData quiet_world src).1 = Returns doc
  /\ read src HISTORY (VArr []) = VArr (numbered 0 51)
  /\ let '(r, dst) := importData quiet_world 0 doc empty_store in
     r = Returns (result_value (mkImportResult true 51 true []))
     /\ read dst HISTORY (VArr []) = VArr (numbered 1 50)
     /\ read dst PREFERENCES defaultPreferences
        = read src PREFERENCES defaultPreferences.
Proof. vm_compute. auto. Qed.

(** *** Sizes of JSON texts *)

(** Lengths of the texts that [JSON.stringify] produces. *)
Lemma length_append (a b : string) :
  String.length (a +:+ b) = (String.length a + String.length b)%nat.
Proof. induction a as [|c a IH]; simpl; [reflexivity | rewrite IH; reflexivity]. Qed.

Lemma length_concat_member sep x l :
  In x l -> (String.length x <= String.length (String.concat sep l))%nat.
Proof.
  induction l as [|y l IH]; intros Hin; [destruct Hin|].
  destruct Hin as [->|Hin].
  - destruct l; simpl; [lia | rewrite length_append; lia].
  - specialize (IH Hin). destruct l as [|z l]; [destruct Hin|].
    change (String.concat sep (y :: z :: l))
      with (y +:+ sep +:+ String.concat sep (z :: l)).
    rewrite !length_append. lia.
Qed.

Lemma JSON_text_member (m : gmap string value) k x :
  m !! k = Some x ->
  (String.length (JSON_text x) <= String.length (JSON_text (VObj m)))%nat.
Proof.
  intros Hk.
  change (JSON_text (VObj m))
    with ("{" +:+ String.concat ","
                    (map_fold (fun k x acc =>
                                 (json_quote k +:+ ":" +:+ JSON_text x) :: acc)
                              [] m)
              +:+ "}").
  rewrite !length_append.
  assert (Hin : In (json_quote k +:+ ":" +:+ JSON_text x)
                   (map_fold (fun k x acc =>
                                (json_quote k +:+ ":" +:+ JSON_text x) :: acc)
                             [] m)).
  { revert Hk.
    apply (map_fold_weak_ind
      (fun (acc : list string) (m' : gmap string value) =>
         m' !! k = Some x -> In (json_quote k +:+ ":" +:+ JSON_text x) acc)).
    - rewrite lookup_empty. discriminate.
    - intros i y m' r Hi IH Hl.
      destruct (decide (i = k)) as [->|Hne].
      + rewrite lookup_insert_eq in Hl. injection Hl as ->. left. reflexivity.
      + rewrite lookup_insert_ne in Hl by exact Hne. right. exact (IH Hl). }
  apply (length_concat_member ",") in Hin. rewrite !length_append in Hin. lia.
Qed.

Lemma length_json_quote s :
  (String.length s <= String.length (json_quote s))%nat.
Proof.
  unfold json_quote. cbn [String.length]. rewrite length_append.
  assert (String.length s <= String.length (json_escape_all s))%nat; [|lia].
  induction s as [|c s IH]; [reflexivity|].
  cbn [json_escape_all String.length]. rewrite length_append.
  assert (1 <= String.length (json_escape c))%nat; [|lia].
  unfold json_escape. repeat (destruct (_ =? _)%nat; [simpl; lia|]).
  destruct (_ <? _)%nat; simpl; lia.
Qed.

Lemma length_doubled n s :
  Z.of_nat (String.length (doubled n s)) = 2 ^ Z.of_nat n * Z.of_nat (String.length s).
Proof.
  revert s. induction n as [|n IH]; intros s.
  - simpl. lia.
  - cbn [doubled]. rewrite IH, length_append, Nat2Z.inj_succ, Z.pow_succ_r by lia.
    lia.
Qed.

(** A cache with one recent entry whose payload is longer than the ceiling
    is still over the ceiling after [cacheImage]. *)
Lemma cacheImage_over_ceiling (big : string) :
  maxCacheSize < Z.of_nat (String.length big) ->
  let s := mkStore true
                   {[ CACHE := Json (VObj {[ "old" := cache_entry (VStr big) 0 ]}) ]}
                   [] 0 0 in
  exists size,
    (getCacheSize (cacheImage quiet_world 0 (VStr "new") (VStr "x") s).2).1
    = Returns size
    /\ maxCacheSize < size.
Proof.
  intros Hbig s.
  assert (Hm : read s CACHE (VObj ∅) = VObj {[ "old" := cache_entry (VStr big) 0 ]}).
  { unfold read, s. cbn [accessible cells]. rewrite lookup_singleton_eq. reflexivity. }
  destruct (cacheImage_final_cells quiet_world 0 (VStr "new") (VStr "x") s _
              eq_refl Hm) as (now & Hfinal).
  { intros k e Hk. apply lookup_singleton_Some in Hk as [_ <-]. reflexivity. }
  { reflexivity. }
  { discriminate. }
  unfold getCacheSize. rewrite bind_getItem, Hfinal.
  eexists. split; [reflexivity|].
  unfold JSON_stringify.
  set (old := json_clean (json_clean (cache_entry (VStr big) 0))).
  assert (H1 : exists m1,
             json_clean (json_clean
               (VObj (<[to_js_string (VStr "new") := cache_entry (VStr "x") now]>
                        {[ "old" := cache_entry (VStr big) 0 ]})))
             = VObj m1
             /\ m1 !! "old" = Some old).
  { eexists. split; [reflexivity|].
    rewrite !lookup_omap, lookup_insert_ne by discriminate.
    rewrite lookup_singleton_eq. reflexivity. }
  assert (H2 : exists m2, old = VObj m2 /\ m2 !! "data" = Some (VStr big)).
  { eexists. split; [reflexivity|]. rewrite !lookup_omap. reflexivity. }
  destruct H1 as (m1 & -> & Hold). destruct H2 as (m2 & Hm2 & Hdata).
  pose proof (JSON_text_member m1 "old" old Hold) as L1.
  rewrite Hm2 in L1.
  pose proof (JSON_text_member m2 "data" (VStr big) Hdata) as L2.
  pose proof (length_json_quote big) as L3.
  change (json_quote big) with (JSON_text (VStr big)) in L3.
  lia.
Qed.

(** Claim C7 does not hold for the size: with one recent entry of 64 MiB in
    the cache, the serialized cache is still larger than the ceiling after
    [cacheImage] has returned. *)
Lemma cacheImage_leaves_cache_over_ceiling :
  let s := mkStore true
             {[ CACHE := Json (VObj {[ "old" := cache_entry (VStr big_payload) 0 ]}) ]}
             [] 0 0 in
  exists size,
    (getCacheSize (cacheImage quiet_world 0 (VStr "new") (VStr "x") s).2).1
    = Returns size
    /\ maxCacheSize < size.
Proof.
  apply cacheImage_over_ceiling.
  unfold big_payload. rewrite length_doubled. reflexivity.
Qed.

(** *** The theorems at work *)

(** The default preferences with [autoSave] switched off. *)
Lemma addToHistory_without_autoSave_witness :
  let prefs := VObj (<["autoSave" := VBool false]> (spread defaultPreferences)) in
  let s := store_with [(PREFERENCES, prefs)] in
  let '(r, s') := addToHistory quiet_world 0 (obj [("title", VStr "poster")]) s in
  r = Returns true /\ cells s' = cells s /\ writes s' = writes s.
Proof.
  apply (addToHistory_without_autoSave quiet_world 0 (obj [("title", VStr "poster")])
           (store_with [(PREFERENCES,
                         VObj (<["autoSave" := VBool false]>
                                 (spread defaultPreferences)))])
           (VObj (<["autoSave" := VBool false]> (spread defaultPreferences)))
           (VBool false)); try reflexivity.
  intros h Hh. vm_compute in Hh. discriminate Hh.
Defined.

(** Saving a dark theme into an empty store. *)
Lemma savePreferences_overlays_defaults_witness :
  let '(r, s') := savePreferences quiet_world 0 (obj [("theme", VStr "dark")])
                    empty_store in
  r = Returns true
  /\ field (read s' PREFERENCES defaultPreferences) "theme" = VStr "dark"
  /\ field (read s' PREFERENCES defaultPreferences) "maxHistory" = VNum 50.
Proof.
  pose proof (savePreferences_overlays_defaults quiet_world 0
                (obj [("theme", VStr "dark")]) empty_store eq_refl eq_refl) as H.
  destruct (savePreferences _ _ _ _) as [r s'].
  destruct H as (Hr & _ & Hfield & _).
  split; [exact Hr|]. split; rewrite Hfield; reflexivity.
Defined.

(** A history of two entries under a maximum of two. *)
Lemma addToHistory_at_capacity_witness :
  let s := store_with
             [(HISTORY, VArr (numbered 0 2));
              (PREFERENCES, VObj (<["maxHistory" := VNum 2]>
                                    (spread defaultPreferences)))] in
  let '(r, s') := addToHistory (world_at 1000) 0 (obj [("title", VStr "poster")]) s in
  r = Returns true
  /\ exists entry,
      read s' HISTORY (VArr []) = VArr (numbered 1 1 ++ [entry])
      /\ field entry "title" = VStr "poster"
      /\ field entry "timestamp" = VNum 1000.
Proof.
  cbv zeta.
  pose proof (addToHistory_at_capacity (world_at 1000) 0
                (obj [("title", VStr "poster")])
                (store_with
                   [(HISTORY, VArr (numbered 0 2));
                    (PREFERENCES, VObj (<["maxHistory" := VNum 2]>
                                          (spread defaultPreferences)))])
                (numbered 0 2) 2
                eq_refl eq_refl eq_refl eq_refl eq_refl eq_refl eq_refl eq_refl) as H.
  destruct (addToHistory _ _ _ _) as [r s'].
  destruct H as (Hr & Hread & _).
  split; [exact Hr|]. eexists. split; [rewrite Hread; vm_compute; reflexivity|].
  split; vm_compute; reflexivity.
Defined.

(** A store with two entries, a dark theme and an API key. *)
Lemma import_of_export_witness :
  let src := store_with
               [(HISTORY, VArr (numbered 0 2));
                (PREFERENCES, VObj (<["theme" := VStr "dark"]>
                                      (spread defaultPreferences)));
                (API_KEY, VStr "YWJjMTIzNDU2Nw==")] in
  let doc := export_document "1970-01-01T00:00:00.000Z" (VArr (numbered 0 2))
               (VObj (<["theme" := VStr "dark"]> (spread defaultPreferences))) in
  let '(r, dst) := importData quiet_world 0 doc empty_store in
  r = Returns (result_value (mkImportResult true 2 true []))
  /\ read dst HISTORY (VArr []) = read src HISTORY (VArr [])
  /\ read dst PREFERENCES defaultPreferences
     = read src PREFERENCES defaultPreferences.
Proof.
  apply (proj2 (proj2 (import_of_export quiet_world 0
           (store_with
              [(HISTORY, VArr (numbered 0 2));
               (PREFERENCES, VObj (<["theme" := VStr "dark"]>
                                     (spread defaultPreferences)));
               (API_KEY, VStr "YWJjMTIzNDU2Nw==")])))
           empty_store (numbered 0 2)
           (<["theme" := VStr "dark"]> (spread defaultPreferences))
           (export_document "1970-01-01T00:00:00.000Z" (VArr (numbered 0 2))
              (VObj (<["theme" := VStr "dark"]> (spread defaultPreferences)))));
    try (vm_compute; reflexivity).
  - vm_compute. lia.
  - repeat constructor.
  - intros i j x y Hij Hi Hj.
    destruct i as [|[|i]], j as [|[|j]]; try discriminate; try congruence;
      injection Hi as <-; injection Hj as <-; reflexivity.
  - intros k Hk. apply lookup_insert_is_Some.
    destruct (decide ("theme" = k)); [left | right]; auto.
Defined.

(** The serialized cache is at least as long as a payload that it holds. *)
Lemma payload_in_cache (m : gmap string value) k big ts :
  m !! k = Some (cache_entry (VStr big) ts) ->
  (String.length big <= String.length (JSON_stringify (VObj m)))%nat.
Proof.
  intros Hk. unfold JSON_stringify.
  set (old := json_clean (cache_entry (VStr big) ts)).
  assert (H1 : exists m1, json_clean (VObj m) = VObj m1 /\ m1 !! k = Some old).
  { eexists. split; [reflexivity|]. rewrite lookup_omap, Hk. reflexivity. }
  assert (H2 : exists m2, old = VObj m2 /\ m2 !! "data" = Some (VStr big)).
  { eexists. split; [reflexivity|]. rewrite lookup_omap. reflexivity. }
  destruct H1 as (m1 & -> & Hold). destruct H2 as (m2 & Hm2 & Hdata).
  pose proof (JSON_text_member m1 k old Hold) as L1. rewrite Hm2 in L1.
  pose proof (JSON_text_member m2 "data" (VStr big) Hdata) as L2.
  pose proof (length_json_quote big) as L3.
  change (json_quote big) with (JSON_text (VStr big)) in L3. lia.
Qed.

(** A cache over the ceiling that holds an entry of ten days, with a
    payload of 64 MiB, and an entry of one day: the purge drops the first
    and keeps the second, and the new entry is written after it. *)
Lemma cacheImage_purges_first_witness :
  let m : gmap string value :=
    <["old" := cache_entry (VStr big_payload) 0]>
      {[ "recent" := cache_entry (VStr "x") (9 * day) ]} in
  let s := mkStore true {[ CACHE := Json (VObj m) ]} [] 0 0 in
  let '(r, s') := cacheImage (world_at (10 * day)) 0 (VStr "new") (VStr "y") s in
  r = Returns true
  /\ exists purged final,
      writes s' = [(CACHE, Json purged); (CACHE, Json final)]
      /\ field purged "old" = VUndefined
      /\ field purged "recent" = cache_entry (VStr "x") (9 * day)
      /\ field final "new" = cache_entry (VStr "y") (10 * day)
      /\ read s' CACHE (VObj ∅) = final.
Proof.
  assert (Hbig : maxCacheSize < Z.of_nat (String.length big_payload)).
  { unfold big_payload. rewrite length_doubled. reflexivity. }
  revert Hbig. generalize big_payload. intros big Hbig. cbv zeta.
  set (m := <["old" := cache_entry (VStr big) 0]> _).
  set (s := mkStore _ _ _ _ _).
  pose proof (cacheImage_purges_first (world_at (10 * day)) 0 (VStr "new")
                (VStr "y") s m) as H.
  cbv zeta in H.
  destruct (cacheImage _ _ _ _ _) as [r s'].
  destruct H as (Hr & Hw).
  - reflexivity.
  - unfold read, s. cbn [accessible cells]. rewrite lookup_singleton_eq.
    reflexivity.
  - intros k e Hk. unfold m in Hk.
    apply lookup_insert_Some in Hk as [[_ <-]|[_ Hk]]; [eexists; reflexivity|].
    apply lookup_singleton_Some in Hk as [_ <-]. eexists; reflexivity.
  - reflexivity.
  - discriminate.
  - split; [exact Hr|].
    assert (Hold : m !! "old" = Some (cache_entry (VStr big) 0))
      by apply lookup_insert_eq.
    assert (Hrecent : m !! "recent" = Some (cache_entry (VStr "x") (9 * day))).
    { unfold m. rewrite lookup_insert_ne by discriminate.
      apply lookup_singleton_eq. }
    destruct (_ >? maxCacheSize) eqn:Hsize.
    + destruct Hw as (purged & final & Hwrites & Hkept & _ & Hnew & Hread).
      exists purged, final. split; [exact Hwrites|].
      split; [|split; [|split; [exact Hnew | exact Hread]]].
      * rewrite (Hkept "old" _ 0 Hold eq_refl). reflexivity.
      * rewrite (Hkept "recent" _ (9 * day) Hrecent eq_refl). reflexivity.
    + exfalso. rewrite Z.gtb_ltb in Hsize. apply Z.ltb_ge in Hsize.
      pose proof (payload_in_cache m "old" big 0 Hold) as L. lia.
Defined.

(** *** The rest of the manager *)

Section RestFacts.
Variable W : World.
Variable inherits : value -> string -> bool.

(** Property X14.  What an accepted [setItem] stores is what
    [getItem] reads back: the value as [JSON.stringify] and [JSON.parse]
    leave it, which is the value itself when it is JSON data; for
    [undefined] the default of the reader.  The other keys read as
    before. *)
Theorem setItem_then_getItem fuel key data d s :
  accessible s = true ->
  refuses W (cells s) key
          (match data with
           | VUndefined => Raw "undefined"
           | _ => Json (json_clean data)
           end) = None ->
  let '(r, s1) := setItem W fuel key data s in
  r = Returns true
  /\ getItem key d s1
     = (Returns (match data with VUndefined => d | _ => json_clean data end), s1)
  /\ (is_json data -> data <> VUndefined -> getItem key d s1 = (Returns data, s1))
  /\ forall k, k <> key -> read s1 k d = read s k d.
Proof.
  intros Ha Hacc.
  set (c := match data with
            | VUndefined => Raw "undefined"
            | _ => Json (json_clean data)
            end) in *.
  set (s1 := mkStore (accessible s) (<[key := c]> (cells s))
                     (writes s ++ [(key, c)]) (ticks s) (draws s)).
  assert (Hset : setItem W fuel key data s = (Returns true, s1)).
  { unfold s1. destruct fuel; cbn [setItem]; rewrite Ha; cbn [negb]; cbv zeta;
      fold c; rewrite Hacc; reflexivity. }
  rewrite Hset. split; [reflexivity|].
  assert (Hget : getItem key d s1
                 = (Returns (match data with
                             | VUndefined => d
                             | _ => json_clean data
                             end), s1)).
  { rewrite getItem_read. unfold read, s1. cbn [accessible cells].
    rewrite Ha, lookup_insert_eq. subst c. destruct data; reflexivity. }
  split; [exact Hget|]. split.
  - intros Hj Hd. rewrite Hget. destruct data; try congruence; rewrite Hj; reflexivity.
  - intros k Hk. unfold read, s1. cbn [accessible cells].
    rewrite lookup_insert_ne by congruence. reflexivity.
Qed.

(** Property X15.  When the storage cannot be reached, or refuses the
    write with an error other than [QuotaExceededError], [setItem] returns
    [false] and changes nothing. *)
Theorem setItem_refused fuel key data s :
  accessible s = false
  \/ (exists name message,
        refuses W (cells s) key
                (match data with
                 | VUndefined => Raw "undefined"
                 | _ => Json (json_clean data)
                 end) = Some (name, message)
        /\ name <> "QuotaExceededError") ->
  setItem W (Datatypes.S fuel) key data s = (Returns false, s).
Proof.
  intros [Ha | (name & message & Href & Hname)]; cbn [setItem].
  - rewrite Ha. reflexivity.
  - destruct (accessible s); [|reflexivity]. cbn [negb]. cbv zeta.
    rewrite Href. unfold handleStorageError_with.
    unfold mbind at 1, M_bind at 1. rewrite bind_lift_eq.
    change (get_prop (new_error name message) "name") with (Returns (VStr name)).
    cbv iota beta. cbn [strict_equal].
    destruct (String.eqb_spec name "QuotaExceededError"); [contradiction|].
    reflexivity.
Qed.

(** Property X16.  When [maxHistory] is a positive number [n] (the
    one of the stored preferences, or 50 when that is falsy), [saveHistory]
    stores the last [n] entries of the list, in their order, and so never
    more than [n]; and it returns [false] without a write for what is not
    an array. *)
Theorem saveHistory_keeps_last fuel l s n :
  accessible s = true ->
  nullish (read s PREFERENCES defaultPreferences) = false ->
  configured_max (read s PREFERENCES defaultPreferences) = VNum n -> 0 < n ->
  accepts W s HISTORY (VArr (drop (length l - Z.to_nat n) l)) ->
  let '(r, s1) := saveHistory W fuel (VArr l) s in
  r = Returns true
  /\ read s1 HISTORY (VArr [])
     = VArr (map clean_element (drop (length l - Z.to_nat n) l))
  /\ (length (drop (length l - Z.to_nat n) l) <= Z.to_nat n)%nat
  /\ (truthy (field (read s PREFERENCES defaultPreferences) "maxHistory") = false ->
      n = 50)
  /\ forall v, is_array v = false -> saveHistory W fuel v s = (Returns false, s).
Proof.
  intros Ha Hnull Hmax Hn Hacc.
  rewrite (saveHistory_accepted W fuel l s n Ha Hnull Hmax Hn Hacc).
  split; [reflexivity|]. split; [|split; [|split]].
  - unfold read, stored. cbn [accessible cells]. rewrite Ha, lookup_insert_eq.
    reflexivity.
  - rewrite length_drop. lia.
  - intros Hfalsy. unfold configured_max, js_or in Hmax. rewrite Hfalsy in Hmax.
    injection Hmax as <-. reflexivity.
  - intros v Hv. destruct v; try discriminate Hv; reflexivity.
Qed.

Lemma filter_other_ids_returns itemId l :
  Forall (fun x => nullish x = false) l ->
  filter_other_ids itemId l
  = Returns (List.filter (fun x => negb (strict_equal (field x "id") itemId)) l).
Proof.
  induction 1 as [|x l Hx _ IH]; [reflexivity|].
  cbn [filter_other_ids List.filter]. rewrite (get_prop_field _ _ Hx), IH.
  cbn [mbind outcome_bind mret outcome_ret].
  destruct (negb _); reflexivity.
Qed.

Lemma filter_none {A} (p : A -> bool) l :
  Forall (fun x => p x = true) l -> List.filter p l = l.
Proof.
  induction 1 as [|x l Hx _ IH]; [reflexivity|].
  cbn [List.filter]. rewrite Hx, IH. reflexivity.
Qed.

Lemma filter_some {A} (p : A -> bool) l :
  Exists (fun x => p x = false) l -> (length (List.filter p l) < length l)%nat.
Proof.
  induction 1 as [x l Hx|x l _ IH]; cbn [List.filter length].
  - rewrite Hx. pose proof (List.filter_length_le p l). lia.
  - destruct (p x); cbn [length]; lia.
Qed.

(** Property X17.  Removing an identifier that no entry of the
    history has returns [false] and changes nothing. *)
Theorem removeFromHistory_absent fuel itemId s h :
  read s HISTORY (VArr []) = VArr h ->
  Forall (fun x => nullish x = false) h ->
  Forall (fun x => strict_equal (field x "id") itemId = false) h ->
  removeFromHistory W fuel itemId s = (Returns false, s).
Proof.
  intros Hh Hnn Hids.
  unfold removeFromHistory, getHistory. rewrite bind_getItem, Hh.
  rewrite bind_lift_eq, (filter_other_ids_returns _ _ Hnn).
  rewrite filter_none, Nat.eqb_refl; [reflexivity|].
  eapply Forall_impl; [exact Hids|]. intros x ->. reflexivity.
Qed.

(** Property X18.  Removing an identifier that is in the history
    stores the entries with another identifier, in their order (the last
    [maxHistory] of them), and returns [true]: no stored entry has the
    identifier, and the history is shorter. *)
Theorem removeFromHistory_present fuel itemId s h n :
  accessible s = true ->
  read s HISTORY (VArr []) = VArr h ->
  Forall (fun x => nullish x = false) h ->
  Exists (fun x => strict_equal (field x "id") itemId = true) h ->
  nullish (read s PREFERENCES defaultPreferences) = false ->
  configured_max (read s PREFERENCES defaultPreferences) = VNum n -> 0 < n ->
  let kept := List.filter (fun x => negb (strict_equal (field x "id") itemId)) h in
  let stored := drop (length kept - Z.to_nat n) kept in
  accepts W s HISTORY (VArr stored) ->
  let '(r, s1) := removeFromHistory W fuel itemId s in
  r = Returns true
  /\ read s1 HISTORY (VArr []) = VArr (map clean_element stored)
  /\ Forall (fun x => strict_equal (field x "id") itemId = false) stored
  /\ (length stored < length h)%nat
  /\ ((length h <= Z.to_nat n)%nat -> stored = kept).
Proof.
  intros Ha Hh Hnn Hex Hnull Hmax Hn kept stored Hacc.
  unfold removeFromHistory, getHistory. rewrite bind_getItem, Hh.
  rewrite bind_lift_eq, (filter_other_ids_returns _ _ Hnn). fold kept.
  assert (Hlt : (length kept < length h)%nat).
  { apply filter_some. eapply Exists_impl; [exact Hex|].
    intros x ->. reflexivity. }
  destruct (Nat.eqb_spec (length kept) (length h)) as [Heq|_]; [lia|].
  rewrite (saveHistory_accepted W fuel kept s n Ha Hnull Hmax Hn Hacc).
  split; [reflexivity|]. split; [|split; [|split]].
  - unfold read, stored, Storage.stored. cbn [accessible cells].
    rewrite Ha, lookup_insert_eq. reflexivity.
  - apply Forall_drop. unfold kept. apply List.Forall_forall. intros x Hx.
    apply filter_In in Hx as [_ Hx].
    apply negb_true_iff in Hx. exact Hx.
  - unfold stored. rewrite length_drop. lia.
  - intros Hle. unfold stored.
    replace (length kept - Z.to_nat n)%nat with 0%nat by lia. reflexivity.
Qed.

Lemma encode_nonempty l : l <> [] -> Base64.encode l <> [].
Proof.
  destruct l as [|a [|b [|c rest]]]; [congruence|..]; intros _;
    unfold Base64.encode; cbn [Base64.sextets];
    repeat match goal with |- context [Base64.split3 ?a ?b ?c] =>
             destruct (Base64.split3 a b c) as [[[? ?] ?] ?] end;
    discriminate.
Qed.

Lemma btoa_nonempty k t :
  k <> EmptyString -> Base64.btoa k = Returns t -> t <> EmptyString.
Proof.
  unfold Base64.btoa. intros Hk.
  destruct (Base64.latin1_of_utf8 (String.list_ascii_of_string k)) as [l|] eqn:Hl;
    [|discriminate].
  intros [= <-] Ht.
  assert (Hl' : l <> []).
  { intros ->. apply Base64Proofs.utf8_of_latin1_of_utf8 in Hl.
    destruct k; [congruence | discriminate Hl]. }
  apply (encode_nonempty l Hl').
  destruct (Base64.encode l); [reflexivity | discriminate Ht].
Qed.

(** Property X19.  A key that [btoa] can encode is read back by
    [getApiKey] as it was given to [saveApiKey]; what is stored is its
    base64 text. *)
Theorem apiKey_round_trip fuel k t s :
  accessible s = true ->
  k <> EmptyString ->
  Base64.btoa k = Returns t ->
  accepts W s API_KEY (VStr t) ->
  let '(r, s1) := saveApiKey W fuel (VStr k) s in
  r = Returns true
  /\ cells s1 !! API_KEY = Some (Json (VStr t))
  /\ getApiKey s1 = (Returns (VStr k), s1).
Proof.
  intros Ha Hk Hb Hacc.
  unfold saveApiKey.
  assert (Ht : truthy (VStr k) = true).
  { destruct k; [congruence | reflexivity]. }
  rewrite Ht. cbn [negb orb is_string to_js_string].
  rewrite bind_lift_eq, Hb.
  rewrite (setItem_accepted W fuel API_KEY (VStr t) s Ha ltac:(discriminate) Hacc).
  split; [reflexivity|]. split.
  - unfold stored. cbn [cells]. apply lookup_insert_eq.
  - unfold getApiKey. rewrite bind_getItem.
    unfold read, stored. cbn [accessible cells].
    rewrite Ha, lookup_insert_eq. cbn [json_clean].
    assert (Ht' : truthy (VStr t) = true).
    { pose proof (btoa_nonempty k t Hk Hb). destruct t; [congruence | reflexivity]. }
    rewrite Ht'. cbn [negb to_js_string].
    rewrite (Base64Proofs.atob_btoa k t Hb). reflexivity.
Qed.

(** Property X20.  [saveApiKey] returns [false] without a write for a
    key that is falsy or not a string, and throws the
    [InvalidCharacterError] of [btoa], which it does not catch, for a string
    with a character above U+00FF. *)
Theorem saveApiKey_rejects fuel apiKey s :
  (truthy apiKey = false \/ is_string apiKey = false ->
   saveApiKey W fuel apiKey s = (Returns false, s))
  /\ (forall k,
        apiKey = VStr k ->
        Base64.latin1_of_utf8 (String.list_ascii_of_string k) = None ->
        exists e,
          saveApiKey W fuel apiKey s = (Throws e, s)
          /\ field e "name" = VStr "InvalidCharacterError").
Proof.
  split.
  - intros [H|H]; unfold saveApiKey; rewrite H; [|rewrite orb_true_r]; reflexivity.
  - intros k -> Hk. unfold saveApiKey.
    assert (Ht : truthy (VStr k) = true).
    { destruct k; [discriminate Hk | reflexivity]. }
    rewrite Ht. cbn [negb orb is_string to_js_string].
    rewrite bind_lift_eq. unfold Base64.btoa. rewrite Hk.
    eexists. split; reflexivity.
Qed.

(** Property X21.  After [removeApiKey], [getApiKey] returns [null],
    and the other keys read as before. *)
Theorem removeApiKey_forgets s :
  accessible s = true ->
  let '(r, s1) := removeApiKey s in
  r = Returns true
  /\ getApiKey s1 = (Returns VNull, s1)
  /\ forall k d, k <> API_KEY -> read s1 k d = read s k d.
Proof.
  intros Ha. unfold removeApiKey, removeItem. rewrite Ha. cbn [negb].
  split; [reflexivity|]. split.
  - unfold getApiKey. rewrite bind_getItem. unfold read. cbn [accessible cells].
    rewrite lookup_delete_eq. reflexivity.
  - intros k d Hk. unfold read. cbn [accessible cells].
    rewrite Ha, lookup_delete_ne by congruence. reflexivity.
Qed.

(** Property X22.  After [clearAll] the history is empty, the
    preferences are the defaults, there is no key and no cached image; what
    the page stores under other keys is left alone. *)
Theorem clearAll_resets s :
  accessible s = true ->
  let '(r, s1) := clearAll s in
  r = Returns true
  /\ getHistory s1 = (Returns (VArr []), s1)
  /\ getPreferences s1 = (Returns defaultPreferences, s1)
  /\ getApiKey s1 = (Returns VNull, s1)
  /\ read s1 CACHE (VObj ∅) = VObj ∅
  /\ forall k d,
       k <> HISTORY -> k <> PREFERENCES -> k <> API_KEY -> k <> CACHE ->
       read s1 k d = read s k d.
Proof.
  intros Ha. unfold clearAll. rewrite Ha. cbn [negb].
  split; [reflexivity|].
  assert (Hgone : forall k d,
            k = HISTORY \/ k = PREFERENCES \/ k = API_KEY \/ k = CACHE ->
            read (mkStore true
                    (delete CACHE
                       (delete API_KEY
                          (delete PREFERENCES (delete HISTORY (cells s)))))
                    (writes s) (ticks s) (draws s)) k d = d).
  { intros k d Hk. unfold read. cbn [accessible cells].
    destruct Hk as [-> | [-> | [-> | ->]]];
      repeat first [rewrite lookup_delete_eq | rewrite lookup_delete_ne by discriminate];
      reflexivity. }
  repeat split.
  - unfold getHistory. rewrite getItem_read, Hgone by auto. reflexivity.
  - unfold getPreferences. rewrite getItem_read, Hgone by auto. reflexivity.
  - unfold getApiKey. rewrite bind_getItem, Hgone by auto. reflexivity.
  - apply Hgone. auto.
  - intros k d H1 H2 H3 H4. unfold read. cbn [accessible cells]. rewrite Ha.
    rewrite !lookup_delete_ne by congruence. reflexivity.
Qed.

(** Property X23.  [getCachedImage] returns [null] for a URL that the
    cache does not hold and that names no inherited member; nothing
    changes. *)
Theorem getCachedImage_miss fuel url s m :
  read s CACHE (VObj ∅) = VObj m ->
  m !! to_js_string url = None ->
  inherits (VObj m) (to_js_string url) = false ->
  getCachedImage W inherits fuel url s = (Returns VNull, s).
Proof.
  intros Hm Hkey Hinh.
  unfold getCachedImage. rewrite bind_getItem, Hm, bind_lift_eq.
  cbn [lookup_member]. rewrite Hkey, Hinh. reflexivity.
Qed.

(** Reading an entry that has not expired. *)
Lemma getCachedImage_hit fuel url s m item :
  read s CACHE (VObj ∅) = VObj m ->
  m !! to_js_string url = Some item ->
  truthy item = true ->
  expired (clock W (ticks s)) month (field item "timestamp") = false ->
  getCachedImage W inherits fuel url s = (Returns (field item "data"), tick s).
Proof.
  intros Hm Hkey Ht Hfresh.
  assert (Hn : nullish item = false) by (destruct item; try reflexivity; discriminate Ht).
  unfold getCachedImage. rewrite bind_getItem, Hm, bind_lift_eq.
  cbn [lookup_member]. rewrite Hkey, Ht. cbn [negb].
  rewrite bind_Date_now, bind_lift_eq, (get_prop_field _ _ Hn), Hfresh.
  unfold lift. rewrite (get_prop_field _ _ Hn). reflexivity.
Qed.

(** Property X24.  [getCachedImage] returns the [data] of an entry
    whose timestamp is a number at most thirty days before the reading of
    the clock, or that has no timestamp; it reads the clock once and writes
    nothing. *)
Theorem getCachedImage_fresh fuel url s m item :
  read s CACHE (VObj ∅) = VObj m ->
  m !! to_js_string url = Some item ->
  truthy item = true ->
  field item "timestamp" = VUndefined
  \/ (exists t, to_number (field item "timestamp") = Some t
                /\ clock W (ticks s) - t <= month) ->
  getCachedImage W inherits fuel url s = (Returns (field item "data"), tick s).
Proof.
  intros Hm Hkey Ht Hfresh.
  apply (getCachedImage_hit fuel url s m item Hm Hkey Ht).
  unfold expired. destruct Hfresh as [-> | (t & -> & Hage)]; [reflexivity|].
  rewrite Z.gtb_ltb. apply Z.ltb_ge. exact Hage.
Qed.

(** Property X25.  [getCachedImage] returns [null] for an entry
    older than thirty days and stores the cache without it; the other
    entries stay. *)
Theorem getCachedImage_expired fuel url s m item t :
  accessible s = true ->
  read s CACHE (VObj ∅) = VObj m ->
  m !! to_js_string url = Some item ->
  truthy item = true ->
  to_number (field item "timestamp") = Some t ->
  clock W (ticks s) - t > month ->
  accepts W (tick s) CACHE (VObj (delete (to_js_string url) m)) ->
  let '(r, s1) := getCachedImage W inherits fuel url s in
  r = Returns VNull
  /\ s1 = stored (tick s) CACHE (VObj (delete (to_js_string url) m))
  /\ field (read s1 CACHE (VObj ∅)) (to_js_string url) = VUndefined
  /\ forall k, k <> to_js_string url ->
       field (read s1 CACHE (VObj ∅)) k
       = match m !! k with Some e => clean_member e | None => VUndefined end.
Proof.
  intros Ha Hm Hkey Ht Hts Hold Hacc.
  assert (Hn : nullish item = false) by (destruct item; try reflexivity; discriminate Ht).
  unfold getCachedImage. rewrite bind_getItem, Hm, bind_lift_eq.
  cbn [lookup_member]. rewrite Hkey, Ht. cbn [negb].
  rewrite bind_Date_now, bind_lift_eq, (get_prop_field _ _ Hn).
  unfold expired. rewrite Hts.
  replace (clock W (ticks s) - t >? month) with true
    by (symmetry; apply Z.gtb_lt; lia).
  cbn [delete_member]. unfold mbind at 1, M_bind at 1.
  rewrite setItem_accepted; [| exact Ha | discriminate | exact Hacc].
  split; [reflexivity|]. split; [reflexivity|].
  assert (Hread : read (stored (tick s) CACHE (VObj (delete (to_js_string url) m)))
                    CACHE (VObj ∅)
                  = json_clean (VObj (delete (to_js_string url) m))).
  { unfold read, stored, tick. cbn [accessible cells].
    rewrite Ha, lookup_insert_eq. reflexivity. }
  rewrite Hread. split.
  - rewrite field_json_clean_obj, lookup_delete_eq. reflexivity.
  - intros k Hk. rewrite field_json_clean_obj, lookup_delete_ne by congruence.
    reflexivity.
Qed.

(** Where [cacheImage] leaves the store and the clock. *)
Lemma cacheImage_final fuel url data s m :
  accessible s = true ->
  read s CACHE (VObj ∅) = VObj m ->
  well_formed_cache m ->
  (forall cs c, refuses W cs CACHE c = None) ->
  to_js_string url <> "__proto__" ->
  exists t s1,
    cacheImage W fuel url data s = (Returns true, s1)
    /\ ticks s1 = Datatypes.S t
    /\ accessible s1 = true
    /\ read s1 CACHE (VObj ∅)
       = json_clean (VObj (<[to_js_string url := cache_entry data (clock W t)]> m)).
Proof.
  intros Ha Hm Hwf Hacc Hurl.
  unfold cacheImage. rewrite bind_getItem, Hm.
  unfold getCacheSize at 1.
  unfold mbind at 1, M_bind at 1. unfold mbind at 1, M_bind at 1.
  rewrite getItem_read, Hm. unfold mret at 1, M_ret at 1.
  unfold mbind at 1, M_bind at 1.
  destruct (_ >? maxCacheSize).
  - destruct (cleanImageCache_accepted W fuel s m Ha Hm Hwf Hacc)
      as (kept & -> & Hkept).
    rewrite bind_Date_now, bind_lift_eq, (assign_member _ _ _ Hurl).
    rewrite setItem_accepted; [| exact Ha | discriminate | apply Hacc].
    eexists (Datatypes.S (ticks s)), _. split; [reflexivity|].
    unfold read, stored, tick. cbn [accessible cells ticks]. rewrite Ha.
    rewrite lookup_insert_eq. auto.
  - unfold mret at 1, M_ret at 1.
    rewrite bind_Date_now, bind_lift_eq, (assign_member _ _ _ Hurl).
    rewrite setItem_accepted; [| exact Ha | discriminate | apply Hacc].
    eexists (ticks s), _. split; [reflexivity|].
    unfold read, stored, tick. cbn [accessible cells ticks]. rewrite Ha.
    rewrite lookup_insert_eq. auto.
Qed.

(** Property X26.  What [cacheImage] stored under a URL,
    [getCachedImage] returns for that URL, as JSON leaves it, when the clock
    advances by at most thirty days between two readings, the writes are
    accepted and the URL is not [__proto__]; the reading writes nothing. *)
Theorem cacheImage_then_getCachedImage fuel url data s m :
  accessible s = true ->
  read s CACHE (VObj ∅) = VObj m ->
  well_formed_cache m ->
  (forall cs c, refuses W cs CACHE c = None) ->
  (forall t, clock W (Datatypes.S t) - clock W t <= month) ->
  to_js_string url <> "__proto__" ->
  let s1 := (cacheImage W fuel url data s).2 in
  (getCachedImage W inherits fuel url s1).1 = Returns (clean_member data)
  /\ cells (getCachedImage W inherits fuel url s1).2 = cells s1.
Proof.
  intros Ha Hm Hwf Hacc Hclock Hurl s1.
  destruct (cacheImage_final fuel url data s m Ha Hm Hwf Hacc Hurl)
    as (t & s' & Heq & Hticks & Ha1 & Hread).
  subst s1. rewrite Heq. cbn [snd]. set (s1 := s') in *.
  cbn [json_clean] in Hread.
  assert (Hitem : omap (fun x => match x with
                                 | VUndefined => None
                                 | _ => Some (json_clean x)
                                 end)
                    (<[to_js_string url := cache_entry data (clock W t)]> m)
                  !! to_js_string url
                  = Some (json_clean (cache_entry data (clock W t)))).
  { rewrite lookup_omap, lookup_insert_eq. reflexivity. }
  rewrite (getCachedImage_hit fuel url s1 _ _ Hread Hitem); [| reflexivity |].
  - cbn [fst snd tick cells]. split; [|reflexivity].
    unfold cache_entry, obj. rewrite field_json_clean_obj.
    destruct data; reflexivity.
  - unfold cache_entry, obj. rewrite field_json_clean_obj.
    change (list_to_map [("data", data); ("timestamp", VNum (clock W t))]
              !! "timestamp") with (Some (VNum (clock W t))).
    cbn [clean_member json_clean]. unfold expired. cbn [to_number].
    rewrite Hticks, Z.gtb_ltb. apply Z.ltb_ge, Hclock.
Qed.

Lemma hex_digit_is_hex v :
  0 <= v < 16 -> is_hex_digit (hex_digit (Z.to_nat v)) = true.
Proof.
  intros Hv.
  assert (H : v = 0 \/ v = 1 \/ v = 2 \/ v = 3 \/ v = 4 \/ v = 5 \/ v = 6
              \/ v = 7 \/ v = 8 \/ v = 9 \/ v = 10 \/ v = 11 \/ v = 12
              \/ v = 13 \/ v = 14 \/ v = 15) by lia.
  repeat (destruct H as [-> | H]; [reflexivity|]). subst v. reflexivity.
Qed.

Lemma variant_digit r :
  0 <= r < 16 ->
  let c := hex_digit (Z.to_nat (Z.lor (Z.land r 3) 8)) in
  ((nat_of_ascii c =? 56) || (nat_of_ascii c =? 57)
   || (nat_of_ascii c =? 97) || (nat_of_ascii c =? 98))%nat = true.
Proof.
  intros Hr.
  assert (H : r = 0 \/ r = 1 \/ r = 2 \/ r = 3 \/ r = 4 \/ r = 5 \/ r = 6
              \/ r = 7 \/ r = 8 \/ r = 9 \/ r = 10 \/ r = 11 \/ r = 12
              \/ r = 13 \/ r = 14 \/ r = 15) by lia.
  repeat (destruct H as [-> | H]; [reflexivity|]). subst r. reflexivity.
Qed.

Lemma fill_template_fits template n :
  fits template (fill_template W template n).1 = true
  /\ (fill_template W template n).2 = (n + slots template)%nat.
Proof.
  revert n. induction template as [|t template IH]; intros n.
  - split; [reflexivity | simpl; lia].
  - cbn [fill_template slots].
    assert (Hr : 0 <= random16 W n mod 16 < 16) by (apply Z.mod_pos_bound; lia).
    destruct (nat_of_ascii t =? 120)%nat eqn:Hx.
    + cbn [orb]. destruct (IH (Datatypes.S n)) as [IH1 IH2].
      destruct (fill_template W template (Datatypes.S n)) as [out n'].
      cbn [fst snd fits] in *. unfold slot_ok. rewrite Hx, IH1.
      rewrite hex_digit_is_hex by exact Hr. split; [reflexivity | lia].
    + cbn [orb]. destruct (nat_of_ascii t =? 121)%nat eqn:Hy.
      * destruct (IH (Datatypes.S n)) as [IH1 IH2].
        destruct (fill_template W template (Datatypes.S n)) as [out n'].
        cbn [fst snd fits] in *. unfold slot_ok. rewrite Hx, Hy, IH1.
        rewrite (variant_digit _ Hr). split; [reflexivity | lia].
      * destruct (IH n) as [IH1 IH2].
        destruct (fill_template W template n) as [out n'].
        cbn [fst snd fits] in *. unfold slot_ok. rewrite Hx, Hy, IH1.
        rewrite Ascii.eqb_refl. split; [reflexivity | lia].
Qed.

Lemma fits_length template id :
  fits template id = true -> String.length id = String.length template.
Proof.
  revert id. induction template as [|t template IH]; intros [|c id]; simpl;
    try discriminate; [reflexivity|].
  intros H. apply andb_true_iff in H as [_ H]. rewrite (IH id H). reflexivity.
Qed.

(** Property X27.  [generateUUID] returns a string of 36 characters
    of the shape 8-4-4-4-12: hexadecimal digits in lower case, hyphens where
    the template has them, [4] at the place of the version and one of [8],
    [9], [a], [b] at the place of the variant.  It draws 31 random numbers
    and stores nothing. *)
Theorem generateUUID_format s :
  let '(r, s1) := generateUUID W s in
  exists id,
    r = Returns id
    /\ fits uuid_template id = true
    /\ String.length id = 36%nat
    /\ draws s1 = (draws s + 31)%nat
    /\ cells s1 = cells s /\ writes s1 = writes s.
Proof.
  unfold generateUUID.
  destruct (fill_template_fits uuid_template (draws s)) as [Hfit Hn].
  destruct (fill_template W uuid_template (draws s)) as [id n].
  cbn [fst snd] in Hfit, Hn. exists id.
  split; [reflexivity|]. split; [exact Hfit|].
  split; [exact (fits_length _ _ Hfit)|].
  cbn [draws cells writes]. rewrite Hn. auto.
Qed.

(** Property X28.  [importData] of a value that is falsy or not an
    object does not throw: it returns a result without success, with nothing
    imported and the one error [Import error: Invalid data format], and
    changes nothing. *)
Theorem importData_invalid fuel data s :
  truthy data = false \/ typeof_object data = false ->
  importData W fuel data s
  = (Returns (result_value
                (mkImportResult false 0 false
                   ["Import error: Invalid data format"])), s).
Proof.
  intros H.
  assert (Hc : negb (truthy data) || negb (typeof_object data) = true).
  { destruct H as [-> | ->]; [reflexivity | apply orb_true_r]. }
  unfold importData, with_local, try_catch. unfold mbind at 1, M_bind at 1.
  rewrite Hc. reflexivity.
Qed.

(** Property X30.  When the storage works, [initialize] returns
    [true]; stored preferences stay as they are, and the defaults are written
    when there are none.  No other key changes, the probe key apart. *)
Theorem initialize_keeps_preferences fuel s :
  accessible s = true ->
  refuses W (cells s) "__test_storage__" (Raw "test") = None ->
  (forall cs c, refuses W cs PREFERENCES c = None) ->
  let '(r, s1) := initialize W fuel s in
  r = Returns true
  /\ read s1 PREFERENCES VNull
     = (if truthy (read s PREFERENCES VNull) then read s PREFERENCES VNull
        else defaultPreferences)
  /\ forall k d, k <> PREFERENCES -> k <> "__test_storage__" ->
       read s1 k d = read s k d.
Proof.
  intros Ha Htest Hacc.
  unfold initialize. unfold mbind at 1, M_bind at 1. unfold isAvailable.
  rewrite Ha, Htest. cbn [negb].
  set (s0 := mkStore _ _ _ _ _).
  assert (Hs0 : forall k d, k <> "__test_storage__" -> read s0 k d = read s k d).
  { intros k d Hk. unfold read, s0. cbn [accessible cells].
    rewrite Ha, lookup_delete_ne by congruence. reflexivity. }
  rewrite bind_getItem.
  rewrite (Hs0 PREFERENCES VNull) by discriminate.
  destruct (truthy (read s PREFERENCES VNull)) eqn:Ht; cbn [negb].
  - unfold mbind, M_bind, mret, M_ret.
    split; [reflexivity|]. split.
    + apply Hs0. discriminate.
    + intros k d _ Hk. apply Hs0, Hk.
  - unfold mbind at 1, M_bind at 1. unfold mbind at 1, M_bind at 1.
    unfold savePreferences, savePreferences_with.
    rewrite setItem_accepted; [| reflexivity | discriminate | apply Hacc].
    unfold mret, M_ret. split; [reflexivity|]. split.
    + unfold read, stored. cbn [accessible cells]. rewrite lookup_insert_eq.
      vm_compute. reflexivity.
    + intros k d Hp Hk. rewrite <- (Hs0 k d Hk).
      unfold read, stored. cbn [accessible cells].
      rewrite lookup_insert_ne by congruence. reflexivity.
Qed.

(** Entries that come first and have different identifiers are all kept,
    whatever follows them. *)
Lemma unique_from_kept tail todo :
  forall done,
    ids_distinct (done ++ todo) ->
    Forall (fun x => nullish x = false) (done ++ todo) ->
    unique_from (done ++ todo ++ tail) (length done) (todo ++ tail)
    = (kept ← unique_from (done ++ todo ++ tail) (length done + length todo) tail;
       Returns (todo ++ kept)).
Proof.
  induction todo as [|item rest IH]; intros done Hd Hn.
  - cbn [app length]. rewrite Nat.add_0_r.
    destruct (unique_from _ _ tail); reflexivity.
  - cbn [app unique_from].
    rewrite (findIndex_id_first done (rest ++ tail) item).
    + cbn [mbind outcome_bind].
      replace (done ++ item :: rest ++ tail) with ((done ++ [item]) ++ rest ++ tail)
        by (rewrite <- app_assoc; reflexivity).
      replace (Datatypes.S (length done)) with (length (done ++ [item]))
        by (rewrite length_app; simpl; lia).
      rewrite IH.
      * replace (length (done ++ [item]) + length rest)%nat
          with (length done + length (item :: rest))%nat
          by (rewrite length_app; simpl; lia).
        destruct (unique_from _ _ tail); cbn; [|reflexivity..].
        rewrite Z.eqb_refl. reflexivity.
      * rewrite <- app_assoc. exact Hd.
      * rewrite <- app_assoc. exact Hn.
    + apply Forall_forall. intros x Hx.
      apply list_elem_of_lookup in Hx as [i Hi].
      split.
      * rewrite Forall_forall in Hn. apply Hn.
        apply elem_of_app. left. eapply list_elem_of_lookup_2, Hi.
      * apply (Hd i (length done)).
        -- apply lookup_lt_Some in Hi. lia.
        -- rewrite lookup_app_l; [exact Hi | eapply lookup_lt_Some, Hi].
        -- rewrite lookup_app_r by lia. rewrite Nat.sub_diag. reflexivity.
    + rewrite Forall_forall in Hn. apply Hn. apply elem_of_app. right. left.
Qed.

(** An identifier that occurs early is found early. *)
Lemma findIndex_id_found pre post item :
  Forall (fun x => nullish x = false) pre ->
  nullish item = false ->
  Exists (fun y => strict_equal (field y "id") (field item "id") = true) pre ->
  forall pos index,
    (pos + length pre <= index)%nat ->
    exists k, findIndex_id (pre ++ post) pos index item = Returns (Z.of_nat k)
              /\ (k < pos + length pre)%nat.
Proof.
  intros Hnn Hitem Hex. induction Hex as [y pre Hy|y pre _ IH]; intros pos index Hle;
    apply Forall_cons in Hnn as [Hny Hnn]; cbn [app findIndex_id length] in *;
    rewrite (get_prop_field _ _ Hny), (get_prop_field _ _ Hitem);
    cbn [mbind outcome_bind].
  - rewrite Hy, orb_true_r. exists pos. split; [reflexivity | lia].
  - destruct (_ || _).
    + exists pos. split; [reflexivity | lia].
    + destruct (IH Hnn (Datatypes.S pos) index ltac:(lia)) as (k & -> & Hk).
      exists k. split; [reflexivity | lia].
Qed.

(** Entries whose identifier occurs among the first entries are dropped. *)
Lemma unique_from_dropped e rest todo :
  Forall (fun x => nullish x = false) e ->
  Forall (fun x => nullish x = false
                   /\ Exists (fun y => strict_equal (field y "id") (field x "id")
                                       = true) e) todo ->
  forall index, (length e <= index)%nat ->
  unique_from (e ++ rest) index todo = Returns [].
Proof.
  intros He Htodo. induction Htodo as [|x todo [Hx Hex] _ IH]; intros index Hle;
    [reflexivity|].
  cbn [unique_from].
  destruct (findIndex_id_found e rest x He Hx Hex 0 index ltac:(simpl; lia))
    as (k & -> & Hk).
  cbn [mbind outcome_bind]. rewrite IH by lia. cbn [mret outcome_ret].
  replace (Z.of_nat k =? Z.of_nat index) with false
    by (symmetry; apply Z.eqb_neq; simpl in Hk; lia).
  reflexivity.
Qed.

(** Property X29.  Importing entries whose identifiers are all in
    the stored history changes no entry of it: the existing entry wins over
    the imported one.  The result still counts every entry of the document
    as imported. *)
Theorem importData_keeps_existing fuel doc s e imported n :
  accessible s = true ->
  (forall cs k c, refuses W cs k c = None) ->
  read s HISTORY (VArr []) = VArr e ->
  is_json (VArr e) ->
  Forall (fun x => nullish x = false) e ->
  ids_distinct e ->
  nullish (read s PREFERENCES defaultPreferences) = false ->
  configured_max (read s PREFERENCES defaultPreferences) = VNum n ->
  0 < n -> (length e <= Z.to_nat n)%nat ->
  truthy doc = true -> typeof_object doc = true ->
  field doc "history" = VArr imported ->
  Forall (fun x => nullish x = false
                   /\ Exists (fun y => strict_equal (field y "id") (field x "id")
                                       = true) e) imported ->
  let '(r, s1) := importData W fuel doc s in
  read s1 HISTORY (VArr []) = VArr e
  /\ r = Returns (result_value
                    (mkImportResult true (Z.of_nat (length imported))
                       (truthy (field doc "preferences")
                        && typeof_object (field doc "preferences")) [])).
Proof.
  intros Ha Hacc He Hj Hnn Hids Hnull Hmax Hn Hlen Ht Ho Hhist Himp.
  unfold importData, with_local.
  unfold mbind at 1, M_bind at 1. unfold try_catch.
  rewrite Ht, Ho. cbn [negb orb]. rewrite Hhist.
  unfold mbind at 1, M_bind at 1.
  (* the history *)
  rewrite bind_outer_eq. unfold getHistory. rewrite getItem_read, He.
  rewrite bind_lift_eq. cbn [iterate].
  rewrite bind_lift_eq.
  pose proof (unique_from_kept imported e [] Hids Hnn) as Hu.
  cbn [app length] in Hu. rewrite Hu. clear Hu.
  rewrite (unique_from_dropped e imported imported Hnn Himp) by lia.
  cbn [mbind outcome_bind]. rewrite app_nil_r.
  rewrite bind_outer_eq.
  rewrite (saveHistory_accepted W fuel e s n Ha Hnull Hmax Hn) by apply Hacc.
  replace (length e - Z.to_nat n)%nat with 0%nat by lia.
  cbn [drop]. unfold update_local at 1.
  (* the preferences *)
  unfold mbind at 1, M_bind at 1.
  assert (Hread : forall s2 : Store,
            accessible s2 = true ->
            cells s2 !! HISTORY = Some (Json (json_clean (VArr e))) ->
            read s2 HISTORY (VArr []) = VArr e).
  { intros s2 H1 H2. unfold read. rewrite H1, H2. exact Hj. }
  destruct (truthy (field doc "preferences")
            && typeof_object (field doc "preferences")).
  - rewrite bind_outer_eq.
    unfold savePreferences, savePreferences_with.
    rewrite setItem_accepted; [| exact Ha | discriminate | apply Hacc].
    unfold update_local, mbind, M_bind, get_local, mret, M_ret.
    cbn [errors success imported_history imported_preferences].
    split; [|reflexivity].
    apply Hread; [exact Ha|]. unfold stored. cbn [cells].
    rewrite lookup_insert_ne by discriminate. apply lookup_insert_eq.
  - unfold update_local, mbind, M_bind, get_local, mret, M_ret.
    cbn [errors success imported_history imported_preferences].
    split; [|reflexivity].
    apply Hread; [exact Ha|]. unfold stored. cbn [cells]. apply lookup_insert_eq.
Qed.

End RestFacts.

(** *** The theorems at work *)

(** An object stored in an empty storage. *)
Lemma setItem_then_getItem_witness :
  let '(r, s1) := setItem quiet_world 0 "draft" (obj [("title", VStr "poster")])
                    empty_store in
  r = Returns true
  /\ getItem "draft" VNull s1 = (Returns (obj [("title", VStr "poster")]), s1).
Proof.
  pose proof (setItem_then_getItem quiet_world 0 "draft"
                (obj [("title", VStr "poster")]) VNull empty_store
                eq_refl eq_refl) as H.
  destruct (setItem _ _ _ _ _) as [r s1].
  destruct H as (Hr & _ & Hget & _). split; [exact Hr|].
  apply Hget; [vm_compute; reflexivity | discriminate].
Defined.

(** A storage that refuses every write. *)
Lemma setItem_refused_witness :
  setItem locked_world 1 "draft" (VStr "x") empty_store
  = (Returns false, empty_store).
Proof.
  apply (setItem_refused locked_world 0 "draft" (VStr "x") empty_store).
  right. exists "SecurityError", "The operation is insecure.".
  split; [reflexivity | discriminate].
Defined.

(** Three entries and a [maxHistory] of 2. *)
Lemma saveHistory_keeps_last_witness :
  let s := store_with
             [(PREFERENCES, VObj (<["maxHistory" := VNum 2]>
                                    (spread defaultPreferences)))] in
  read (saveHistory quiet_world 0 (VArr (numbered 0 3)) s).2 HISTORY (VArr [])
  = VArr (numbered 1 2).
Proof.
  cbv zeta.
  pose proof (saveHistory_keeps_last quiet_world 0 (numbered 0 3)
                (store_with
                   [(PREFERENCES, VObj (<["maxHistory" := VNum 2]>
                                          (spread defaultPreferences)))])
                2 eq_refl eq_refl eq_refl eq_refl eq_refl) as H.
  destruct (saveHistory _ _ _ _) as [r s1].
  destruct H as (_ & Hread & _). cbn [snd]. rewrite Hread. vm_compute. reflexivity.
Defined.

(** The entries 0, 1, 2 and the identifier 7. *)
Lemma removeFromHistory_absent_witness :
  let s := store_with [(HISTORY, VArr (numbered 0 3))] in
  removeFromHistory quiet_world 0 (VStr "7") s = (Returns false, s).
Proof.
  apply (removeFromHistory_absent quiet_world 0 (VStr "7")
           (store_with [(HISTORY, VArr (numbered 0 3))]) (numbered 0 3)).
  - reflexivity.
  - repeat constructor.
  - repeat constructor.
Defined.

(** The entries 0, 1, 2 and the identifier 1. *)
Lemma removeFromHistory_present_witness :
  let s := store_with [(HISTORY, VArr (numbered 0 3))] in
  let '(r, s1) := removeFromHistory quiet_world 0 (VStr "1") s in
  r = Returns true
  /\ read s1 HISTORY (VArr []) = VArr (numbered 0 1 ++ numbered 2 1).
Proof.
  cbv zeta.
  pose proof (removeFromHistory_present quiet_world 0 (VStr "1")
                (store_with [(HISTORY, VArr (numbered 0 3))]) (numbered 0 3) 50
                eq_refl eq_refl) as H.
  cbv zeta in H.
  destruct (removeFromHistory _ _ _ _) as [r s1].
  destruct H as (Hr & Hread & _); try reflexivity.
  - repeat constructor.
  - right. left. reflexivity.
  - split; [exact Hr|]. rewrite Hread. vm_compute. reflexivity.
Defined.

(** The key [abc1234567]. *)
Lemma apiKey_round_trip_witness :
  let '(r, s1) := saveApiKey quiet_world 0 (VStr "abc1234567") empty_store in
  r = Returns true
  /\ cells s1 !! API_KEY = Some (Json (VStr "YWJjMTIzNDU2Nw=="))
  /\ getApiKey s1 = (Returns (VStr "abc1234567"), s1).
Proof.
  apply (apiKey_round_trip quiet_world 0 "abc1234567" "YWJjMTIzNDU2Nw=="
           empty_store); try reflexivity.
  discriminate.
Defined.

(** The empty key, and a key in Chinese. *)
Lemma saveApiKey_rejects_witness :
  saveApiKey quiet_world 0 (VStr EmptyString) empty_store
  = (Returns false, empty_store)
  /\ exists e,
      saveApiKey quiet_world 0 (VStr "钥匙") empty_store = (Throws e, empty_store)
      /\ field e "name" = VStr "InvalidCharacterError".
Proof.
  split.
  - apply (proj1 (saveApiKey_rejects quiet_world 0 (VStr EmptyString) empty_store)).
    left. reflexivity.
  - apply (proj2 (saveApiKey_rejects quiet_world 0 (VStr "钥匙") empty_store)
             "钥匙" eq_refl).
    vm_compute. reflexivity.
Defined.

(** A stored key, removed. *)
Lemma removeApiKey_forgets_witness :
  let s := store_with [(API_KEY, VStr "YWJjMTIzNDU2Nw==")] in
  getApiKey s = (Returns (VStr "abc1234567"), s)
  /\ let '(r, s1) := removeApiKey s in
     r = Returns true /\ getApiKey s1 = (Returns VNull, s1).
Proof.
  cbv zeta. split; [vm_compute; reflexivity|].
  pose proof (removeApiKey_forgets
                (store_with [(API_KEY, VStr "YWJjMTIzNDU2Nw==")]) eq_refl) as H.
  destruct (removeApiKey _) as [r s1].
  destruct H as (Hr & Hget & _). auto.
Defined.

(** A storage that another part of the page uses too. *)
Lemma clearAll_resets_witness :
  let s := store_with [(HISTORY, VArr (numbered 0 3));
                       (API_KEY, VStr "YWJjMTIzNDU2Nw==");
                       ("theme", VStr "dark")] in
  let '(r, s1) := clearAll s in
  r = Returns true
  /\ getHistory s1 = (Returns (VArr []), s1)
  /\ read s1 "theme" VNull = VStr "dark".
Proof.
  cbv zeta.
  pose proof (clearAll_resets
                (store_with [(HISTORY, VArr (numbered 0 3));
                             (API_KEY, VStr "YWJjMTIzNDU2Nw==");
                             ("theme", VStr "dark")]) eq_refl) as H.
  destruct (clearAll _) as [r s1].
  destruct H as (Hr & Hh & _ & _ & _ & Hother).
  split; [exact Hr|]. split; [exact Hh|].
  rewrite Hother by discriminate. reflexivity.
Defined.

(** An empty storage. *)
Lemma getCachedImage_miss_witness :
  getCachedImage quiet_world object_prototype 0 (VStr "https://x/y.png")
    empty_store
  = (Returns VNull, empty_store).
Proof.
  apply (getCachedImage_miss quiet_world object_prototype 0
           (VStr "https://x/y.png") empty_store ∅); reflexivity.
Defined.

(** An entry that is one second old. *)
Lemma getCachedImage_fresh_witness :
  let s := store_with
             [(CACHE, VObj {[ "https://x/y.png" := cache_entry (VStr "pixels") 0 ]})] in
  (getCachedImage (world_at 1000) object_prototype 0 (VStr "https://x/y.png") s).1
  = Returns (VStr "pixels").
Proof.
  cbv zeta.
  rewrite (getCachedImage_fresh (world_at 1000) object_prototype 0
             (VStr "https://x/y.png") _
             {[ "https://x/y.png" := cache_entry (VStr "pixels") 0 ]}
             (cache_entry (VStr "pixels") 0)); try reflexivity.
  right. exists 0. split; [reflexivity|]. vm_compute. discriminate.
Defined.

(** An entry that is thirty days and a millisecond old. *)
Lemma getCachedImage_expired_witness :
  let s := store_with
             [(CACHE, VObj {[ "https://x/y.png" := cache_entry (VStr "pixels") 0 ]})] in
  let '(r, s1) := getCachedImage (world_at (month + 1)) object_prototype 0
                    (VStr "https://x/y.png") s in
  r = Returns VNull /\ read s1 CACHE (VObj ∅) = VObj ∅.
Proof.
  cbv zeta.
  pose proof (getCachedImage_expired (world_at (month + 1)) object_prototype 0
                (VStr "https://x/y.png")
                (store_with
                   [(CACHE, VObj {[ "https://x/y.png"
                                    := cache_entry (VStr "pixels") 0 ]})])
                {[ "https://x/y.png" := cache_entry (VStr "pixels") 0 ]}
                (cache_entry (VStr "pixels") 0) 0
                eq_refl eq_refl eq_refl eq_refl eq_refl) as H.
  destruct (getCachedImage _ _ _ _ _) as [r s1].
  destruct H as (Hr & Hs1 & _); [reflexivity | reflexivity |].
  split; [exact Hr|]. rewrite Hs1. vm_compute. reflexivity.
Defined.

(** An image cached in an empty storage. *)
Lemma cacheImage_then_getCachedImage_witness :
  let s1 := (cacheImage (world_at 1000) 0 (VStr "https://x/y.png")
               (VStr "pixels") empty_store).2 in
  (getCachedImage (world_at 1000) object_prototype 0 (VStr "https://x/y.png")
     s1).1
  = Returns (VStr "pixels").
Proof.
  apply (cacheImage_then_getCachedImage (world_at 1000) object_prototype 0
           (VStr "https://x/y.png") (VStr "pixels") empty_store ∅).
  - reflexivity.
  - reflexivity.
  - intros k e Hk. rewrite lookup_empty in Hk. discriminate Hk.
  - reflexivity.
  - intros t. vm_compute. discriminate.
  - discriminate.
Defined.

(** A string in place of the document. *)
Lemma importData_invalid_witness :
  importData quiet_world 0 (VStr "[]") empty_store
  = (Returns (result_value
                (mkImportResult false 0 false
                   ["Import error: Invalid data format"])), empty_store).
Proof.
  apply (importData_invalid quiet_world 0 (VStr "[]") empty_store).
  right. reflexivity.
Defined.

(** The entries 0, 1, 2, and a document with 1 and 2. *)
Lemma importData_keeps_existing_witness :
  let s := store_with [(HISTORY, VArr (numbered 0 3))] in
  let doc := obj [("version", VStr "1.0"); ("history", VArr (numbered 1 2))] in
  let '(r, s1) := importData quiet_world 0 doc s in
  read s1 HISTORY (VArr []) = VArr (numbered 0 3)
  /\ r = Returns (result_value (mkImportResult true 2 false [])).
Proof.
  cbv zeta.
  apply (importData_keeps_existing quiet_world 0
           (obj [("version", VStr "1.0"); ("history", VArr (numbered 1 2))])
           (store_with [(HISTORY, VArr (numbered 0 3))])
           (numbered 0 3) (numbered 1 2) 50); try reflexivity.
  - repeat constructor.
  - intros i j x y Hij Hi Hj.
    destruct i as [|[|[|i]]], j as [|[|[|j]]]; try discriminate; try congruence;
      injection Hi as <-; injection Hj as <-; reflexivity.
  - vm_compute. lia.
  - apply Forall_cons. split; [split; [reflexivity | right; left; reflexivity]|].
    apply Forall_cons. split; [|constructor].
    split; [reflexivity | right; right; left; reflexivity].
Defined.

(** Stored preferences of one member. *)
Lemma initialize_keeps_preferences_witness :
  let s := store_with [(PREFERENCES, obj [("theme", VStr "dark")])] in
  let '(r, s1) := initialize quiet_world 0 s in
  r = Returns true
  /\ read s1 PREFERENCES VNull = obj [("theme", VStr "dark")].
Proof.
  cbv zeta.
  pose proof (initialize_keeps_preferences quiet_world 0
                (store_with [(PREFERENCES, obj [("theme", VStr "dark")])])
                eq_refl eq_refl (fun _ _ => eq_refl)) as H.
  destruct (initialize _ _ _) as [r s1].
  destruct H as (Hr & Hread & _). split; [exact Hr|].
  rewrite Hread. reflexivity.
Defined.

End StorageProofs.
